(** * ac_pdftools: the unwanted-element analysis and removal engine

    A shallow embedding of the Go package [pdf] and the properties of its
    specification that concern it.  The sources are pdf/analyze.go (the
    analysis), pdf/page_utils.go (the page specifier), pdf/remove_pages.go
    (which also holds [execCommandWithTimeout] and the timeouts), and the
    two files of the package whose names are not known: the one with the
    constants of the detection and the one with [RemoveElementsByIDs] and
    [removeImagesByIDs], called here "the constants" and "the removal".
    Of api/handlers.go, the operation of [HandleRemoveSelectedElements]
    is embedded.  The properties of the specification come first, further
    properties of the code after them.

    Conventions of the embedding.
    - A Go [string] is a byte sequence: Rocq's [string] (one [ascii] per
      byte).  A multi-byte UTF-8 character is the sequence of its bytes.
    - A Go [int] is a [Z]; the only places where the 64-bit range shows
      are [strconv.Atoi] (range error) and they are written out there.
    - A Go [float64] is modelled by an exact rational ([Q]); see the
      section on file sizes for what that idealises.
    - Go maps used for lookup are [gmap]s.  A [range] over a map visits
      the entries in an order chosen by the runtime; every such loop takes
      its order from a [Scheduler].
    - External commands, the file system and the process log are events;
      the outcome of a command is read from a [World]. *)

From Stdlib Require Import ZArith QArith Qround String Ascii List Lia Permutation Sorted.
From stdpp Require Import gmap strings list fin_maps.

Local Open Scope Z_scope.

(** ** The Go library functions the package calls *)

Module Strings.

(** [len(s)] *)
Definition len (s : string) : Z := Z.of_nat (String.length s).

(** [strings.HasPrefix(s, prefix)] *)
Fixpoint HasPrefix (s pre : string) {struct pre} : bool :=
  match pre, s with
  | EmptyString, _ => true
  | String a pre', String b s' => Ascii.eqb a b && HasPrefix s' pre'
  | String _ _, EmptyString => false
  end.

(** [s[n:]] for [0 <= n <= len(s)] *)
Fixpoint slice_from (n : nat) (s : string) : string :=
  match n, s with
  | O, _ => s
  | S n', String _ s' => slice_from n' s'
  | S _, EmptyString => EmptyString
  end.

(** [s[:n]] for [0 <= n <= len(s)] *)
Fixpoint slice_to (n : nat) (s : string) : string :=
  match n, s with
  | O, _ => EmptyString
  | S n', String c s' => String c (slice_to n' s')
  | S _, EmptyString => EmptyString
  end.

(** [strings.Contains(s, substr)] *)
Fixpoint Contains (s sub : string) : bool :=
  HasPrefix s sub ||
  match s with
  | EmptyString => false
  | String _ s' => Contains s' sub
  end.

(** [strings.Index(s, substr)]: the byte offset of the first occurrence,
    [-1] when there is none. *)
Fixpoint Index (s sub : string) : Z :=
  if HasPrefix s sub then 0
  else match s with
       | EmptyString => -1
       | String _ s' => let i := Index s' sub in if i <? 0 then -1 else i + 1
       end.

(** [strings.LastIndex(s, substr)] *)
Fixpoint LastIndex (s sub : string) : Z :=
  match s with
  | EmptyString => if HasPrefix s sub then 0 else -1
  | String _ s' =>
      let i := LastIndex s' sub in
      if 0 <=? i then i + 1 else if HasPrefix s sub then 0 else -1
  end.

Definition mem_char (c : ascii) (chars : string) : bool :=
  existsb (Ascii.eqb c) (list_ascii_of_string chars).

(** [strings.IndexAny(s, chars)], for a set of ASCII [chars] *)
Fixpoint IndexAny (s chars : string) : Z :=
  match s with
  | EmptyString => -1
  | String c s' =>
      if mem_char c chars then 0
      else let i := IndexAny s' chars in if i <? 0 then -1 else i + 1
  end.

(** [strings.Split(s, sep)] for a non-empty [sep]: the pieces between
    the successive leftmost, non-overlapping occurrences of [sep].
    [cur] is the piece being read; [skip] counts the bytes of a
    separator still to pass over. *)
Fixpoint split_from (sep s cur : string) (skip : nat) : list string :=
  match s with
  | EmptyString => [cur]
  | String c s' =>
      match skip with
      | S k => split_from sep s' cur k
      | O =>
          if HasPrefix s sep
          then cur :: split_from sep s' EmptyString (String.length sep - 1)
          else split_from sep s' (cur +:+ String c EmptyString) O
      end
  end.

Definition Split (s sep : string) : list string := split_from sep s EmptyString O.

(** [strings.ReplaceAll(s, old, "")] for a one-byte [old] *)
Fixpoint remove_char (c : ascii) (s : string) : string :=
  match s with
  | EmptyString => EmptyString
  | String d s' => if Ascii.eqb c d then remove_char c s' else String d (remove_char c s')
  end.

(** Case mapping.  [strings.ToUpper] and [strings.ToLower] are taken on
    the ASCII letters; the other bytes are kept. *)
Definition upper_char (c : ascii) : ascii :=
  let n := nat_of_ascii c in
  if ((97 <=? n) && (n <=? 122))%nat then ascii_of_nat (n - 32) else c.

Definition lower_char (c : ascii) : ascii :=
  let n := nat_of_ascii c in
  if ((65 <=? n) && (n <=? 90))%nat then ascii_of_nat (n + 32) else c.

Fixpoint map_chars (f : ascii -> ascii) (s : string) : string :=
  match s with
  | EmptyString => EmptyString
  | String c s' => String (f c) (map_chars f s')
  end.

Definition ToUpper : string -> string := map_chars upper_char.
Definition ToLower : string -> string := map_chars lower_char.

(** White space.  [space_width s] is the number of bytes of the white
    space character (in the sense of [unicode.IsSpace]) that [s] starts
    with, [0] when it starts with none: the six ASCII ones, U+0085,
    U+00A0, U+1680, U+2000..U+200A, U+2028, U+2029, U+202F, U+205F and
    U+3000 in their UTF-8 encoding. *)
Definition ascii_space (c : ascii) : bool :=
  let n := nat_of_ascii c in
  (((9 <=? n) && (n <=? 13)) || (n =? 32))%nat.

Definition space_width (s : string) : nat :=
  match s with
  | EmptyString => 0
  | String c r =>
      if ascii_space c then 1
      else
        match nat_of_ascii c, r with
        | 194%nat, String d _ =>
            let m := nat_of_ascii d in
            if ((m =? 133) || (m =? 160))%nat then 2 else 0
        | 225%nat, String d (String e _) =>
            if ((nat_of_ascii d =? 154) && (nat_of_ascii e =? 128))%nat then 3 else 0
        | 226%nat, String d (String e _) =>
            let m := nat_of_ascii d in
            let k := nat_of_ascii e in
            if ((m =? 128) && (((128 <=? k) && (k <=? 138)) || (k =? 168) || (k =? 169) || (k =? 175)))%nat then 3
            else if ((m =? 129) && (k =? 159))%nat then 3 else 0
        | 227%nat, String d (String e _) =>
            if ((nat_of_ascii d =? 128) && (nat_of_ascii e =? 128))%nat then 3 else 0
        | _, _ => 0
        end
  end%nat.

(** The same, read from the end: [s] is the reversed text. *)
Definition space_width_rev (s : string) : nat :=
  match s with
  | EmptyString => 0
  | String c r =>
      if ascii_space c then 1
      else
        match r with
        | String d r' =>
            if (space_width (String d (String c EmptyString)) =? 2)%nat then 2
            else match r' with
                 | String e _ =>
                     if (space_width (String e (String d (String c EmptyString))) =? 3)%nat then 3 else 0
                 | EmptyString => 0
                 end
        | EmptyString => 0
        end
  end%nat.

Fixpoint trim_with (width : string -> nat) (fuel : nat) (s : string) : string :=
  match fuel with
  | O => s
  | S fuel' =>
      match width s with
      | O => s
      | k => trim_with width fuel' (slice_from k s)
      end
  end.

Definition TrimLeftSpace (s : string) : string :=
  trim_with space_width (String.length s) s.

(** [strings.TrimSpace(s)] *)
Definition TrimSpace (s : string) : string :=
  let l := TrimLeftSpace s in
  String.rev (trim_with space_width_rev (String.length l) (String.rev l)).

(** [strings.Fields(s)]: the maximal runs of bytes that hold no white
    space.  [cur] is the field being read, [skip] the bytes of a
    multi-byte space still to pass over. *)
Fixpoint fields_from (s cur : string) (skip : nat) : list string :=
  let flush (rest : list string) :=
    match cur with EmptyString => rest | _ => cur :: rest end in
  match s with
  | EmptyString => flush []
  | String c s' =>
      match skip with
      | S k => fields_from s' cur k
      | O =>
          match space_width s with
          | O => fields_from s' (cur +:+ String c EmptyString) O
          | S k => flush (fields_from s' EmptyString k)
          end
      end
  end.

Definition Fields (s : string) : list string := fields_from s EmptyString O.

End Strings.

Module Strconv.

Definition is_digit (c : ascii) : bool :=
  let n := nat_of_ascii c in ((48 <=? n) && (n <=? 57))%nat.

Definition digit_val (c : ascii) : Z := Z.of_nat (nat_of_ascii c) - 48.

Definition all_digits (s : string) : bool :=
  forallb is_digit (list_ascii_of_string s).

(** The value of a digit string, most significant digit first *)
Definition digits_value (s : string) : Z :=
  fold_left (fun acc c => 10 * acc + digit_val c) (list_ascii_of_string s) 0.

Definition MaxInt : Z := 2 ^ 63 - 1.
Definition MinInt : Z := - 2 ^ 63.

(** [strconv.Atoi(s)]: the value and whether [err == nil].  A syntax
    error returns [0]; a digit string out of the 64-bit range returns
    the nearest bound, with an error. *)
Definition Atoi (s : string) : Z * bool :=
  let '(neg, body) :=
    match s with
    | String "-"%char r => (true, r)
    | String "+"%char r => (false, r)
    | _ => (false, s)
    end in
  match body with
  | EmptyString => (0, false)
  | _ =>
      if all_digits body then
        let n := digits_value body in
        if neg then (if n <=? 2 ^ 63 then (- n, true) else (MinInt, false))
        else (if n <=? MaxInt then (n, true) else (MaxInt, false))
      else (0, false)
  end.

Definition digit_char (d : Z) : ascii := ascii_of_nat (48 + Z.to_nat d).

Fixpoint digits_of (fuel : nat) (n : Z) (acc : string) : string :=
  match fuel with
  | O => acc
  | S fuel' =>
      let acc' := String (digit_char (n mod 10)) acc in
      if n <? 10 then acc' else digits_of fuel' (n / 10) acc'
  end.

(** The decimal numeral of a natural number *)
Definition decimal (n : Z) : string :=
  digits_of (S (Z.to_nat (Z.log2 n))) n EmptyString.

(** [strconv.Itoa(z)], also the verb [%d] *)
Definition Itoa (z : Z) : string :=
  if z <? 0 then String "-"%char (decimal (- z)) else decimal z.

(** [strconv.FormatBool(b)] *)
Definition FormatBool (b : bool) : string := if b then "true" else "false".

End Strconv.

Import Strings Strconv.

(** ** analyze.go: the prefix of an image identifier *)

(** [extractIdPrefix(id)] *)
Definition extractIdPrefix (id : string) : string :=
  if HasPrefix id "Image-" then "Image"
  else if HasPrefix id "Img" then "Img"
  else if HasPrefix id "WM-" || HasPrefix id "Watermark" then "Watermark"
  else
    let by_length :=
      if 3 <=? len id
      then (let prefixLen := if 5 <? len id then 5%nat else 3%nat in slice_to prefixLen id)
      else "unknown" in
    if Contains id "-" then
      let parts := Split id "-" in
      if (1 <? Z.of_nat (length parts)) && (0 <? len (hd "" parts))
      then hd "" parts
      else by_length
    else by_length.

(** The identifiers that one of the literal checks catches *)
Definition known_literal (id : string) : bool :=
  HasPrefix id "Image-" || HasPrefix id "Img" || HasPrefix id "WM-" || HasPrefix id "Watermark".


(** ** Results of fallible functions *)

(** A Go function that returns [(T, error)] either returns a value or an
    error built by [fmt.Errorf]; a loop that never ends, or exhausts the
    memory, does neither. *)
Inductive outcome (A : Type) : Type :=
| Returns (a : A)
| Fails (msg : string)
| Diverges.
Arguments Returns {A} a.
Arguments Fails {A} msg.
Arguments Diverges {A}.

(** ** page_utils.go *)

(** The character class [\s] of Go's regular expressions *)
Definition re_space (c : ascii) : bool :=
  let n := nat_of_ascii c in
  ((n =? 9) || (n =? 10) || (n =? 12) || (n =? 13) || (n =? 32))%nat.

(** [regexp.MustCompile(`\s`).ReplaceAllString(s, "")] *)
Fixpoint remove_spaces (s : string) : string :=
  match s with
  | EmptyString => EmptyString
  | String c s' => if re_space c then remove_spaces s' else String c (remove_spaces s')
  end.

(** The pages [start, start+1, ..., stop] *)
Definition page_range (start stop : Z) : list Z :=
  map (fun k => start + Z.of_nat k) (seq 0 (Z.to_nat (stop - start + 1))).

(** [sort.Ints]: the ascending rearrangement of the list *)
Fixpoint insert_sorted (x : Z) (l : list Z) : list Z :=
  match l with
  | [] => [x]
  | y :: l' => if x <=? y then x :: l else y :: insert_sorted x l'
  end.

Definition sort_ints (l : list Z) : list Z := fold_right insert_sorted [] l.

(** The last loop of [ParsePageSpecifier]: an entry is kept when it is
    the first one or differs from the entry before it ([prev]). *)
Fixpoint dedup_after (prev : Z) (l : list Z) : list Z :=
  match l with
  | [] => []
  | page :: l' =>
      if page =? prev then dedup_after page l' else page :: dedup_after page l'
  end.

Definition dedup_adjacent (l : list Z) : list Z :=
  match l with
  | [] => []
  | page :: l' => page :: dedup_after page l'
  end.

(** The loop over the comma separated parts.  The loop
    [for i := start; i <= end; i++] does not end when [end] is the
    largest [int]. *)
Fixpoint parse_page_parts (parts : list string) (pageList : list Z) : outcome (list Z) :=
  match parts with
  | [] => Returns pageList
  | part :: rest =>
      if Contains part "-" then
        let rangeParts := Split part "-" in
        if negb (Z.of_nat (length rangeParts) =? 2) then Fails ("invalid range: " +:+ part)
        else
          let '(start, ok1) := Atoi (nth 0 rangeParts "") in
          if negb ok1 then Fails ("invalid start page: " +:+ nth 0 rangeParts "")
          else
            let '(stop, ok2) := Atoi (nth 1 rangeParts "") in
            if negb ok2 then Fails ("invalid end page: " +:+ nth 1 rangeParts "")
            else if stop <? start
            then Fails ("invalid range: start > end (" +:+ Itoa start +:+ " > " +:+ Itoa stop +:+ ")")
            else if stop =? MaxInt then Diverges
            else parse_page_parts rest (pageList ++ page_range start stop)
      else
        let '(pageNum, ok) := Atoi part in
        if negb ok then Fails ("invalid page number: " +:+ part)
        else parse_page_parts rest (pageList ++ [pageNum])
  end.

(** [ParsePageSpecifier(pages)] *)
Definition ParsePageSpecifier (pages : string) : outcome (list Z) :=
  match pages with
  | EmptyString => Fails "empty page specification"
  | _ =>
      let pages := remove_spaces pages in
      match parse_page_parts (Split pages ",") [] with
      | Returns pageList => Returns (dedup_adjacent (sort_ints pageList))
      | Fails msg => Fails msg
      | Diverges => Diverges
      end
  end.

(** ** float64 *)

(** A [float64] is modelled by the exact rational it stands for, with the
    two infinities and NaN that a division by zero produces.  Finite
    results are not rounded: the model is exact where the Go program
    computes on numerals of at most 15 significant digits and page counts
    below 2^53, and idealises it elsewhere. *)
Module F64.

Inductive t : Type :=
| Fin (q : Q)
| PosInf
| NegInf
| NaN.

Definition of_int (z : Z) : t := Fin (inject_Z z).

Definition sgn (q : Q) : comparison := (Qnum q ?= 0)%Z.

Definition neg (a : t) : t :=
  match a with
  | Fin q => Fin (- q)
  | PosInf => NegInf
  | NegInf => PosInf
  | NaN => NaN
  end.

Definition mul (a b : t) : t :=
  let inf_times (q : Q) (pos : bool) :=
    match sgn q with
    | Eq => NaN
    | Gt => if pos then PosInf else NegInf
    | Lt => if pos then NegInf else PosInf
    end in
  match a, b with
  | NaN, _ | _, NaN => NaN
  | Fin x, Fin y => Fin (x * y)
  | Fin x, PosInf | PosInf, Fin x => inf_times x true
  | Fin x, NegInf | NegInf, Fin x => inf_times x false
  | PosInf, PosInf | NegInf, NegInf => PosInf
  | PosInf, NegInf | NegInf, PosInf => NegInf
  end.

Definition add (a b : t) : t :=
  match a, b with
  | NaN, _ | _, NaN => NaN
  | Fin x, Fin y => Fin (x + y)
  | PosInf, NegInf | NegInf, PosInf => NaN
  | PosInf, _ | _, PosInf => PosInf
  | NegInf, _ | _, NegInf => NegInf
  end.

Definition div (a b : t) : t :=
  match a, b with
  | NaN, _ | _, NaN => NaN
  | Fin x, Fin y =>
      match sgn y with
      | Eq => match sgn x with Eq => NaN | Gt => PosInf | Lt => NegInf end
      | _ => Fin (x / y)
      end
  | Fin _, _ => Fin 0
  | _, Fin y => match sgn y with Lt => neg a | _ => a end
  | _, _ => NaN
  end.

(** [a >= b] *)
Definition geb (a b : t) : bool :=
  match a, b with
  | NaN, _ | _, NaN => false
  | Fin x, Fin y => Qle_bool y x
  | PosInf, _ => true
  | _, NegInf => true
  | _, _ => false
  end.

(** [a > b] *)
Definition gtb (a b : t) : bool :=
  match a, b with
  | NaN, _ | _, NaN => false
  | Fin x, Fin y => negb (Qle_bool x y)
  | PosInf, PosInf | NegInf, NegInf => false
  | PosInf, _ => true
  | _, NegInf => true
  | _, _ => false
  end.

(** The conversion [int(a)]: the integer part of a finite value.  For
    the others Go leaves the result to the platform; amd64 gives the
    smallest [int]. *)
Definition to_int (a : t) : Z :=
  match a with
  | Fin q => Z.quot (Qnum q) (Zpos (Qden q))
  | _ => MinInt
  end.

(** Rounding to an integer, a tie going to the even neighbour *)
Definition round_half_even (q : Q) : Z :=
  let lo := Qfloor q in
  match ((q - inject_Z lo) ?= (1 # 2))%Q with
  | Lt => lo
  | Gt => lo + 1
  | Eq => if Z.even lo then lo else lo + 1
  end.

(** The verb [%.0f] *)
Definition format0 (a : t) : string :=
  match a with
  | Fin q =>
      let r := round_half_even q in
      match sgn q with
      | Lt => String "-"%char (decimal (Z.abs r))
      | _ => decimal r
      end
  | PosInf => "+Inf"
  | NegInf => "-Inf"
  | NaN => "NaN"
  end.

(** The verb [%.1f] *)
Definition format1 (a : t) : string :=
  match a with
  | Fin q =>
      let r := Z.abs (round_half_even (q * 10)) in
      let body := decimal (r / 10) +:+ "." +:+ decimal (r mod 10) in
      match sgn q with
      | Lt => String "-"%char body
      | _ => body
      end
  | PosInf => "+Inf"
  | NegInf => "-Inf"
  | NaN => "NaN"
  end.

(** [strconv.ParseFloat(s, 64)] on a text made of digits and dots, which
    is what [parseFileSizeKB] passes: a numeral has at least one digit
    and at most one dot, and its value must not round to an infinity. *)
Definition max_finite_bound : Q := inject_Z (2 ^ 1024 - 2 ^ 970).

Definition ParseFloat (s : string) : option t :=
  let parts := Split s "." in
  let intPart := nth 0 parts "" in
  let fracPart := nth 1 parts "" in
  if (Z.of_nat (length parts) <=? 2)
     && all_digits (intPart +:+ fracPart)
     && negb (String.eqb (intPart +:+ fracPart) "") then
    let q := (inject_Z (digits_value (intPart +:+ fracPart))
              / inject_Z (10 ^ Z.of_nat (String.length fracPart)))%Q in
    if Qle_bool max_finite_bound q then None else Some (Fin q)
  else None.

End F64.

(** ** The constants *)

Definition MinPageCoverageThreshold : Q := 8 # 10.
Definition BaseConfidence : Q := 3 # 10.
Definition SizeBasedConfidenceBonus : Q := 3 # 10.
Definition PositionBasedConfidenceBonus : Q := 2 # 10.
Definition MinWatermarkFileSizeKB : Q := 30 # 1.
Definition FullPageCoverageThreshold : Q := 1 # 1.

(** ** analyze.go: file sizes *)

(** The loop of [parseFileSizeKB] that separates the number from the
    unit: the digits and dots in front, and the rest. *)
Fixpoint span_number (s : string) : string * string :=
  match s with
  | EmptyString => (EmptyString, EmptyString)
  | String c s' =>
      if is_digit c || Ascii.eqb c "."%char
      then (let '(numStr, unit) := span_number s' in (String c numStr, unit))
      else (EmptyString, s)
  end.

(** [parseFileSizeKB(sizeStr)] *)
Definition parseFileSizeKB (sizeStr : string) : F64.t :=
  let sizeStr := TrimSpace (ToUpper sizeStr) in
  let sizeStr := remove_char ","%char sizeStr in
  let sizeStr := remove_char " "%char sizeStr in
  let '(numStr, unit) := span_number sizeStr in
  match numStr with
  | EmptyString => F64.Fin 0
  | _ =>
      match F64.ParseFloat numStr with
      | None => F64.Fin 0
      | Some num =>
          if HasPrefix unit "KB" || HasPrefix unit "K" then num
          else if HasPrefix unit "MB" || HasPrefix unit "M" then F64.mul num (F64.of_int 1024)
          else if HasPrefix unit "GB" || HasPrefix unit "G"
               then F64.mul (F64.mul num (F64.of_int 1024)) (F64.of_int 1024)
          else if HasPrefix unit "B" || String.eqb unit "" then F64.div num (F64.of_int 1024)
          else F64.div num (F64.of_int 1024)
      end
  end.

(** The key of a size group: [fmt.Sprintf("%.0fKB", fileSizeKB)] *)
Definition sizeKey_of (fileSizeKB : F64.t) : string := F64.format0 fileSizeKB +:+ "KB".

(** ** analyze.go: the data *)

(** [imageInfo] *)
Record imageInfo : Type := mkImageInfo {
  img_id : string;
  img_obj : string;
  img_width : Z;
  img_height : Z;
  img_size : string;
  img_softMask : bool;
  img_imgMask : bool;
  img_colorSpace : string
}.

(** The zero value [imageInfo{}] *)
Definition imageInfo_zero : imageInfo := mkImageInfo "" "" 0 0 "" false false "".

(** [imageWithPage] *)
Record imageWithPage : Type := mkImageWithPage {
  iwp_img : imageInfo;
  iwp_page : Z
}.

(** [rawImageData] *)
Record rawImageData : Type := mkRawImageData {
  raw_page : Z;
  raw_obj : string;
  raw_id : string;
  raw_imgType : string;
  raw_softMask : string;
  raw_imgMask : string;
  raw_width : Z;
  raw_height : Z;
  raw_colorSpace : string;
  raw_components : Z;
  raw_bpc : Z;
  raw_interp : string;
  raw_size : string
}.

(** [UnwantedElementCandidate] *)
Record UnwantedElementCandidate : Type := mkCandidate {
  Type_ : string;
  ID : string;
  Page : Z;
  Description : string;
  Confidence : F64.t;
  Metadata : gmap string string
}.

(** [UnwantedElementsAnalysis], without its debug log *)
Record UnwantedElementsAnalysis : Type := mkAnalysis {
  TotalPages : Z;
  ImageCandidates : list UnwantedElementCandidate;
  TextCandidates : list UnwantedElementCandidate;
  OverallConfidence : F64.t;
  Recommendations : list string
}.

(** [m[k] = append(m[k], x)] *)
Definition map_append `{Countable K} {A : Type} (k : K) (x : A)
    (m : gmap K (list A)) : gmap K (list A) :=
  <[k := default [] (m !! k) ++ [x]]> m.

(** [m[k]] for a map of slices: [nil] when the key is absent *)
Definition map_get `{Countable K} {A : Type} (m : gmap K (list A)) (k : K) : list A :=
  default [] (m !! k).

(** ** analyze.go: reading the table of [pdfcpu images list] *)

Definition box : string := "│".
Definition tab : string := String "009"%char EmptyString.
Definition newline : string := String "010"%char EmptyString.

(** The number of [\s] bytes that [s] starts with *)
Fixpoint space_run (s : string) : nat :=
  match s with
  | EmptyString => O
  | String c s' => if re_space c then S (space_run s') else O
  end.

(** [regexp.MustCompile(`\s{2,}`).Split(line, -1)]: the pieces between
    the runs of two or more [\s] bytes. *)
Fixpoint split_runs_from (s cur : string) (skip : nat) : list string :=
  match s with
  | EmptyString => [cur]
  | String c s' =>
      match skip with
      | S k => split_runs_from s' cur k
      | O =>
          let r := space_run s in
          if (2 <=? r)%nat then cur :: split_runs_from s' EmptyString (r - 1)
          else split_runs_from s' (cur +:+ String c EmptyString) O
      end
  end.

Definition split_space_runs (line : string) : list string :=
  split_runs_from line EmptyString O.

(** [regexp.MatchString(`^[\s│|\-=_]+$`, s)] *)
Fixpoint separator_chars (s : string) : bool :=
  match s with
  | EmptyString => true
  | String c r =>
      if re_space c || mem_char c "|-=_" then separator_chars r
      else
        match nat_of_ascii c, r with
        | 226%nat, String d (String e r') =>
            ((nat_of_ascii d =? 148) && (nat_of_ascii e =? 130))%nat && separator_chars r'
        | _, _ => false
        end
  end.

Definition separator_line (s : string) : bool :=
  negb (String.eqb s "") && separator_chars s.

(** The four splitting strategies of a table row, then the trimming of
    the parts and the removal of the empty ones. *)
Definition splitRow (line : string) : list string :=
  let parts :=
    if Contains line box then Split line box
    else if Contains line "|" then Split line "|"
    else if Contains line tab then Split line tab
    else split_space_runs line in
  let parts := map TrimSpace parts in
  List.filter (fun p => negb (String.eqb p "")) parts.

(** The two searches for a size among the fields *)
Definition size_like (part : string) : bool :=
  Contains (ToUpper part) "KB" || Contains (ToUpper part) "MB" || Contains (ToUpper part) "B".

Definition size_like_long (part : string) : bool :=
  Contains (ToUpper part) "KB" || Contains (ToUpper part) "MB"
  || (Contains (ToUpper part) "B" && (1 <? len part)).

Definition summary_line (lineTrimmed : string) : bool :=
  Contains (ToLower lineTrimmed) "images available"
  || Contains (ToLower lineTrimmed) "total images"
  || Contains (ToLower lineTrimmed) "no images".

Definition header_line (lineTrimmed : string) : bool :=
  Contains lineTrimmed "Page"
  && (Contains lineTrimmed "Obj" || Contains lineTrimmed "Type"
      || Contains lineTrimmed "Id" || Contains lineTrimmed "ID").

(** The variables of the first loop of [analyzeImages]; [atEnd] is set by
    its [break]. *)
Record tableScan : Type := mkTableScan {
  inTable : bool;
  headerFound : bool;
  atEnd : bool;
  allImages : list rawImageData;
  imagesByPage : gmap Z (list imageInfo);
  linesProcessed : Z;
  linesSkipped : Z
}.

Definition tableScan_start : tableScan := mkTableScan false false false [] ∅ 0 0.

(** The part of the loop body that follows the splitting of a row *)
Definition scanRow (st : tableScan) (parts : list string) : tableScan :=
  if Z.of_nat (length parts) <? 3 then
    mkTableScan (inTable st) (headerFound st) (atEnd st) (allImages st) (imagesByPage st)
                (linesProcessed st) (linesSkipped st + 1)
  else
    let st := mkTableScan (inTable st) (headerFound st) (atEnd st) (allImages st) (imagesByPage st)
                          (linesProcessed st + 1) (linesSkipped st) in
    let pageStr := nth 0 parts "" in
    let objStr := nth 1 parts "" in
    let idStr := nth 2 parts "" in
    let imgType := nth 3 parts "" in
    let softMask := nth 4 parts "" in
    let imgMask := nth 5 parts "" in
    let widthStr := nth 6 parts "" in
    let heightStr := nth 7 parts "" in
    let colorSpace := nth 8 parts "" in
    let compStr := nth 9 parts "" in
    let bpcStr := nth 10 parts "" in
    let interp := nth 11 parts "" in
    let sizeStr :=
      if 12 <? Z.of_nat (length parts) then nth 12 parts ""
      else if 8 <? Z.of_nat (length parts)
           then default "" (List.find size_like (skipn 8 parts))
           else "" in
    if String.eqb pageStr "" || String.eqb idStr "" then st
    else
      let page := fst (Atoi pageStr) in
      if page =? 0 then st
      else
        let width := fst (Atoi widthStr) in
        let height := fst (Atoi heightStr) in
        let comp := fst (Atoi compStr) in
        let bpc := fst (Atoi bpcStr) in
        let sizeStr :=
          if String.eqb sizeStr "" then default "" (List.find size_like_long parts)
          else sizeStr in
        let rawImg := mkRawImageData page objStr idStr imgType softMask imgMask
                        width height colorSpace comp bpc interp sizeStr in
        let info := mkImageInfo idStr objStr width height sizeStr
                      (String.eqb softMask "*") (String.eqb imgMask "*") colorSpace in
        mkTableScan (inTable st) (headerFound st) (atEnd st)
                    (allImages st ++ [rawImg])
                    (map_append page info (imagesByPage st))
                    (linesProcessed st) (linesSkipped st).

(** The body of the first loop of [analyzeImages], for one line *)
Definition scanLine (st : tableScan) (line : string) : tableScan :=
  if atEnd st then st
  else
    let lineTrimmed := TrimSpace line in
    if negb (headerFound st) && header_line lineTrimmed then
      mkTableScan true true false (allImages st) (imagesByPage st)
                  (linesProcessed st) (linesSkipped st)
    else if negb (inTable st) || String.eqb lineTrimmed "" then st
    else if summary_line lineTrimmed then
      mkTableScan (inTable st) (headerFound st) true (allImages st) (imagesByPage st)
                  (linesProcessed st) (linesSkipped st)
    else if separator_line lineTrimmed then st
    else scanRow st (splitRow line).

(** The first pass of [analyzeImages] over the output of the tool *)
Definition scanTable (output : string) : tableScan :=
  foldl scanLine tableScan_start (Split output newline).

(** ** The order of a [range] over a map *)

(** Go does not fix the order in which [range] visits a map.  A
    [Scheduler] gives, for each loop of the analysis that ranges over a
    map, the order in which it visits the entries: any rearrangement of
    them. *)
Record Scheduler : Type := mkScheduler {
  order_pages : list (Z * list imageInfo) -> list (Z * list imageInfo);
  order_prefixes : list (string * list imageWithPage) -> list (string * list imageWithPage);
  order_sizes : string -> list (string * list imageWithPage) -> list (string * list imageWithPage);
  order_signatures : list (string * list Z) -> list (string * list Z);
  order_pages_perm : forall l, order_pages l ≡ₚ l;
  order_prefixes_perm : forall l, order_prefixes l ≡ₚ l;
  order_sizes_perm : forall prefix l, order_sizes prefix l ≡ₚ l;
  order_signatures_perm : forall l, order_signatures l ≡ₚ l
}.

(** ** analyze.go: grouping *)

(** [fmt.Sprintf("%dx%d_%s_%s_prefix:%s", ...)] *)
Definition signature_of (img : imageInfo) (prefix : string) : string :=
  Itoa (img_width img) +:+ "x" +:+ Itoa (img_height img) +:+ "_"
  +:+ img_colorSpace img +:+ "_" +:+ img_size img +:+ "_prefix:" +:+ prefix.

(** [fmt.Sprintf("%dx%d_%s_%s", ...)], the text that the second pass
    compares with a signature *)
Definition testSig_of (img : imageInfo) : string :=
  Itoa (img_width img) +:+ "x" +:+ Itoa (img_height img) +:+ "_"
  +:+ img_colorSpace img +:+ "_" +:+ img_size img.

Record grouping : Type := mkGrouping {
  imageSignatures : gmap string (list Z);
  imagesByPrefix : gmap string (list imageWithPage)
}.

(** The body of the grouping loop, for one image of one page *)
Definition groupImage (page : Z) (g : grouping) (img : imageInfo) : grouping :=
  let prefix := extractIdPrefix (img_id img) in
  let signature := signature_of img prefix in
  mkGrouping
    (map_append signature page (imageSignatures g))
    (if String.eqb prefix "unknown" then imagesByPrefix g
     else map_append prefix (mkImageWithPage img page) (imagesByPrefix g)).

(** [for page, imgs := range imagesByPage { for _, img := range imgs {...} }] *)
Definition groupImages (sched : Scheduler) (byPage : gmap Z (list imageInfo)) : grouping :=
  foldl (fun g entry => foldl (groupImage (fst entry)) g (snd entry))
        (mkGrouping ∅ ∅)
        (order_pages sched (map_to_list byPage)).

(** ** analyze.go: [detectFullPageUnwantedElements] *)

(** [int(float64(totalPages) * MinPageCoverageThreshold)] *)
Definition minPagesFor (totalPages : Z) : Z :=
  F64.to_int (F64.mul (F64.of_int totalPages) (F64.Fin MinPageCoverageThreshold)).

(** The grouping of the images of one prefix by rounded file size *)
Definition groupBySize (images : list imageWithPage) : gmap string (list imageWithPage) :=
  foldl (fun bySize imgPage =>
           let fileSizeKB := parseFileSizeKB (img_size (iwp_img imgPage)) in
           if F64.geb fileSizeKB (F64.Fin MinWatermarkFileSizeKB)
           then map_append (sizeKey_of fileSizeKB) imgPage bySize
           else bySize)
        ∅ images.

(** The loop over a size group: the set of the pages it covers and its
    representative image *)
Definition coverSizeGroup (sizeGroup : list imageWithPage) : gset Z * imageInfo :=
  foldl (fun acc imgPage =>
           let '(pagesCovered, representativeImg) := acc in
           ({[iwp_page imgPage]} ∪ pagesCovered,
            if String.eqb (img_id representativeImg) "" then iwp_img imgPage
            else representativeImg))
        (∅, imageInfo_zero) sizeGroup.

(** The body of the loop over the size groups of one prefix *)
Definition sizeGroupCandidates (totalPages : Z) (prefix sizeKey : string)
    (sizeGroup : list imageWithPage) : list UnwantedElementCandidate :=
  if Z.of_nat (length sizeGroup) <? totalPages then []
  else
    let '(pagesCovered, representativeImg) := coverSizeGroup sizeGroup in
    let coverageCount := Z.of_nat (size pagesCovered) in
    let coveragePercent := F64.div (F64.of_int coverageCount) (F64.of_int totalPages) in
    if F64.geb coveragePercent (F64.Fin MinPageCoverageThreshold) then
      let signature := signature_of representativeImg prefix in
      let '(confidence, coverageStr, candidateType) :=
        if coverageCount =? totalPages
        then (F64.Fin (95 # 100), "100%", "fullpage_watermark")
        else (F64.add (F64.Fin (80 # 100)) (F64.mul coveragePercent (F64.Fin (15 # 100))),
              F64.format0 (F64.mul coveragePercent (F64.of_int 100)) +:+ "%",
              "repeating_watermark") in
      let description :=
        "Unwanted element (prefix '" +:+ prefix +:+ "'): size "
        +:+ Itoa (img_width representativeImg) +:+ "x" +:+ Itoa (img_height representativeImg)
        +:+ " (" +:+ img_colorSpace representativeImg +:+ "), file size " +:+ sizeKey
        +:+ ", appears on " +:+ Itoa coverageCount +:+ "/" +:+ Itoa totalPages
        +:+ " pages (" +:+ coverageStr +:+ ")" in
      [ mkCandidate "image"
          (candidateType +:+ "_" +:+ prefix +:+ "_" +:+ sizeKey)
          0 description confidence
          (list_to_map
             [ ("signature", signature);
               ("prefix", prefix);
               ("file_size_kb", F64.format1 (parseFileSizeKB (img_size representativeImg)));
               ("page_count", Itoa coverageCount);
               ("total_pages", Itoa totalPages);
               ("coverage", coverageStr);
               ("type", candidateType);
               ("soft_mask", FormatBool (img_softMask representativeImg));
               ("image_mask", FormatBool (img_imgMask representativeImg));
               ("object", img_obj representativeImg);
               ("image_id", img_id representativeImg) ]) ]
    else [].

(** The body of the loop over the prefixes *)
Definition prefixCandidates (sched : Scheduler) (totalPages : Z) (prefix : string)
    (images : list imageWithPage) : list UnwantedElementCandidate :=
  let minImagesNeeded := minPagesFor totalPages in
  if Z.of_nat (length images) <? minImagesNeeded then []
  else
    let imagesBySize := groupBySize images in
    if Z.of_nat (size imagesBySize) =? 0 then []
    else
      flat_map (fun entry => sizeGroupCandidates totalPages prefix (fst entry) (snd entry))
               (order_sizes sched prefix (map_to_list imagesBySize)).

(** [detectFullPageUnwantedElements(imagesByPrefix, totalPages, ...)] *)
Definition detectFullPageUnwantedElements (sched : Scheduler)
    (byPrefix : gmap string (list imageWithPage)) (totalPages : Z)
    : list UnwantedElementCandidate :=
  flat_map (fun entry => prefixCandidates sched totalPages (fst entry) (snd entry))
           (order_prefixes sched (map_to_list byPrefix)).

(** ** analyze.go: the second pass *)

(** The loop of [hasContinuousRange], from the entry after [prev] *)
Fixpoint continuousScan (prev : Z) (rest : list Z) (maxContinuous currentContinuous : Z) : Z :=
  match rest with
  | [] => maxContinuous
  | page :: rest' =>
      if page =? prev + 1 then
        let currentContinuous := currentContinuous + 1 in
        continuousScan page rest'
          (if maxContinuous <? currentContinuous then currentContinuous else maxContinuous)
          currentContinuous
      else continuousScan page rest' maxContinuous 1
  end.

(** [hasContinuousRange(pages, minLength)] *)
Definition hasContinuousRange (pages : list Z) (minLength : Z) : bool :=
  if Z.of_nat (length pages) <? minLength then false
  else
    let maxContinuous :=
      match pages with
      | [] => 0
      | first :: rest => continuousScan first rest 0 1
      end in
    minLength <=? maxContinuous.

(** [calculateRepeatingUnwantedElementConfidence(img, pageCount, totalPages)] *)
Definition calculateRepeatingUnwantedElementConfidence (img : imageInfo)
    (pageCount totalPages : Z) : F64.t :=
  let confidence := F64.Fin (4 # 10) in
  let pageRatio := F64.div (F64.of_int pageCount) (F64.of_int totalPages) in
  let confidence := F64.add confidence (F64.mul pageRatio (F64.Fin (6 # 10))) in
  let confidence :=
    if (300 <? img_width img) || (400 <? img_height img)
    then F64.add confidence (F64.Fin (15 # 100)) else confidence in
  let confidence :=
    if (500 <? img_width img) || (700 <? img_height img)
    then F64.add confidence (F64.Fin (15 # 100)) else confidence in
  let confidence :=
    if img_softMask img then F64.add confidence (F64.Fin (5 # 100)) else confidence in
  if F64.gtb confidence (F64.Fin 1) then F64.Fin 1 else confidence.

(** [calculateImageConfidence(width, height, page, totalPages)] *)
Definition calculateImageConfidence (width height page totalPages : Z) : F64.t :=
  let confidence := F64.Fin BaseConfidence in
  let confidence :=
    if (width <? 200) || (height <? 200)
    then F64.add confidence (F64.Fin SizeBasedConfidenceBonus) else confidence in
  let confidence :=
    if (page =? 1) || (page =? totalPages)
    then F64.add confidence (F64.Fin PositionBasedConfidenceBonus) else confidence in
  if F64.gtb confidence (F64.Fin 1) then F64.Fin 1 else confidence.

(** The body of the loop over the signatures, for a signature that the
    first pass has not handled.  [pages] is never empty: a key of
    [imageSignatures] is created by an [append]. *)
Definition repeatingCandidates (byPage : gmap Z (list imageInfo)) (totalPages : Z)
    (signature : string) (pages : list Z) : list UnwantedElementCandidate :=
  let maxPages := totalPages in
  let minPages := minPagesFor totalPages in
  if (minPages <=? Z.of_nat (length pages)) || hasContinuousRange pages minPages then
    match pages with
    | [] => []
    | firstPage :: _ =>
        let firstImg :=
          default imageInfo_zero
            (List.find (fun img => String.eqb (testSig_of img) signature)
                       (map_get byPage firstPage)) in
        let pageCount := Z.of_nat (length pages) in
        let confidence :=
          calculateRepeatingUnwantedElementConfidence firstImg pageCount maxPages in
        let prefix := extractIdPrefix (img_id firstImg) in
        let description :=
          if negb (String.eqb prefix "unknown") && negb (String.eqb prefix "") then
            "Repeating unwanted element image (prefix '" +:+ prefix +:+ "'): size "
            +:+ Itoa (img_width firstImg) +:+ "x" +:+ Itoa (img_height firstImg)
            +:+ " (" +:+ img_colorSpace firstImg +:+ "), file size " +:+ img_size firstImg
            +:+ ", appears on " +:+ Itoa pageCount +:+ "/" +:+ Itoa maxPages +:+ " pages"
          else
            "Repeating unwanted element image: size "
            +:+ Itoa (img_width firstImg) +:+ "x" +:+ Itoa (img_height firstImg)
            +:+ " (" +:+ img_colorSpace firstImg +:+ "), appears on "
            +:+ Itoa pageCount +:+ "/" +:+ Itoa maxPages +:+ " pages ("
            +:+ img_size firstImg +:+ ")" in
        [ mkCandidate "image"
            ("repeating_unwanted_element_" +:+ slice_to 8 signature)
            0 description confidence
            (list_to_map
               [ ("signature", signature);
                 ("page_count", Itoa pageCount);
                 ("max_pages", Itoa maxPages);
                 ("prefix", prefix);
                 ("soft_mask", FormatBool (img_softMask firstImg));
                 ("image_mask", FormatBool (img_imgMask firstImg));
                 ("type", "repeating_unwanted_element");
                 ("object", img_obj firstImg);
                 ("image_id", img_id firstImg) ]) ]
    end
  else [].

(** [handledSignatures]: the signatures of the candidates of the first pass *)
Definition handledSignatures (fullPageCandidates : list UnwantedElementCandidate) : gset string :=
  foldl (fun handled candidate =>
           match Metadata candidate !! "signature" with
           | Some sig => {[sig]} ∪ handled
           | None => handled
           end)
        ∅ fullPageCandidates.

(** The second pass of [analyzeImages]: the loop over [imageSignatures] *)
Definition detectRepeating (sched : Scheduler) (byPage : gmap Z (list imageInfo))
    (totalPages : Z) (handled : gset string) (signatures : gmap string (list Z))
    : list UnwantedElementCandidate :=
  flat_map (fun entry =>
              if decide (fst entry ∈ handled) then []
              else repeatingCandidates byPage totalPages (fst entry) (snd entry))
           (order_signatures sched (map_to_list signatures)).

(** The candidates that [analyzeImages] computes from the text [output]
    of [pdfcpu images list] *)
Definition imageCandidates (sched : Scheduler) (totalPages : Z) (output : string)
    : list UnwantedElementCandidate :=
  let byPage := imagesByPage (scanTable output) in
  let g := groupImages sched byPage in
  let fullPageCandidates :=
    detectFullPageUnwantedElements sched (imagesByPrefix g) totalPages in
  fullPageCandidates
  ++ detectRepeating sched byPage totalPages
       (handledSignatures fullPageCandidates) (imageSignatures g).

(** A scheduler that visits every map in the order of [map_to_list], and
    one that visits every map in the opposite order *)
Definition forward : Scheduler :=
  mkScheduler (fun l => l) (fun l => l) (fun _ l => l) (fun l => l)
    (fun l => Permutation_refl l) (fun l => Permutation_refl l)
    (fun _ l => Permutation_refl l) (fun l => Permutation_refl l).

Definition backward : Scheduler :=
  mkScheduler (@rev _) (@rev _) (fun _ => @rev _) (@rev _)
    (fun l => Permutation_sym (Permutation_rev l))
    (fun l => Permutation_sym (Permutation_rev l))
    (fun _ l => Permutation_sym (Permutation_rev l))
    (fun l => Permutation_sym (Permutation_rev l)).

(** ** The outside world *)

(** What the package does to the outside: running a command with a
    timeout, writing to the process log, creating the blank replacement
    image and removing a file.  The debug log of the analysis is not part
    of the model. *)
Inductive event : Type :=
| Exec (timeout : Z) (command : list string)
| Log (msg : string)
| CreateBlankImage (dir : string)
| RemoveFile (path : string).

(** The answers of the outside, each as a function of what has happened
    so far: the combined output and the error of a command
    ([execCommandWithTimeout]), the path of the blank image or the error
    of [createBlankImage]; and the functions of [path/filepath]. *)
Record World : Type := mkWorld {
  run : list event -> Z -> list string -> string * option string;
  blank_image : list event -> string -> string + string;
  filepath_Dir : string -> string;
  filepath_Base : string -> string;
  filepath_Join : string -> string -> string
}.

Definition Second : Z := 1000000000.
Definition DefaultCLITimeout : Z := 30 * Second.
Definition AnalysisTimeout : Z := 60 * Second.

(** A computation that acts on the outside: from the events so far to a
    result and the events after it. *)
Definition action (A : Type) : Type := list event -> A * list event.

Definition ret {A : Type} (a : A) : action A := fun h => (a, h).

Definition bind {A B : Type} (m : action A) (k : A -> action B) : action B :=
  fun h => let '(a, h') := m h in k a h'.

Notation "x <- m ;; k" := (bind m (fun x => k))
  (at level 100, m at next level, right associativity).
Notation "m ;;; k" := (bind m (fun _ => k))
  (at level 100, right associativity).

Definition execCommandWithTimeout (w : World) (timeout : Z) (command : list string)
    : action (string * option string) :=
  fun h => (run w h timeout command, h ++ [Exec timeout command]).

Definition logPrintf (msg : string) : action unit :=
  fun h => (tt, h ++ [Log msg]).

Definition osRemove (path : string) : action unit :=
  fun h => (tt, h ++ [RemoveFile path]).

Definition createBlankImage (w : World) (dir : string) : action (string + string) :=
  fun h => (blank_image w h dir, h ++ [CreateBlankImage dir]).

(** The events of a computation started with nothing before it *)
Definition events_of {A : Type} (m : action A) : list event := snd (m []).
Definition result_of {A : Type} (m : action A) : A := fst (m []).

(** ** analyze.go: the page count *)

(** The five patterns of [getPageCount] are sequences of a literal text,
    [\s*] or [\s+], and end with the group [(\d+)]. *)
Inductive pattern_item : Type :=
| Lit (text : string)
| Spaces (atLeast : nat).

Fixpoint digit_run (s : string) : nat :=
  match s with
  | EmptyString => O
  | String c s' => if is_digit c then S (digit_run s') else O
  end.

(** A match of the items that starts at the first byte of [s], followed
    by [(\d+)]: the digits of the group. *)
Fixpoint match_here (items : list pattern_item) (s : string) : option string :=
  match items with
  | [] => match digit_run s with
          | O => None
          | n => Some (slice_to n s)
          end
  | Lit text :: items' =>
      if HasPrefix s text then match_here items' (slice_from (String.length text) s) else None
  | Spaces atLeast :: items' =>
      let r := space_run s in
      if (atLeast <=? r)%nat then match_here items' (slice_from r s) else None
  end.

(** [re.FindStringSubmatch(s)[1]] of the leftmost match *)
Fixpoint find_submatch (items : list pattern_item) (s : string) : option string :=
  match match_here items s with
  | Some digits => Some digits
  | None =>
      match s with
      | EmptyString => None
      | String _ s' => find_submatch items s'
      end
  end.

Definition pageCountPatterns : list (list pattern_item) :=
  [ [Lit "Page count:"; Spaces 1];
    [Lit "Pages:"; Spaces 1];
    [Lit "pages"; Spaces 0; Lit "="; Spaces 0];
    [Lit "No. of pages:"; Spaces 1];
    [Lit "Pages: "] ].

(** The loop over the patterns *)
Fixpoint firstPageCount (patterns : list (list pattern_item)) (outputStr : string) : option Z :=
  match patterns with
  | [] => None
  | pattern :: rest =>
      match find_submatch pattern outputStr with
      | Some digits =>
          let '(pageCount, ok) := Atoi digits in
          if ok then Some pageCount else firstPageCount rest outputStr
      | None => firstPageCount rest outputStr
      end
  end.

(** [getPageCount(filename)] *)
Definition getPageCount (w : World) (filename : string) : action (outcome Z) :=
  r <- execCommandWithTimeout w DefaultCLITimeout ["pdfcpu"; "info"; filename] ;;
  match snd r with
  | Some err => ret (Fails ("pdfcpu info failed: " +:+ err))
  | None =>
      match firstPageCount pageCountPatterns (fst r) with
      | Some pageCount => ret (Returns pageCount)
      | None => ret (Fails ("could not determine page count from output: " +:+ fst r))
      end
  end.

(** [analyzeImages(filename, totalPages, debugLog)] *)
Definition analyzeImages (w : World) (sched : Scheduler) (filename : string) (totalPages : Z)
    : action (outcome (list UnwantedElementCandidate)) :=
  r <- execCommandWithTimeout w AnalysisTimeout ["pdfcpu"; "images"; "list"; filename] ;;
  match snd r with
  | Some err => ret (Fails ("pdfcpu images list failed: " +:+ err))
  | None => ret (Returns (imageCandidates sched totalPages (fst r)))
  end.

(** [analyzeContent(filename, totalPages)] *)
Definition analyzeContent (filename : string) (totalPages : Z)
    : outcome (list UnwantedElementCandidate) :=
  Returns [].

(** The end of [AnalyzeUnwantedElements]: the overall confidence and the
    recommendations *)
Definition summarize (pages : Z) (imageCands textCands : list UnwantedElementCandidate)
    : UnwantedElementsAnalysis :=
  let totalCandidates := Z.of_nat (length imageCands) + Z.of_nat (length textCands) in
  let overall :=
    if 0 <? totalCandidates
    then (if pages <? totalCandidates then F64.Fin (8 # 10) else F64.Fin (5 # 10))
    else F64.Fin 0 in
  let recs :=
    (if 0 <? Z.of_nat (length imageCands)
     then ["Images detected that may be unwanted elements - review and select for removal"]
     else [])
    ++ (if 0 <? Z.of_nat (length textCands)
        then ["Text elements detected that may be unwanted elements - review and select for removal"]
        else [])
    ++ (if (Z.of_nat (length imageCands) =? 0) && (Z.of_nat (length textCands) =? 0)
        then ["No obvious unwanted element candidates found - the PDF may not contain unwanted elements"]
        else []) in
  mkAnalysis pages imageCands textCands overall recs.

(** [AnalyzeUnwantedElements(filename)] *)
Definition AnalyzeUnwantedElements (w : World) (sched : Scheduler) (filename : string)
    : action (outcome UnwantedElementsAnalysis) :=
  pc <- getPageCount w filename ;;
  match pc with
  | Fails err => ret (Fails ("failed to get page count: " +:+ err))
  | Diverges => ret Diverges
  | Returns pages =>
      ic <- analyzeImages w sched filename pages ;;
      match ic with
      | Fails err => ret (Fails ("failed to analyze images: " +:+ err))
      | Diverges => ret Diverges
      | Returns imageCands =>
          match analyzeContent filename pages with
          | Fails err => ret (Fails ("failed to analyze content: " +:+ err))
          | Diverges => ret Diverges
          | Returns textCands => ret (Returns (summarize pages imageCands textCands))
          end
      end
  end.

(** ** The removal: the occurrences of the images *)

(** [imageOccurrence] *)
Record imageOccurrence : Type := mkOccurrence {
  occ_page : Z;
  occ_obj : string;
  occ_id : string
}.

(** [imageToRemove] *)
Record imageToRemove : Type := mkImageToRemove {
  objNr : string;
  pageNr : Z;
  rem_id : string
}.

(** The variables of the loop of [removeImagesByIDs] that reads the
    listing *)
Record occurrenceScan : Type := mkOccurrenceScan {
  os_inTable : bool;
  os_headerFound : bool;
  imageOccurrences : gmap string (list imageOccurrence);
  allImageOccurrences : list imageOccurrence
}.

(** The body of that loop, for one line *)
Definition scanOccurrenceLine (st : occurrenceScan) (line : string) : occurrenceScan :=
  let lineTrimmed := TrimSpace line in
  if String.eqb lineTrimmed "" then st
  else if negb (os_headerFound st) && (Contains lineTrimmed "Page" || Contains lineTrimmed "ID")
  then mkOccurrenceScan true true (imageOccurrences st) (allImageOccurrences st)
  else if negb (os_inTable st) then st
  else
    let parts := Fields lineTrimmed in
    if Z.of_nat (length parts) <? 3 then st
    else
      let pageStr := nth 0 parts "" in
      let objStr := nth 1 parts "" in
      let idStr := nth 2 parts "" in
      let '(page, ok) := Atoi pageStr in
      if negb ok || (page =? 0) || String.eqb idStr "" then st
      else
        let occ := mkOccurrence page objStr idStr in
        mkOccurrenceScan (os_inTable st) (os_headerFound st)
          (map_append idStr occ (imageOccurrences st))
          (allImageOccurrences st ++ [occ]).

Definition scanOccurrences (output : string) : occurrenceScan :=
  foldl scanOccurrenceLine (mkOccurrenceScan false false ∅ []) (Split output newline).

(** The local function [extractPrefix] of [removeImagesByIDs] *)
Definition extractPrefix (id : string) : string :=
  let idx := Index id "-" in
  if 0 <? idx then slice_to (Z.to_nat (idx + 1)) id
  else
    let idx := Index id "_" in
    if 0 <? idx then slice_to (Z.to_nat (idx + 1)) id
    else "".

(** ** The removal: from a candidate to its occurrences *)

(** [v, ok := m[key]; ok && v != ""], with [""] otherwise *)
Definition metadata_text (candidate : UnwantedElementCandidate) (key : string) : string :=
  default "" (Metadata candidate !! key).

(** Strategy 2: the test of one occurrence against the stored prefix *)
Definition matchesPrefix (prefix : string) (occ : imageOccurrence) : bool :=
  HasPrefix (occ_id occ) prefix
  || HasPrefix (occ_id occ) (prefix +:+ "-")
  || HasPrefix (occ_id occ) (prefix +:+ "_")
  || String.eqb (extractPrefix (occ_id occ)) prefix.

(** Strategy 3: the prefix written in the signature, after its last
    ["prefix:"] *)
Definition signaturePrefix (signature : string) : string :=
  let prefixIdx := LastIndex signature "prefix:" in
  if 0 <=? prefixIdx then
    let sigPrefix := TrimSpace (slice_from (Z.to_nat (prefixIdx + 7)) signature) in
    let spaceIdx := IndexAny sigPrefix (" " +:+ tab +:+ newline) in
    if 0 <? spaceIdx then slice_to (Z.to_nat spaceIdx) sigPrefix else sigPrefix
  else "".

(** Strategy 3: the test of one occurrence against the prefix, whatever
    the case of its letters *)
Definition matchesAnyCase (prefix : string) (occ : imageOccurrence) : bool :=
  let prefixLower := ToLower prefix in
  let prefixUpper := ToUpper prefix in
  let prefixTitle := ToUpper (slice_to 1 prefix) +:+ ToLower (slice_from 1 prefix) in
  let occIDLower := ToLower (occ_id occ) in
  let occPrefixLower := ToLower (extractPrefix (occ_id occ)) in
  HasPrefix occIDLower prefixLower
  || (HasPrefix occIDLower (prefixLower +:+ "-") || HasPrefix occIDLower (prefixLower +:+ "_"))
  || (String.eqb occPrefixLower prefixLower || HasPrefix occPrefixLower prefixLower)
  || (negb (String.eqb prefixTitle "")
      && (HasPrefix (occ_id occ) prefixTitle
          || HasPrefix (occ_id occ) (prefixTitle +:+ "-")
          || HasPrefix (occ_id occ) (prefixTitle +:+ "_")))
  || (negb (String.eqb prefixUpper "")
      && (HasPrefix (occ_id occ) prefixUpper
          || HasPrefix (occ_id occ) (prefixUpper +:+ "-")
          || HasPrefix (occ_id occ) (prefixUpper +:+ "_"))).

(** The four strategies, in the order of the source *)
Inductive strategy : Type :=
| ExactID
| PrefixMatch
| SignaturePrefix
| SingleOccurrence.

(** What the body of the loop over the selected candidates computes for
    one candidate: the occurrences found, the strategies whose search was
    run, and the messages written to the log. *)
Record resolution : Type := mkResolution {
  foundOccurrences : list imageOccurrence;
  applied : list strategy;
  messages : list string
}.

Definition isEmpty {A : Type} (l : list A) : bool := Z.of_nat (length l) =? 0.

(** Strategy 1: the occurrences whose identifier is the stored one *)
Definition exactID (occurrences : gmap string (list imageOccurrence))
    (candidate : UnwantedElementCandidate) : resolution :=
  let imgID := metadata_text candidate "image_id" in
  if negb (String.eqb imgID "") then
    match occurrences !! imgID with
    | Some occs =>
        mkResolution occs [ExactID]
          ["Found " +:+ Itoa (Z.of_nat (length occs)) +:+ " occurrences of exact image ID "
           +:+ imgID +:+ " for candidate " +:+ ID candidate]
    | None => mkResolution [] [ExactID] []
    end
  else mkResolution [] [] [].

(** Strategy 2: the occurrences that match the stored prefix *)
Definition prefixMatch (allOccurrences : list imageOccurrence)
    (candidate : UnwantedElementCandidate) (r : resolution) : resolution :=
  let prefix := metadata_text candidate "prefix" in
  if isEmpty (foundOccurrences r) && negb (String.eqb prefix "") then
    let found := List.filter (matchesPrefix prefix) allOccurrences in
    mkResolution found (applied r ++ [PrefixMatch])
      (messages r
       ++ if negb (isEmpty found)
          then ["Found " +:+ Itoa (Z.of_nat (length found)) +:+ " occurrences by prefix '"
                +:+ prefix +:+ "' for candidate " +:+ ID candidate]
          else [])
  else r.

(** Strategy 3: the occurrences that match the prefix of the signature;
    the second component is the variable [prefix] after it. *)
Definition signatureMatch (allOccurrences : list imageOccurrence)
    (candidate : UnwantedElementCandidate) (r : resolution) : resolution * string :=
  let prefix := metadata_text candidate "prefix" in
  if isEmpty (foundOccurrences r) then
    let signature := metadata_text candidate "signature" in
    if negb (String.eqb signature "") then
      let sigPrefix := signaturePrefix signature in
      let prefix3 := if negb (String.eqb sigPrefix "") then sigPrefix else prefix in
      let found :=
        if negb (String.eqb prefix3 "") && negb (String.eqb prefix3 "unknown")
        then List.filter (matchesAnyCase prefix3) allOccurrences
        else [] in
      (mkResolution found (applied r ++ [SignaturePrefix])
         (messages r
          ++ ["Attempting signature-based matching for candidate " +:+ ID candidate
              +:+ " (signature: " +:+ signature +:+ ", prefix: " +:+ prefix +:+ ")"]
          ++ (if negb (String.eqb sigPrefix "")
              then ["Extracted prefix '" +:+ sigPrefix +:+ "' from signature for candidate "
                    +:+ ID candidate]
              else [])
          ++ (if negb (isEmpty found)
              then ["Found " +:+ Itoa (Z.of_nat (length found))
                    +:+ " occurrences by signature-derived prefix '" +:+ prefix3
                    +:+ "' (case-insensitive) for candidate " +:+ ID candidate]
              else [])),
       prefix3)
    else (mkResolution [] (applied r ++ [SignaturePrefix]) (messages r), prefix)
  else (r, prefix).

(** Strategy 4: the one occurrence of the stored object and page *)
Definition singleOccurrence (allOccurrences : list imageOccurrence)
    (candidate : UnwantedElementCandidate) (r : resolution) : resolution :=
  let imgID := metadata_text candidate "image_id" in
  if isEmpty (foundOccurrences r) then
    let page := Page candidate in
    let objNrText := metadata_text candidate "object" in
    let found :=
      if negb (String.eqb objNrText "") && (0 <? page) then
        if negb (String.eqb imgID "") then
          option_list
            (List.find (fun occ => String.eqb (occ_id occ) imgID && (occ_page occ =? page))
                       allOccurrences)
        else
          option_list
            (List.find (fun occ => String.eqb (occ_obj occ) objNrText && (occ_page occ =? page))
                       allOccurrences)
      else [] in
    mkResolution found (applied r ++ [SingleOccurrence]) (messages r)
  else r.

(** The end of the body: the last message *)
Definition conclude (candidate : UnwantedElementCandidate) (r : resolution) (prefix : string)
    : resolution :=
  let imgID := metadata_text candidate "image_id" in
  mkResolution (foundOccurrences r) (applied r)
    (messages r
     ++ if negb (isEmpty (foundOccurrences r))
        then ["Total occurrences to remove for candidate " +:+ ID candidate +:+ ": "
              +:+ Itoa (Z.of_nat (length (foundOccurrences r)))]
        else ["Warning: Cannot find any occurrences for candidate " +:+ ID candidate
              +:+ " (image_id: " +:+ imgID +:+ ", prefix: " +:+ prefix +:+ ")"]).

(** The body of the loop over the candidates, for a selected candidate:
    each strategy runs when the ones before it have found nothing. *)
Definition resolveCandidate (occurrences : gmap string (list imageOccurrence))
    (allOccurrences : list imageOccurrence) (candidate : UnwantedElementCandidate)
    : resolution :=
  let r1 := exactID occurrences candidate in
  let r2 := prefixMatch allOccurrences candidate r1 in
  let r3 := signatureMatch allOccurrences candidate r2 in
  let r4 := singleOccurrence allOccurrences candidate (fst r3) in
  conclude candidate r4 (snd r3).

Definition toRemove (occ : imageOccurrence) : imageToRemove :=
  mkImageToRemove (occ_obj occ) (occ_page occ) (occ_id occ).

(** [selectedIDs]: the set of the trimmed identifiers *)
Definition selectedSet (elementIDs : list string) : gset string :=
  foldl (fun selected id => {[TrimSpace id]} ∪ selected) ∅ elementIDs.

(** The resolutions of the selected candidates, in the order of the
    analysis *)
Definition resolveSelected (analysis : UnwantedElementsAnalysis) (elementIDs : list string)
    (scan : occurrenceScan) : list resolution :=
  map (resolveCandidate (imageOccurrences scan) (allImageOccurrences scan))
      (filter (fun candidate => ID candidate ∈ selectedSet elementIDs)
              (ImageCandidates analysis)).

(** [imagesToRemove] after the loop over the candidates *)
Definition collectImages (resolutions : list resolution) : list imageToRemove :=
  flat_map (fun r => map toRemove (foundOccurrences r)) resolutions.

(** ** The removal: the chain of commands *)

(** [for _, tf := range tempFiles { os.Remove(tf) }] *)
Fixpoint removeAll (paths : list string) : action unit :=
  match paths with
  | [] => ret tt
  | path :: rest => osRemove path ;;; removeAll rest
  end.

Definition updateFailure (img : imageToRemove) (err output : string) : string :=
  let head :=
    "failed to remove image (obj:" +:+ objNr img +:+ ", page:" +:+ Itoa (pageNr img)
    +:+ ", id:" +:+ rem_id img +:+ "): " +:+ err in
  if negb (String.eqb output "") then head +:+ newline +:+ "Output: " +:+ output else head.

(** The loop that replaces the images one after the other.  [i] is the
    index of the head of [images], [n] the length of [imagesToRemove];
    the result is the error, if any. *)
Fixpoint removeChain (w : World) (outFile blankImagePath : string) (n : Z)
    (images : list imageToRemove) (i : Z) (currentFile : string) (tempFiles : list string)
    : action (option string) :=
  match images with
  | [] =>
      removeAll (filter (fun tf => tf ≠ outFile) tempFiles) ;;;
      ret None
  | img :: rest =>
      let tempFile :=
        if i =? n - 1 then outFile
        else filepath_Join w (filepath_Dir w outFile)
               ("temp_" +:+ Itoa i +:+ "_" +:+ filepath_Base w outFile) in
      let tempFiles := if i =? n - 1 then tempFiles else tempFiles ++ [tempFile] in
      let update (selector : string) : action (option string) :=
        r <- execCommandWithTimeout w DefaultCLITimeout
               ["pdfcpu"; "images"; "update"; currentFile; blankImagePath; tempFile; selector] ;;
        match snd r with
        | Some err =>
            removeAll tempFiles ;;;
            ret (Some (updateFailure img err (fst r)))
        | None =>
            removeChain w outFile blankImagePath n rest (i + 1)
              (if i <? n - 1 then tempFile else currentFile) tempFiles
        end in
      if negb (String.eqb (objNr img) "") then update (objNr img)
      else if (0 <? pageNr img) && negb (String.eqb (rem_id img) "")
      then update (Itoa (pageNr img) +:+ " " +:+ rem_id img)
      else
        removeAll tempFiles ;;;
        ret (Some "cannot identify image for removal: missing object number and page/ID")
  end.

Definition noMatchError : string :=
  "no matching images found for selected IDs. The images may be repeating watermarks that appear on multiple pages".

Fixpoint logAll (msgs : list string) : action unit :=
  match msgs with
  | [] => ret tt
  | msg :: rest => logPrintf msg ;;; logAll rest
  end.

(** [removeImagesByIDs(inFile, outFile, elementIDs)]; the result is the
    error, [None] for [nil]. *)
Definition removeImagesByIDs (w : World) (sched : Scheduler) (inFile outFile : string)
    (elementIDs : list string) : action (outcome (option string)) :=
  a <- AnalyzeUnwantedElements w sched inFile ;;
  match a with
  | Diverges => ret Diverges
  | Fails err => ret (Returns (Some ("failed to analyze PDF to find images: " +:+ err)))
  | Returns analysis =>
      r <- execCommandWithTimeout w DefaultCLITimeout ["pdfcpu"; "images"; "list"; inFile] ;;
      match snd r with
      | Some err => ret (Returns (Some ("failed to list images: " +:+ err)))
      | None =>
          let resolutions := resolveSelected analysis elementIDs (scanOccurrences (fst r)) in
          logAll (flat_map messages resolutions) ;;;
          let imagesToRemove := collectImages resolutions in
          if isEmpty imagesToRemove then ret (Returns (Some noMatchError))
          else
            b <- createBlankImage w (filepath_Dir w outFile) ;;
            match b with
            | inr err => ret (Returns (Some ("failed to create blank image: " +:+ err)))
            | inl blankImagePath =>
                e <- removeChain w outFile blankImagePath (Z.of_nat (length imagesToRemove))
                       imagesToRemove 0 inFile [] ;;
                osRemove blankImagePath ;;;
                ret (Returns e)
            end
      end
  end.

Definition embeddedContentError : string :=
  "the detected images are embedded as regular content in the PDF, not as pdfcpu watermarks or stamps. pdfcpu CLI can only remove watermarks/stamps that were added using pdfcpu's watermark or stamp commands. To remove regular embedded images, you would need to use a PDF library that can manipulate the PDF structure directly, or edit the PDF manually in a PDF editor".

(** The case ["watermark"] of [RemoveElementsByIDs] *)
Definition removeWatermarks (w : World) (inFile outFile : string) : action (option string) :=
  r <- execCommandWithTimeout w DefaultCLITimeout
         ["pdfcpu"; "watermark"; "remove"; "--"; inFile; outFile] ;;
  let outputStr := fst r in
  match snd r with
  | Some err =>
      if Contains outputStr "no watermarks found" || Contains outputStr "no stamps found" then
        logPrintf "No pdfcpu watermarks found, trying stamp remove as alternative..." ;;;
        s <- execCommandWithTimeout w DefaultCLITimeout
               ["pdfcpu"; "stamp"; "remove"; "--"; inFile; outFile] ;;
        let stampOutputStr := fst s in
        match snd s with
        | None =>
            (if negb (String.eqb stampOutputStr "")
             then logPrintf ("pdfcpu stamp remove output: " +:+ stampOutputStr)
             else ret tt) ;;;
            ret None
        | Some stampErr =>
            if Contains stampOutputStr "no stamps found" then ret (Some embeddedContentError)
            else if negb (String.eqb stampOutputStr "")
            then ret (Some ("pdfcpu stamp remove also failed: " +:+ stampErr +:+ newline
                            +:+ "Output: " +:+ stampOutputStr))
            else ret (Some ("pdfcpu stamp remove also failed: " +:+ stampErr))
        end
      else if negb (String.eqb outputStr "")
      then ret (Some ("pdfcpu watermark remove failed: " +:+ err +:+ newline
                      +:+ "Output: " +:+ outputStr))
      else ret (Some ("pdfcpu watermark remove failed: " +:+ err))
  | None =>
      (if negb (String.eqb outputStr "")
       then logPrintf ("pdfcpu watermark remove output: " +:+ outputStr)
       else ret tt) ;;;
      ret None
  end.

(** [RemoveElementsByIDs(inFile, outFile, elementType, elementIDs)].
    [elementIDs] is [None] for the [nil] slice. *)
Definition RemoveElementsByIDs (w : World) (sched : Scheduler) (inFile outFile : string)
    (elementType : string) (elementIDs : option (list string))
    : action (outcome (option string)) :=
  if negb (String.eqb elementType "watermark") && negb (String.eqb elementType "image")
  then ret (Returns (Some ("invalid element type: " +:+ elementType
                           +:+ " (supported: watermark, image)")))
  else if String.eqb elementType "watermark" then
    e <- removeWatermarks w inFile outFile ;;
    ret (Returns e)
  else if String.eqb elementType "image" then
    match elementIDs with
    | None | Some [] =>
        ret (Returns (Some "image removal requires element IDs to identify which images to remove"))
    | Some ids => removeImagesByIDs w sched inFile outFile ids
    end
  else ret (Returns (Some ("unsupported element type: " +:+ elementType))).

(** [RemoveElementFromPDF(inFile, outFile, elementType)] *)
Definition RemoveElementFromPDF (w : World) (sched : Scheduler) (inFile outFile : string)
    (elementType : string) : action (outcome (option string)) :=
  RemoveElementsByIDs w sched inFile outFile elementType None.

(** ** The wording of the specification, for comparison *)

(** "the text before the first [-] or [_] delimiter when such a delimiter
    follows a non-empty first segment" *)
Definition delimited_segment (id : string) : option string :=
  let idx := IndexAny id "-_" in
  if 0 <? idx then Some (slice_to (Z.to_nat idx) id) else None.

(** The four styles of splitting a row, in the order of the source *)
Inductive rowStyle : Type :=
| BoxColumns
| PipeColumns
| TabColumns
| SpaceRuns.

Definition split_by (style : rowStyle) (line : string) : list string :=
  match style with
  | BoxColumns => Split line box
  | PipeColumns => Split line "|"
  | TabColumns => Split line tab
  | SpaceRuns => split_space_runs line
  end.

(** The non-empty trimmed fields that a style yields for a row *)
Definition fields_by (style : rowStyle) (line : string) : list string :=
  List.filter (fun p => negb (String.eqb p "")) (map TrimSpace (split_by style line)).

(** "the first separator style that actually yields at least 3 non-empty
    fields wins for that line" *)
Definition first_yielding (line : string) : option rowStyle :=
  List.find (fun style => 3 <=? Z.of_nat (length (fields_by style line)))
            [BoxColumns; PipeColumns; TabColumns; SpaceRuns].

(** The first style whose separator occurs in the row; the runs of
    spaces when none of the three separators occurs. *)
Definition present_style (line : string) : rowStyle :=
  if Contains line box then BoxColumns
  else if Contains line "|" then PipeColumns
  else if Contains line tab then TabColumns
  else SpaceRuns.

(** A line that the first loop of [analyzeImages] reads as a row of the
    table: the header has been seen, the table has not ended, and the
    line is not blank, not a summary and not a separator. *)
Definition table_row_line (st : tableScan) (line : string) : Prop :=
  atEnd st = false /\ headerFound st = true /\ inTable st = true
  /\ TrimSpace line <> "" /\ summary_line (TrimSpace line) = false
  /\ separator_line (TrimSpace line) = false.

(** The identifiers that the first pass can give to the candidate of the
    size group [sizeKey] of [prefix] *)
Definition is_group_ID (prefix sizeKey id : string) : Prop :=
  id = "fullpage_watermark" +:+ "_" +:+ prefix +:+ "_" +:+ sizeKey
  \/ id = "repeating_watermark" +:+ "_" +:+ prefix +:+ "_" +:+ sizeKey.

#[global] Instance is_group_ID_dec (prefix sizeKey id : string) :
  Decision (is_group_ID prefix sizeKey id).
Proof. unfold is_group_ID. apply _. Defined.

(** ** Listings and worlds for the examples *)

(** A listing whose columns are separated by a pipe, and one whose
    columns are separated by two spaces; the second one is read in the
    same way by the analysis and by the removal. *)
Definition table_header : string :=
  "Page | Obj | Id | Type | SoftMask | ImgMask | Width | Height | ColorSpace | Comp | bpc | Interp | Size".

Definition table_row (page obj id width height size : string) : string :=
  page +:+ " | " +:+ obj +:+ " | " +:+ id +:+ " | image | - | - | " +:+ width +:+ " | "
  +:+ height +:+ " | DeviceRGB | 3 | 8 | f | " +:+ size.

Definition spaced_header : string :=
  "Page  Obj  Id  Type  SoftMask  ImgMask  Width  Height  ColorSpace  Comp  bpc  Interp  Size".

Definition spaced_row (page obj id width height size : string) : string :=
  page +:+ "  " +:+ obj +:+ "  " +:+ id +:+ "  image  -  -  " +:+ width +:+ "  "
  +:+ height +:+ "  DeviceRGB  3  8  f  " +:+ size.

Definition lines (ls : list string) : string := String.concat newline ls.

Definition command_is (command verb : list string) : bool :=
  bool_decide (firstn (length verb) command = verb).

(** A world in which [pdfcpu info] and [pdfcpu images list] print the
    given texts, [pdfcpu images update] succeeds or fails as [update]
    says, and every other command succeeds without output. *)
Definition scripted (info listing : string) (update : option string) : World :=
  mkWorld
    (fun _ _ command =>
       if command_is command ["pdfcpu"; "info"] then (info, None)
       else if command_is command ["pdfcpu"; "images"; "list"] then (listing, None)
       else if command_is command ["pdfcpu"; "images"; "update"] then ("", update)
       else ("", None))
    (fun _ dir => inl (dir +:+ "/blank_1x1.png"))
    (fun _ => "/tmp")
    (fun _ => "out.pdf")
    (fun dir name => dir +:+ "/" +:+ name).

Definition no_candidate : UnwantedElementCandidate :=
  mkCandidate "" "" 0 "" (F64.Fin 0) ∅.

(** Two pages, each with an image whose identifier holds a space: the
    analysis reads the identifiers ["Image 1"] and ["Image 2"], the
    removal reads ["Image"] twice. *)
Definition spaced_ids_listing : string :=
  lines [spaced_header;
         spaced_row "1" "11" "Image 1" "100" "100" "35.2KB";
         spaced_row "2" "12" "Image 2" "100" "100" "35.2KB"].

(** ** Auxiliary notions for the statements *)

(** The images of the document in the order in which the grouping loop
    of [analyzeImages] visits them *)
Definition scheduled_images (sched : Scheduler) (byPage : gmap Z (list imageInfo))
    : list imageWithPage :=
  flat_map (fun entry => map (fun img => mkImageWithPage img (fst entry)) (snd entry))
           (order_pages sched (map_to_list byPage)).

(** The key under which the grouping loop files an image in the prefix
    index, if it files it *)
Definition prefix_key (imgPage : imageWithPage) : option string :=
  let prefix := extractIdPrefix (img_id (iwp_img imgPage)) in
  if String.eqb prefix "unknown" then None else Some prefix.

(** The key of the size group of an image, if its size reaches the floor *)
Definition size_key (imgPage : imageWithPage) : option string :=
  let fileSizeKB := parseFileSizeKB (img_size (iwp_img imgPage)) in
  if F64.geb fileSizeKB (F64.Fin MinWatermarkFileSizeKB)
  then Some (sizeKey_of fileSizeKB) else None.

Definition first_byte (s : string) : option ascii :=
  match s with
  | EmptyString => None
  | String c _ => Some c
  end.

Definition is_log (e : event) : bool :=
  match e with
  | Log _ => true
  | _ => false
  end.

(** Two pages with the same image ["Image-1"] on each. *)
Definition same_image_listing : string :=
  lines [spaced_header;
         spaced_row "1" "11" "Image-1" "100" "100" "35.2KB";
         spaced_row "2" "12" "Image-1" "100" "100" "35.2KB"].

(** Two pages with a small image on each, whose identifier ["ab"] is too
    short to have a prefix. *)
Definition short_id_listing : string :=
  lines [spaced_header;
         spaced_row "1" "11" "ab" "100" "100" "10KB";
         spaced_row "2" "12" "ab" "100" "100" "10KB"].

(** A row whose columns are separated by two spaces and whose identifier
    holds a pipe. *)
Definition stray_pipe_row : string :=
  spaced_row "1" "12" "Im|1" "100" "100" "35.2KB".

Definition in_table : tableScan := mkTableScan true true false [] ∅ 0 0.

(** Five pages; the pages 1 to 4 carry one image each, of prefix
    ["Image"] and size 35.2KB. *)
Definition eighty_percent_listing : string :=
  lines [spaced_header;
         spaced_row "1" "11" "Image-1" "100" "100" "35.2KB";
         spaced_row "2" "12" "Image-1" "100" "100" "35.2KB";
         spaced_row "3" "13" "Image-1" "100" "100" "35.2KB";
         spaced_row "4" "14" "Image-1" "100" "100" "35.2KB"].

(** Two pages with the same small image ["Im0"] on each. *)
Definition small_image_listing : string :=
  lines [spaced_header;
         spaced_row "1" "11" "Im0" "100" "100" "10KB";
         spaced_row "2" "12" "Im0" "100" "100" "10KB"].

(** Two pages; the images of the two pages share their prefix and their
    size and differ in their dimensions. *)
Definition two_shapes_listing : string :=
  lines [spaced_header;
         spaced_row "1" "11" "Image-1" "100" "100" "35.2KB";
         spaced_row "2" "12" "Image-2" "200" "200" "35.2KB"].

(** ** page_utils.go and remove_pages.go: the removal of pages *)

(** [ValidatePageNumbers(pages, totalPages)]: the error, [None] for [nil] *)
Fixpoint ValidatePageNumbers (pages : list Z) (totalPages : Z) : option string :=
  match pages with
  | [] => None
  | page :: rest =>
      if page <? 1 then Some ("page numbers must be positive, got " +:+ Itoa page)
      else if totalPages <? page
      then Some ("page " +:+ Itoa page +:+ " exceeds total pages (" +:+ Itoa totalPages +:+ ")")
      else ValidatePageNumbers rest totalPages
  end.

(** The argument of [-p]: [strings.Join(pageStrs, ",")] *)
Definition pagesArgument (pageNumbers : list Z) : string :=
  String.concat "," (map Itoa pageNumbers).

(** [RemovePagesFromPDF(inFile, outFile, pages)] *)
Definition RemovePagesFromPDF (w : World) (inFile outFile pages : string)
    : action (outcome (option string)) :=
  match ParsePageSpecifier pages with
  | Diverges => ret Diverges
  | Fails err => ret (Returns (Some err))
  | Returns pageNumbers =>
      pc <- getPageCount w inFile ;;
      match pc with
      | Diverges => ret Diverges
      | Fails err => ret (Returns (Some ("failed to get page count: " +:+ err)))
      | Returns totalPages =>
          match ValidatePageNumbers pageNumbers totalPages with
          | Some err => ret (Returns (Some err))
          | None =>
              r <- execCommandWithTimeout w DefaultCLITimeout
                     ["pdfcpu"; "pages"; "remove"; "-p"; pagesArgument pageNumbers; "--";
                      inFile; outFile] ;;
              match snd r with
              | Some err => ret (Returns (Some ("pdfcpu remove failed: " +:+ err)))
              | None => ret (Returns None)
              end
          end
      end
  end.

(** ** The preview: [sanitizeID] *)

(** [strings.ReplaceAll(s, old, new)] for one-byte [old] and [new] *)
Fixpoint replace_char (old new : ascii) (s : string) : string :=
  match s with
  | EmptyString => EmptyString
  | String c s' => String (if Ascii.eqb c old then new else c) (replace_char old new s')
  end.

(** [sanitizeID(id)] *)
Definition sanitizeID (id : string) : string :=
  let sanitized := replace_char " " "_" id in
  let sanitized := replace_char "/" "_" sanitized in
  let sanitized := replace_char "\" "_" sanitized in
  let sanitized := replace_char ":" "_" sanitized in
  if 50 <? len sanitized then slice_to 50 sanitized else sanitized.

(** ** api/handlers.go: the removal of the selected elements *)

(** The identifiers that [HandleRemoveSelectedElements] reads from the
    form value [elements]: the parts between the commas, trimmed *)
Definition selectedElementIDs (elementsParam : string) : list string :=
  map TrimSpace (Split elementsParam ",").

(** The operation that [HandleRemoveSelectedElements] passes to
    [handlePDFFile]: the selective removal of the images and, when it
    fails, the removal of the watermarks. *)
Definition removeSelectedOperation (w : World) (sched : Scheduler) (inFile outFile : string)
    (elementIDs : list string) : action (outcome (option string)) :=
  r <- RemoveElementsByIDs w sched inFile outFile "image" (Some elementIDs) ;;
  match r with
  | Returns (Some err) =>
      logPrintf ("Image removal failed: " +:+ err +:+ ", trying watermark removal...") ;;;
      RemoveElementFromPDF w sched inFile outFile "watermark"
  | _ => ret r
  end.

(** ** Further notions for the statements *)

Definition is_exec (e : event) : bool :=
  match e with
  | Exec _ _ => true
  | _ => false
  end.

(** A world in which every command succeeds *)
Definition obliging (w : World) : Prop :=
  forall h timeout command, snd (run w h timeout command) = None.

(** The entry of the page index that the first loop of [analyzeImages]
    writes together with a record of [allImages] *)
Definition imageInfo_of (raw : rawImageData) : imageInfo :=
  mkImageInfo (raw_id raw) (raw_obj raw) (raw_width raw) (raw_height raw) (raw_size raw)
    (String.eqb (raw_softMask raw) "*") (String.eqb (raw_imgMask raw) "*")
    (raw_colorSpace raw).

(** The shape of a candidate of the analysis of the images: its kind, its
    page, and the entries of its metadata that the removal reads *)
Definition image_candidate_shape (c : UnwantedElementCandidate) : Prop :=
  Type_ c = "image" /\ Page c = 0
  /\ is_Some (Metadata c !! "signature") /\ is_Some (Metadata c !! "prefix")
  /\ is_Some (Metadata c !! "object") /\ is_Some (Metadata c !! "image_id")
  /\ (Metadata c !! "type" = Some "fullpage_watermark"
      \/ Metadata c !! "type" = Some "repeating_watermark"
      \/ Metadata c !! "type" = Some "repeating_unwanted_element").

(** Two pages, each with the image ["Image-1"] of 35.2KB and the small
    image ["Im0"]: a candidate of the first pass and one of the second. *)
Definition two_kinds_listing : string :=
  lines [spaced_header;
         spaced_row "1" "11" "Image-1" "100" "100" "35.2KB";
         spaced_row "1" "21" "Im0" "50" "50" "10KB";
         spaced_row "2" "12" "Image-1" "100" "100" "35.2KB";
         spaced_row "2" "22" "Im0" "50" "50" "10KB"].

(** Two pages, each with the small images ["ab"], whose identifier is
    too short to have a prefix, and ["Im0"]: a candidate that the removal
    does not resolve and one that it resolves. *)
Definition resolved_and_unresolved_listing : string :=
  lines [spaced_header;
         spaced_row "1" "11" "ab" "50" "50" "10KB";
         spaced_row "1" "21" "Im0" "60" "60" "10KB";
         spaced_row "2" "12" "ab" "50" "50" "10KB";
         spaced_row "2" "22" "Im0" "60" "60" "10KB"].

(** A world in which [pdfcpu watermark remove] fails and says that it
    found no watermarks, and every other command succeeds without
    output. *)
Definition no_watermarks : World :=
  mkWorld
    (fun _ _ command =>
       if command_is command ["pdfcpu"; "watermark"; "remove"]
       then ("pdfcpu: no watermarks found", Some "exit status 1")
       else ("", None))
    (fun _ dir => inl (dir +:+ "/blank_1x1.png"))
    (fun _ => "/tmp")
    (fun _ => "out.pdf")
    (fun dir name => dir +:+ "/" +:+ name).
(** * Properties *)

Example Split_dash : Split "a-b--c" "-" = ["a"; "b"; ""; "c"].
Proof. reflexivity. Qed.

Example Fields_row : Fields "  1   12  Im1 " = ["1"; "12"; "Im1"].
Proof. reflexivity. Qed.

Example Itoa_neg : Itoa (-1205) = "-1205" /\ Itoa 0 = "0" /\ Itoa 1000 = "1000".
Proof. vm_compute. auto. Qed.

Example Atoi_cases :
  Atoi "42" = (42, true) /\ Atoi "+7" = (7, true) /\ Atoi "" = (0, false)
  /\ Atoi "4x" = (0, false) /\ Atoi "9223372036854775808" = (MaxInt, false).
Proof. vm_compute. auto 6. Qed.

Example TrimSpace_ex : TrimSpace "  a b	 " = "a b".
Proof. vm_compute. reflexivity. Qed.

Example extractIdPrefix_cases :
  extractIdPrefix "Image-12" = "Image" /\ extractIdPrefix "Im0" = "Im0"
  /\ extractIdPrefix "X1-7" = "X1" /\ extractIdPrefix "ab" = "unknown"
  /\ extractIdPrefix "-abc" = "-ab" /\ extractIdPrefix "abcdefg" = "abcde".
Proof. vm_compute. auto 7. Qed.

Example ParsePageSpecifier_examples :
  ParsePageSpecifier "1, 3,5-7" = Returns [1; 3; 5; 6; 7]
  /\ ParsePageSpecifier "7,1,7,2-3,1" = Returns [1; 2; 3; 7].
Proof. vm_compute. auto. Qed.

Example parseFileSizeKB_examples :
  sizeKey_of (parseFileSizeKB "35.2KB") = "35KB"
  /\ sizeKey_of (parseFileSizeKB " 110.8 kb") = "111KB"
  /\ sizeKey_of (parseFileSizeKB "2MB") = "2048KB"
  /\ sizeKey_of (parseFileSizeKB "1.2.3KB") = "0KB"
  /\ F64.format1 (parseFileSizeKB "35.25KB") = "35.2"
  /\ F64.geb (parseFileSizeKB "30720") (F64.Fin MinWatermarkFileSizeKB) = true.
Proof. vm_compute. auto 7. Qed.

Example box_is_three_bytes : String.length box = 3%nat.
Proof. reflexivity. Qed.

Example splitRow_styles :
  splitRow "1 │ 12 │ Im1 │ image" = ["1"; "12"; "Im1"; "image"]
  /\ splitRow "1|12||Im1" = ["1"; "12"; "Im1"]
  /\ splitRow "1   12  Im 1    image" = ["1"; "12"; "Im 1"; "image"].
Proof. vm_compute. auto. Qed.

Example scanTable_example :
  map raw_id (allImages (scanTable
    ("pages: 2" +:+ newline +:+ "Page | Obj | Id | Type" +:+ newline +:+
     "-----|-----|----" +:+ newline +:+
     "1 | 12 | Im1 | image | - | - | 100 | 200 | DeviceRGB | 3 | 8 | f | 35.2KB" +:+ newline +:+
     "x | 13 | Im2 | image" +:+ newline +:+
     "2 | 14 | Im3 | image" +:+ newline +:+
     "3 images available" +:+ newline +:+ "9 | 1 | Im9 | image"))) = ["Im1"; "Im3"].
Proof. vm_compute. reflexivity. Qed.


Example analyze_fullpage :
  map (fun c => (ID c, Confidence c, Metadata c !! "image_id"))
      (imageCandidates forward 2
         (lines [table_header; table_row "1" "11" "Image-1" "100" "100" "35.2KB";
                 table_row "2" "12" "Image-1" "100" "100" "35.2KB"]))
  = [("fullpage_watermark_Image_35KB", F64.Fin (95 # 100), Some "Image-1")].
Proof. vm_compute. reflexivity. Qed.

Example firstPageCount_examples :
  firstPageCount pageCountPatterns "        Page count: 426" = Some 426
  /\ firstPageCount pageCountPatterns "pages =12" = Some 12
  /\ firstPageCount pageCountPatterns "Pages:x" = None.
Proof. vm_compute. auto. Qed.

(** ** C9: the page specifier *)

Create HintDb pages.

Section PageSpecifier.

Local Hint Constructors StronglySorted Forall : pages.

Lemma insert_sorted_Forall (P : Z -> Prop) x l :
  P x -> Forall P l -> Forall P (insert_sorted x l).
Proof.
  intros Hx Hl. induction Hl as [|y l Hy Hl IH]; simpl; auto with pages.
  destruct (x <=? y); auto with pages.
Qed.

Lemma insert_sorted_sorted x l :
  StronglySorted Z.le l -> StronglySorted Z.le (insert_sorted x l).
Proof.
  induction 1 as [|y l Hs IH Hy]; simpl; auto with pages.
  destruct (Z.leb_spec x y) as [Hle|Hgt].
  - constructor; auto with pages.
    constructor; [exact Hle|].
    eapply Forall_impl; [exact Hy|]. simpl. intros z Hz. lia.
  - constructor; [exact IH|].
    apply insert_sorted_Forall; [lia|exact Hy].
Qed.

Lemma sort_ints_sorted l : StronglySorted Z.le (sort_ints l).
Proof.
  induction l as [|x l IH]; simpl; auto using insert_sorted_sorted with pages.
Qed.

(** After an entry [prev], the entries that the last loop keeps from an
    ascending rest are above [prev] and strictly ascending. *)
Lemma dedup_after_sorted prev l :
  StronglySorted Z.le l -> Forall (Z.le prev) l ->
  Forall (Z.lt prev) (dedup_after prev l) /\ StronglySorted Z.lt (dedup_after prev l).
Proof.
  intros Hs. revert prev.
  induction Hs as [|x l Hs IH Hx]; intros prev Hprev; simpl; auto with pages.
  inversion Hprev as [|? ? Hpx Hpl]; subst.
  destruct (IH x Hx) as [Habove Hsorted].
  destruct (Z.eqb_spec x prev) as [->|Hne]; [auto|].
  assert (prev < x) by lia.
  split; constructor; auto.
  eapply Forall_impl; [exact Habove|]. simpl. intros z Hz. lia.
Qed.

Lemma dedup_adjacent_sorted l :
  StronglySorted Z.le l -> StronglySorted Z.lt (dedup_adjacent l).
Proof.
  intros Hs. destruct Hs as [|x l Hs Hx]; simpl; auto with pages.
  destruct (dedup_after_sorted x l Hs Hx). auto with pages.
Qed.

Lemma strictly_ascending_NoDup l : StronglySorted Z.lt l -> NoDup l.
Proof.
  induction 1 as [|x l Hs IH Hx]; constructor; auto.
  intros Hin. rewrite Forall_forall in Hx. specialize (Hx x Hin). lia.
Qed.

Lemma strictly_ascending_le l : StronglySorted Z.lt l -> StronglySorted Z.le l.
Proof.
  induction 1 as [|x l Hs IH Hx]; constructor; auto.
  eapply Forall_impl; [exact Hx|]. simpl. intros z Hz. lia.
Qed.

Lemma ParsePageSpecifier_ascending pages l :
  ParsePageSpecifier pages = Returns l -> StronglySorted Z.lt l.
Proof.
  unfold ParsePageSpecifier. destruct pages as [|c pages]; [discriminate|].
  destruct (parse_page_parts _ _) as [pageList| |]; try discriminate.
  intros [= <-]. apply dedup_adjacent_sorted, sort_ints_sorted.
Qed.

End PageSpecifier.

(** C9.  [ParsePageSpecifier] on the five inputs of the specification,
    and on every input on which it returns a list: the list is ascending
    and has no duplicates. *)
Theorem ParsePageSpecifier_spec :
  ParsePageSpecifier "1,3,5-7" = Returns [1; 3; 5; 6; 7]
  /\ ParsePageSpecifier "5-5" = Returns [5]
  /\ (exists msg, ParsePageSpecifier "3-1" = Fails msg)
  /\ (exists msg, ParsePageSpecifier "" = Fails msg)
  /\ ParsePageSpecifier "1,1,2" = Returns [1; 2]
  /\ (forall pages l, ParsePageSpecifier pages = Returns l ->
        StronglySorted Z.le l /\ NoDup l).
Proof.
  split; [vm_compute; reflexivity|].
  split; [vm_compute; reflexivity|].
  split; [eexists; vm_compute; reflexivity|].
  split; [eexists; vm_compute; reflexivity|].
  split; [vm_compute; reflexivity|].
  intros pages l Hl. split.
  - apply strictly_ascending_le. eapply ParsePageSpecifier_ascending; eauto.
  - apply strictly_ascending_NoDup. eapply ParsePageSpecifier_ascending; eauto.
Qed.

Lemma ParsePageSpecifier_spec_witness :
  StronglySorted Z.le [1; 2; 3; 7] /\ NoDup [1; 2; 3; 7].
Proof.
  apply (proj2 (proj2 (proj2 (proj2 (proj2 ParsePageSpecifier_spec)))) "7,1,7,2-3,1").
  vm_compute. reflexivity.
Defined.

(** ** C7: the prefix of an identifier *)

Section IdPrefix.

Lemma HasPrefix_dash c s : HasPrefix (String c s) "-" = Ascii.eqb "-" c.
Proof.
  cbn [HasPrefix]. apply andb_true_r.
Qed.

Lemma Index_dash_cons c s :
  Index (String c s) "-" =
    if Ascii.eqb "-" c then 0
    else if Index s "-" <? 0 then -1 else Index s "-" + 1.
Proof.
  change (Index (String c s) "-")
    with (if HasPrefix (String c s) "-" then 0
          else let i := Index s "-" in if i <? 0 then -1 else i + 1).
  rewrite HasPrefix_dash. reflexivity.
Qed.

Lemma Index_dash_bounds s : -1 <= Index s "-" < len s \/ (s = "" /\ Index s "-" = -1).
Proof.
  induction s as [|c s IH]; [right; split; reflexivity|left].
  rewrite Index_dash_cons. unfold len in *. simpl String.length.
  destruct (Ascii.eqb "-" c); [lia|].
  destruct IH as [IH|[-> ->]]; [|simpl; lia].
  destruct (Z.ltb_spec (Index s "-") 0); lia.
Qed.

Lemma Contains_dash s : Contains s "-" = (0 <=? Index s "-").
Proof.
  induction s as [|c s IH]; [reflexivity|].
  rewrite Index_dash_cons.
  change (Contains (String c s) "-")
    with (HasPrefix (String c s) "-" || Contains s "-").
  rewrite HasPrefix_dash, IH.
  destruct (Ascii.eqb "-" c); [reflexivity|]. cbn [orb].
  destruct (Z.ltb_spec (Index s "-") 0).
  - transitivity false; [apply Z.leb_gt; lia|reflexivity].
  - transitivity true; [apply Z.leb_le; lia|symmetry; apply Z.leb_le; lia].
Qed.

Lemma split_from_dash_cons c s cur :
  split_from "-" (String c s) cur 0 =
    if Ascii.eqb "-" c then cur :: split_from "-" s "" 0
    else split_from "-" s (cur +:+ String c "") 0.
Proof.
  change (split_from "-" (String c s) cur 0)
    with (if HasPrefix (String c s) "-"
          then cur :: split_from "-" s "" 0
          else split_from "-" s (cur +:+ String c "") 0).
  rewrite HasPrefix_dash. reflexivity.
Qed.

Lemma append_cons c (s t : string) : String c s +:+ t = String c (s +:+ t).
Proof. reflexivity. Qed.

Lemma append_nil_l (s : string) : "" +:+ s = s.
Proof. reflexivity. Qed.

Lemma append_assoc_char (cur : string) c s :
  (cur +:+ String c "") +:+ s = cur +:+ String c s.
Proof.
  induction cur as [|d cur IH]; [reflexivity|].
  rewrite !append_cons, IH. reflexivity.
Qed.

Lemma append_empty_r (s : string) : s +:+ "" = s.
Proof.
  induction s as [|c s IH]; [reflexivity|]. rewrite append_cons, IH. reflexivity.
Qed.

(** The first piece of a split at the dashes is the text before the
    first dash; there is a second piece exactly when there is a dash. *)
Lemma split_from_dash s cur :
  hd "" (split_from "-" s cur 0)
    = cur +:+ (if 0 <=? Index s "-" then slice_to (Z.to_nat (Index s "-")) s else s)
  /\ (1 <? Z.of_nat (length (split_from "-" s cur 0))) = (0 <=? Index s "-")
  /\ (0 < length (split_from "-" s cur 0))%nat.
Proof.
  revert cur. induction s as [|c s IH]; intros cur.
  - simpl. split; [symmetry; apply append_empty_r|]. split; [reflexivity|lia].
  - rewrite split_from_dash_cons, Index_dash_cons.
    destruct (Ascii.eqb "-" c).
    + destruct (IH "") as (_ & _ & Hlen). simpl.
      split; [rewrite append_empty_r; reflexivity|].
      split; [|lia]. apply Z.ltb_lt. lia.
    + destruct (IH (cur +:+ String c "")) as (Hhd & Hmany & Hlen).
      rewrite Hhd, Hmany. split; [|split; [|exact Hlen]].
      * rewrite append_assoc_char.
        destruct (Z.ltb_spec (Index s "-") 0) as [Hneg|Hpos].
        -- replace (0 <=? Index s "-") with false by (symmetry; apply Z.leb_gt; lia).
           reflexivity.
        -- replace (0 <=? Index s "-") with true by (symmetry; apply Z.leb_le; lia).
           replace (0 <=? Index s "-" + 1) with true by (symmetry; apply Z.leb_le; lia).
           replace (Z.to_nat (Index s "-" + 1)) with (S (Z.to_nat (Index s "-"))) by lia.
           reflexivity.
      * destruct (Z.ltb_spec (Index s "-") 0) as [Hneg|Hpos].
        -- apply Z.leb_gt. lia.
        -- transitivity true; [apply Z.leb_le; lia|symmetry; apply Z.leb_le; lia].
Qed.

Lemma len_take n s : (n <= String.length s)%nat -> len (slice_to n s) = Z.of_nat n.
Proof.
  unfold len. revert s. induction n as [|n IH]; intros s Hn; [reflexivity|].
  destruct s as [|c s]; simpl in *; [lia|].
  specialize (IH s). lia.
Qed.

End IdPrefix.

(** C7, as the code has it.  For an identifier that none of the literal
    checks catches, the prefix is the text before the first [-] when that
    text is not empty, that is when the identifier has a [-] and its
    first [-] is not its first byte; otherwise its first 3 bytes when it
    has 3 to 5 bytes and its first 5 bytes when it has more; and
    ["unknown"] when it has fewer than 3.  An underscore is not a
    delimiter, and a [-] after a leading [-] is not looked at. *)
Theorem extractIdPrefix_dash_only (id : string) :
  known_literal id = false ->
  extractIdPrefix id =
    if 0 <? Index id "-" then slice_to (Z.to_nat (Index id "-")) id
    else if 3 <=? len id then slice_to (if 5 <? len id then 5%nat else 3%nat) id
    else "unknown".
Proof.
  unfold known_literal, extractIdPrefix. intros Hlit.
  apply orb_false_elim in Hlit as [Hlit Hw]. apply orb_false_elim in Hlit as [Hlit Hwm].
  apply orb_false_elim in Hlit as [Himage Himg].
  rewrite Himage, Himg, Hwm, Hw. cbn [orb].
  rewrite Contains_dash. unfold Split.
  destruct (split_from_dash id "") as (Hhd & Hmany & _).
  rewrite Hhd, Hmany, append_nil_l.
  destruct (Z.leb_spec 0 (Index id "-")) as [Hpos|Hneg].
  - cbn [andb]. rewrite len_take.
    + rewrite Z2Nat.id by lia. destruct (0 <? Index id "-"); reflexivity.
    + destruct (Index_dash_bounds id) as [Hb|[_ Hb]]; unfold len in *; lia.
  - replace (0 <? Index id "-") with false by (symmetry; apply Z.ltb_ge; lia).
    reflexivity.
Qed.

Lemma extractIdPrefix_dash_only_witness :
  extractIdPrefix "scan_07" = "scan_" /\ extractIdPrefix "X1-7" = "X1"
  /\ extractIdPrefix "-a-b" = "-a-".
Proof.
  split; [|split].
  - apply (extractIdPrefix_dash_only "scan_07"). vm_compute. reflexivity.
  - apply (extractIdPrefix_dash_only "X1-7"). vm_compute. reflexivity.
  - apply (extractIdPrefix_dash_only "-a-b"). vm_compute. reflexivity.
Defined.

(** C7, as the specification words it, fails on an identifier whose first
    delimiter is an underscore: the specification gives the text before
    it, the code the first five bytes. *)
Lemma extractIdPrefix_underscore_counterexample :
  known_literal "abc_def" = false
  /\ delimited_segment "abc_def" = Some "abc"
  /\ extractIdPrefix "abc_def" = "abc_d".
Proof. vm_compute. auto. Qed.

(** ** Maps that are filled by [append], and scheduled loops *)

Lemma foldl_invariant {A B} (P : A -> Prop) (f : A -> B -> A) l a :
  P a -> (forall a x, P a -> P (f a x)) -> P (foldl f a l).
Proof. intros Ha Hf. revert a Ha. induction l as [|x l IH]; simpl; auto. Qed.

Lemma map_append_lookup `{Countable K} {A} (k k' : K) (x : A) (m : gmap K (list A)) :
  map_append k x m !! k' = if decide (k = k') then Some (map_get m k ++ [x]) else m !! k'.
Proof.
  unfold map_append, map_get. destruct (decide (k = k')) as [->|Hne].
  - apply lookup_insert_eq.
  - apply lookup_insert_ne, Hne.
Qed.


Lemma In_scheduled {A} (order : list A -> list A) (l : list A) x :
  order l ≡ₚ l -> In x (order l) -> x ∈ l.
Proof. intros Hp Hin. apply list_elem_of_In. eapply Permutation_in; eauto. Qed.

(** ** The prefix that a candidate stores *)

Lemma len_empty s : len s = 0 -> s = "".
Proof. destruct s; [reflexivity|]. unfold len. simpl. lia. Qed.

Lemma extractIdPrefix_nonempty id : extractIdPrefix id <> "".
Proof.
  unfold extractIdPrefix.
  destruct (HasPrefix id "Image-"); [discriminate|].
  destruct (HasPrefix id "Img"); [discriminate|].
  destruct (HasPrefix id "WM-" || HasPrefix id "Watermark"); [discriminate|].
  cbv zeta.
  assert (Hlen : (if 3 <=? len id
                  then slice_to (if 5 <? len id then 5%nat else 3%nat) id
                  else "unknown") <> "").
  { destruct (Z.leb_spec 3 (len id)) as [Hge|]; [|discriminate].
    destruct id as [|a [|b [|c r]]]; unfold len in Hge; simpl in Hge; try lia.
    destruct (5 <? _); discriminate. }
  destruct (Contains id "-"); [|exact Hlen].
  destruct (1 <? _); [|exact Hlen]. cbn [andb].
  destruct (Z.ltb_spec 0 (len (hd "" (Split id "-")))) as [Hpos|]; [|exact Hlen].
  intros Heq. rewrite Heq in Hpos. unfold len in Hpos. simpl in Hpos. lia.
Qed.

(** Every key of the prefix index is the prefix of an identifier. *)
Lemma imagesByPrefix_keys sched byPage k :
  is_Some (imagesByPrefix (groupImages sched byPage) !! k) -> k <> "".
Proof.
  unfold groupImages.
  apply (foldl_invariant (fun g => is_Some (imagesByPrefix g !! k) -> k <> "")).
  - simpl. rewrite lookup_empty. intros [? ?]. discriminate.
  - intros g entry Hg.
    apply (foldl_invariant (fun g => is_Some (imagesByPrefix g !! k) -> k <> "")); [exact Hg|].
    clear g Hg. intros g img Hg. unfold groupImage. cbn [imagesByPrefix].
    destruct (String.eqb _ "unknown"); [exact Hg|].
    rewrite map_append_lookup. destruct (decide _) as [<-|]; [|exact Hg].
    intros _. apply extractIdPrefix_nonempty.
Qed.

Lemma sizeGroupCandidates_prefix totalPages prefix sizeKey sizeGroup c :
  In c (sizeGroupCandidates totalPages prefix sizeKey sizeGroup) ->
  Metadata c !! "prefix" = Some prefix.
Proof.
  unfold sizeGroupCandidates.
  destruct (_ <? totalPages); [intros []|].
  destruct (coverSizeGroup sizeGroup) as [pagesCovered representativeImg].
  destruct (F64.geb _ _); [|intros []].
  destruct (_ =? totalPages); intros [<-|[]]; reflexivity.
Qed.

Lemma repeatingCandidates_prefix byPage totalPages signature pages c :
  In c (repeatingCandidates byPage totalPages signature pages) ->
  exists id, Metadata c !! "prefix" = Some (extractIdPrefix id).
Proof.
  unfold repeatingCandidates.
  destruct (_ || _); [|intros []].
  destruct pages as [|firstPage pages]; [intros []|].
  intros [<-|[]]. eexists. reflexivity.
Qed.

Lemma imageCandidates_prefix sched totalPages listing c :
  In c (imageCandidates sched totalPages listing) -> metadata_text c "prefix" <> "".
Proof.
  unfold imageCandidates. intros Hin. apply in_app_or in Hin as [Hin|Hin].
  - unfold detectFullPageUnwantedElements in Hin.
    apply in_flat_map in Hin as ([prefix images] & Hentry & Hin).
    apply In_scheduled in Hentry; [|apply order_prefixes_perm].
    apply elem_of_map_to_list in Hentry.
    unfold prefixCandidates in Hin. cbn [fst snd] in Hin.
    destruct (_ <? minPagesFor totalPages); [destruct Hin|].
    destruct (_ =? 0); [destruct Hin|].
    apply in_flat_map in Hin as ([sizeKey sizeGroup] & _ & Hin).
    apply sizeGroupCandidates_prefix in Hin.
    unfold metadata_text. rewrite Hin. simpl.
    eapply imagesByPrefix_keys. rewrite Hentry. eauto.
  - unfold detectRepeating in Hin.
    apply in_flat_map in Hin as ([signature pages] & _ & Hin). cbn [fst snd] in Hin.
    destruct (decide _); [destruct Hin|].
    apply repeatingCandidates_prefix in Hin as [id Hid].
    unfold metadata_text. rewrite Hid. simpl. apply extractIdPrefix_nonempty.
Qed.

(** ** C4: the prefix strategy *)

(** An identifier that is a key of the occurrence table is the
    identifier of a listed occurrence. *)
Lemma imageOccurrences_keys output k :
  is_Some (imageOccurrences (scanOccurrences output) !! k) ->
  exists occ, occ ∈ allImageOccurrences (scanOccurrences output) /\ occ_id occ = k.
Proof.
  unfold scanOccurrences.
  apply (foldl_invariant
           (fun st => is_Some (imageOccurrences st !! k) ->
                      exists occ, occ ∈ allImageOccurrences st /\ occ_id occ = k)).
  - simpl. rewrite lookup_empty. intros [? ?]. discriminate.
  - intros st line Hst. unfold scanOccurrenceLine.
    destruct (String.eqb _ ""); [exact Hst|].
    destruct (_ && _).
    { cbn [imageOccurrences allImageOccurrences]. exact Hst. }
    destruct (negb (os_inTable st)); [exact Hst|].
    destruct (_ <? 3); [exact Hst|].
    destruct (Atoi _) as [page ok].
    destruct (_ || _); [exact Hst|].
    cbn [imageOccurrences allImageOccurrences].
    rewrite map_append_lookup. destruct (decide _) as [<-|].
    + intros _. eexists. split; [apply elem_of_app; right; apply list_elem_of_singleton; reflexivity|].
      reflexivity.
    + intros Hk. destruct (Hst Hk) as (occ & Hocc & Hid).
      exists occ. split; [apply elem_of_app; left; exact Hocc|exact Hid].
Qed.

Lemma isEmpty_nil {A} : @isEmpty A [] = true.
Proof. reflexivity. Qed.

Lemma isEmpty_false {A} (l : list A) : l <> [] -> isEmpty l = false.
Proof. destruct l; [congruence|]. intros _. unfold isEmpty. apply Z.eqb_neq. simpl length. lia. Qed.

Lemma filter_Exists_nonempty {A} (f : A -> bool) l :
  Exists (fun x => f x = true) l -> List.filter f l <> [].
Proof.
  induction 1 as [x l Hx|x l _ IH]; simpl.
  - rewrite Hx. discriminate.
  - destruct (f x); [discriminate|exact IH].
Qed.

Lemma resolve_by_prefix occurrences all candidate :
  let imgID := metadata_text candidate "image_id" in
  let prefix := metadata_text candidate "prefix" in
  occurrences !! imgID = None ->
  prefix <> "" ->
  Exists (fun occ => matchesPrefix prefix occ = true) all ->
  let r := resolveCandidate occurrences all candidate in
  foundOccurrences r = List.filter (matchesPrefix prefix) all
  /\ applied r = (if String.eqb imgID "" then [] else [ExactID]) ++ [PrefixMatch].
Proof.
  intros imgID prefix Hid Hprefix Hex r. subst r. unfold resolveCandidate.
  assert (H1 : foundOccurrences (exactID occurrences candidate) = []
               /\ applied (exactID occurrences candidate)
                  = if String.eqb imgID "" then [] else [ExactID]).
  { unfold exactID. fold imgID. rewrite Hid. destruct (String.eqb imgID ""); auto. }
  destruct H1 as [Hf1 Ha1].
  assert (Hfound : isEmpty (List.filter (matchesPrefix prefix) all) = false)
    by (apply isEmpty_false, filter_Exists_nonempty, Hex).
  assert (H2 : foundOccurrences (prefixMatch all candidate (exactID occurrences candidate))
               = List.filter (matchesPrefix prefix) all
               /\ applied (prefixMatch all candidate (exactID occurrences candidate))
                  = (if String.eqb imgID "" then [] else [ExactID]) ++ [PrefixMatch]).
  { unfold prefixMatch. fold prefix. rewrite Hf1, isEmpty_nil, Ha1.
    destruct (String.eqb_spec prefix ""); [contradiction|]. cbn [negb andb foundOccurrences applied]. auto. }
  destruct H2 as [Hf2 Ha2].
  set (r2 := prefixMatch all candidate (exactID occurrences candidate)) in *.
  unfold signatureMatch. rewrite Hf2, Hfound. cbn [fst snd].
  unfold singleOccurrence. rewrite Hf2, Hfound.
  unfold conclude. cbn [foundOccurrences applied]. auto.
Qed.

(** C4.  A candidate of the analysis whose stored [image_id] is the
    identifier of no occurrence of the fresh listing, and whose stored
    prefix matches at least one of them (as a prefix of the identifier,
    followed or not by [-] or [_], or as its extracted prefix), resolves
    to exactly the occurrences that match the prefix, in the order of the
    listing: strategy 2 is the last one applied, strategies 3 and 4 are
    not. *)
Theorem prefix_strategy_fires (sched : Scheduler) (totalPages : Z) (listing output : string)
    (candidate : UnwantedElementCandidate) :
  In candidate (imageCandidates sched totalPages listing) ->
  let scan := scanOccurrences output in
  let imgID := metadata_text candidate "image_id" in
  let prefix := metadata_text candidate "prefix" in
  Forall (fun occ => occ_id occ <> imgID) (allImageOccurrences scan) ->
  Exists (fun occ => matchesPrefix prefix occ = true) (allImageOccurrences scan) ->
  let r := resolveCandidate (imageOccurrences scan) (allImageOccurrences scan) candidate in
  foundOccurrences r = List.filter (matchesPrefix prefix) (allImageOccurrences scan)
  /\ applied r = (if String.eqb imgID "" then [] else [ExactID]) ++ [PrefixMatch]
  /\ ~ In SignaturePrefix (applied r)
  /\ ~ In SingleOccurrence (applied r).
Proof.
  intros Hcand scan imgID prefix Hnone Hsome r.
  assert (Hlookup : imageOccurrences scan !! imgID = None).
  { destruct (imageOccurrences scan !! imgID) eqn:E; [|reflexivity].
    destruct (imageOccurrences_keys output imgID) as (occ & Hocc & Hid);
      [fold scan; rewrite E; eauto|].
    rewrite Forall_forall in Hnone. destruct (Hnone occ Hocc Hid). }
  destruct (resolve_by_prefix (imageOccurrences scan) (allImageOccurrences scan) candidate
              Hlookup (imageCandidates_prefix _ _ _ _ Hcand) Hsome) as [Hfound Happlied].
  split; [exact Hfound|]. split; [exact Happlied|].
  subst r. rewrite Happlied.
  split; destruct (String.eqb (metadata_text candidate "image_id") ""); simpl; intros H;
    repeat (destruct H as [H|H]; [discriminate H|]); exact H.
Qed.

Lemma prefix_strategy_fires_witness :
  let candidate := hd no_candidate (imageCandidates forward 2 spaced_ids_listing) in
  let scan := scanOccurrences spaced_ids_listing in
  metadata_text candidate "image_id" = "Image 2"
  /\ foundOccurrences
       (resolveCandidate (imageOccurrences scan) (allImageOccurrences scan) candidate)
     = [mkOccurrence 1 "11" "Image"; mkOccurrence 2 "12" "Image"].
Proof.
  intros candidate scan. split; [vm_compute; reflexivity|].
  destruct (prefix_strategy_fires forward 2 spaced_ids_listing spaced_ids_listing candidate)
    as (Hfound & _).
  - vm_compute. left. reflexivity.
  - vm_compute. repeat constructor; discriminate.
  - vm_compute. left. reflexivity.
  - fold scan in Hfound. rewrite Hfound. vm_compute. reflexivity.
Defined.

(** ** C10: image removal without identifiers *)

(** C10.  For the element type ["image"], [RemoveElementsByIDs] with a
    [nil] or an empty list of identifiers returns its error at once: it
    runs no command, writes no log and touches no file, whatever happened
    before ([h]).  With a list that is not empty it is
    [removeImagesByIDs] on that list; so whenever it acts on the outside,
    the list holds at least one identifier. *)
Theorem image_removal_needs_ids (w : World) (sched : Scheduler) (inFile outFile : string)
    (elementIDs : option (list string)) (h : list event) :
  (elementIDs = None \/ elementIDs = Some [] ->
   RemoveElementsByIDs w sched inFile outFile "image" elementIDs h
   = (Returns (Some "image removal requires element IDs to identify which images to remove"), h))
  /\ (forall ids, elementIDs = Some ids -> ids <> [] ->
      RemoveElementsByIDs w sched inFile outFile "image" elementIDs h
      = removeImagesByIDs w sched inFile outFile ids h)
  /\ (snd (RemoveElementsByIDs w sched inFile outFile "image" elementIDs h) <> h ->
      exists id ids, elementIDs = Some (id :: ids)).
Proof.
  split; [|split].
  - intros [->| ->]; reflexivity.
  - intros ids -> Hne. destruct ids as [|id ids]; [congruence|reflexivity].
  - destruct elementIDs as [[|id ids]|]; [intros []; reflexivity|eauto|intros []; reflexivity].
Qed.

Lemma image_removal_needs_ids_witness :
  let w := scripted "Pages: 2" spaced_ids_listing None in
  RemoveElementsByIDs w forward "in.pdf" "out.pdf" "image" None []
  = (Returns (Some "image removal requires element IDs to identify which images to remove"), []).
Proof.
  intros w.
  apply (proj1 (image_removal_needs_ids w forward "in.pdf" "out.pdf" None [])).
  left. reflexivity.
Defined.


(** ** C5: candidates without occurrences *)

Lemma removeAll_logs paths h : exists tail, snd (removeAll paths h) = h ++ tail.
Proof.
  revert h. induction paths as [|p paths IH]; intros h.
  - exists []. simpl. rewrite app_nil_r. reflexivity.
  - simpl. unfold bind, osRemove. destruct (IH (h ++ [RemoveFile p])) as [tail Ht].
    exists (RemoveFile p :: tail). rewrite Ht, <- app_assoc. reflexivity.
Qed.

Lemma removeAll_result paths h : fst (removeAll paths h) = tt.
Proof. destruct (fst _). reflexivity. Qed.

Lemma removeChain_error w outFile blank n images i current temps h :
  fst (removeChain w outFile blank n images i current temps h) <> Some noMatchError.
Proof.
  revert i current temps h. induction images as [|img rest IH]; intros i current temps h.
  - simpl. unfold bind, ret. destruct (removeAll _ h). simpl. discriminate.
  - cbn [removeChain].
    set (tempFile := if i =? n - 1 then outFile else _).
    set (temps' := if i =? n - 1 then temps else _).
    assert (Hupdate : forall selector h,
      fst ((r <- execCommandWithTimeout w DefaultCLITimeout
               ["pdfcpu"; "images"; "update"; current; blank; tempFile; selector] ;;
            match snd r with
            | Some err => removeAll temps' ;;; ret (Some (updateFailure img err (fst r)))
            | None => removeChain w outFile blank n rest (i + 1)
                        (if i <? n - 1 then tempFile else current) temps'
            end) h) <> Some noMatchError).
    { intros selector h'. unfold bind at 1. unfold execCommandWithTimeout.
      destruct (run w h' _ _) as [output [err|]]; cbn [fst snd].
      - unfold bind, ret. destruct (removeAll _ _). cbn [fst].
        intros [= Heq]. apply (f_equal first_byte) in Heq.
        unfold updateFailure in Heq. destruct (negb _) in Heq; vm_compute in Heq; discriminate.
      - apply IH. }
    destruct (negb (String.eqb (objNr img) "")); [apply Hupdate|].
    destruct (_ && _); [apply Hupdate|].
    unfold bind, ret. destruct (removeAll _ _). cbn [fst]. discriminate.
Qed.

Lemma logAll_events msgs h : logAll msgs h = (tt, h ++ map Log msgs).
Proof.
  revert h. induction msgs as [|msg msgs IH]; intros h; simpl.
  - unfold ret. rewrite app_nil_r. reflexivity.
  - unfold bind, logPrintf. rewrite IH, <- app_assoc. reflexivity.
Qed.

Lemma HasPrefix_append (pre s : string) : HasPrefix (pre +:+ s) pre = true.
Proof.
  induction pre as [|c pre IH]; [reflexivity|].
  change (String c pre +:+ s) with (String c (pre +:+ s)).
  cbn [HasPrefix]. rewrite Ascii.eqb_refl, IH. reflexivity.
Qed.

Lemma append_assoc (a b c : string) : (a +:+ b) +:+ c = a +:+ (b +:+ c).
Proof.
  induction a as [|x a IH]; [reflexivity|].
  change ((String x a +:+ b) +:+ c) with (String x ((a +:+ b) +:+ c)).
  rewrite IH. reflexivity.
Qed.

(** A candidate for which no strategy finds an occurrence ends its
    messages with the warning. *)
Lemma resolveCandidate_warning occurrences all candidate :
  foundOccurrences (resolveCandidate occurrences all candidate) = [] ->
  exists msgs warning,
    messages (resolveCandidate occurrences all candidate) = msgs ++ [warning]
    /\ HasPrefix warning "Warning: Cannot find any occurrences for candidate " = true.
Proof.
  unfold resolveCandidate, conclude. cbn [foundOccurrences messages].
  intros ->. cbn [isEmpty length negb Z.of_nat Z.eqb].
  eexists _, _. split; [reflexivity|].
  apply HasPrefix_append.
Qed.

Lemma collectImages_nonempty resolutions :
  collectImages resolutions
  = collectImages (List.filter (fun r => negb (isEmpty (foundOccurrences r))) resolutions).
Proof.
  unfold collectImages. induction resolutions as [|r rs IH]; [reflexivity|].
  simpl. destruct (foundOccurrences r) as [|occ occs] eqn:E; simpl.
  - exact IH.
  - rewrite E, IH. reflexivity.
Qed.

(** *** The occurrences of the listing and the events of the chain *)

Lemma fields_from_nonempty s cur skip :
  Forall (fun field => field <> "") (fields_from s cur skip).
Proof.
  assert (Hflush : forall cur rest,
            Forall (fun field : string => field <> "") rest ->
            Forall (fun field : string => field <> "")
              (match cur with "" => rest | _ => cur :: rest end)).
  { intros [|c cur'] rest Hrest; [exact Hrest|]. constructor; [discriminate|exact Hrest]. }
  revert cur skip. induction s as [|c s IH]; intros cur skip.
  - cbn [fields_from]. apply Hflush. constructor.
  - cbn [fields_from]. destruct skip as [|k]; [|apply IH].
    destruct (space_width (String c s)); [apply IH|]. apply Hflush, IH.
Qed.

Lemma nth_Forall {A} (P : A -> Prop) (l : list A) (n : nat) (d : A) :
  Forall P l -> (n < length l)%nat -> P (nth n l d).
Proof.
  intros Hl Hn. rewrite Forall_forall in Hl. apply Hl, list_elem_of_In, nth_In, Hn.
Qed.

(** What one line does to the occurrences: nothing, or one more
    occurrence, written to the list and to the index of its identifier. *)
Lemma scanOccurrenceLine_records st line :
  (allImageOccurrences (scanOccurrenceLine st line) = allImageOccurrences st
   /\ imageOccurrences (scanOccurrenceLine st line) = imageOccurrences st)
  \/ exists occ,
       occ_page occ <> 0 /\ occ_obj occ <> "" /\ occ_id occ <> ""
       /\ allImageOccurrences (scanOccurrenceLine st line) = allImageOccurrences st ++ [occ]
       /\ imageOccurrences (scanOccurrenceLine st line)
          = map_append (occ_id occ) occ (imageOccurrences st).
Proof.
  unfold scanOccurrenceLine.
  destruct (String.eqb _ ""); [left; auto|].
  destruct (_ && _); [left; auto|].
  destruct (negb (os_inTable st)); [left; auto|].
  pose proof (fields_from_nonempty (TrimSpace line) "" 0) as Hfields.
  fold (Fields (TrimSpace line)) in Hfields.
  destruct (Z.ltb_spec (Z.of_nat (length (Fields (TrimSpace line)))) 3) as [|Hlen];
    [left; auto|].
  destruct (Atoi _) as [page ok].
  destruct (negb ok || (page =? 0) || String.eqb (nth 2 (Fields (TrimSpace line)) "") "")
    eqn:Hskip; [left; auto|].
  apply orb_false_elim in Hskip as [Hskip Hid]. apply orb_false_elim in Hskip as [_ Hpage].
  right. eexists (mkOccurrence _ _ _).
  cbn [occ_page occ_obj occ_id allImageOccurrences imageOccurrences].
  split; [apply Z.eqb_neq, Hpage|].
  split; [apply (nth_Forall _ _ 1 "" Hfields); lia|].
  split; [apply String.eqb_neq, Hid|]. split; reflexivity.
Qed.

Lemma scanOccurrences_invariant (P : occurrenceScan -> Prop) output :
  P (mkOccurrenceScan false false ∅ []) ->
  (forall st line, P st -> P (scanOccurrenceLine st line)) ->
  P (scanOccurrences output).
Proof. intros Hstart Hstep. unfold scanOccurrences. apply foldl_invariant; assumption. Qed.

Lemma scanOccurrences_agree output id :
  map_get (imageOccurrences (scanOccurrences output)) id
  = filter (fun occ => occ_id occ = id) (allImageOccurrences (scanOccurrences output)).
Proof.
  apply (scanOccurrences_invariant
           (fun st => map_get (imageOccurrences st) id
                      = filter (fun occ => occ_id occ = id) (allImageOccurrences st))).
  - reflexivity.
  - intros st line Hst.
    destruct (scanOccurrenceLine_records st line) as [[-> ->]|(occ & _ & _ & _ & -> & ->)];
      [exact Hst|].
    rewrite filter_app, <- Hst. unfold map_get at 1. rewrite map_append_lookup.
    destruct (decide (occ_id occ = id)) as [Heq|Hne].
    + rewrite filter_cons_True by exact Heq. rewrite Heq. reflexivity.
    + rewrite filter_cons_False by exact Hne. cbn [filter]. rewrite app_nil_r. reflexivity.
Qed.

Lemma scanOccurrences_records output :
  Forall (fun occ => occ_page occ <> 0 /\ occ_obj occ <> "" /\ occ_id occ <> "")
    (allImageOccurrences (scanOccurrences output)).
Proof.
  apply (scanOccurrences_invariant
           (fun st => Forall (fun occ => occ_page occ <> 0 /\ occ_obj occ <> ""
                                         /\ occ_id occ <> "")
                        (allImageOccurrences st))).
  - constructor.
  - intros st line Hst.
    destruct (scanOccurrenceLine_records st line)
      as [[-> _]|(occ & Hpage & Hobj & Hid & -> & _)]; [exact Hst|].
    apply Forall_app. split; [exact Hst|]. constructor; [auto|constructor].
Qed.

Lemma find_elem {A} (f : A -> bool) (l : list A) x : List.find f l = Some x -> x ∈ l.
Proof. intros Hfind. apply list_elem_of_In. eapply find_some, Hfind. Qed.

Lemma filter_bool_within {A} (f : A -> bool) (l : list A) :
  Forall (fun x => x ∈ l) (List.filter f l).
Proof.
  apply Forall_forall. intros x Hx. apply list_elem_of_In in Hx.
  apply filter_In in Hx as [Hx _]. apply list_elem_of_In, Hx.
Qed.

Lemma resolveCandidate_within occurrences allOccurrences candidate :
  (forall id occs, occurrences !! id = Some occs ->
     Forall (fun occ => occ ∈ allOccurrences) occs) ->
  Forall (fun occ => occ ∈ allOccurrences)
    (foundOccurrences (resolveCandidate occurrences allOccurrences candidate)).
Proof.
  intros Hindex. unfold resolveCandidate, conclude. cbn [foundOccurrences].
  assert (H1 : Forall (fun occ => occ ∈ allOccurrences)
                 (foundOccurrences (exactID occurrences candidate))).
  { unfold exactID. destruct (negb _); [|constructor].
    destruct (occurrences !! _) as [occs|] eqn:Hocc; [|constructor].
    apply (Hindex _ _ Hocc). }
  assert (H2 : Forall (fun occ => occ ∈ allOccurrences)
                 (foundOccurrences
                    (prefixMatch allOccurrences candidate (exactID occurrences candidate)))).
  { unfold prefixMatch. destruct (_ && _); [|exact H1]. apply filter_bool_within. }
  assert (H3 : Forall (fun occ => occ ∈ allOccurrences)
                 (foundOccurrences
                    (fst (signatureMatch allOccurrences candidate
                            (prefixMatch allOccurrences candidate
                               (exactID occurrences candidate)))))).
  { unfold signatureMatch. destruct (isEmpty _); [|exact H2].
    destruct (negb (String.eqb (metadata_text candidate "signature") "")); [|constructor].
    cbn [fst foundOccurrences]. destruct (_ && _); [apply filter_bool_within|constructor]. }
  unfold singleOccurrence. destruct (isEmpty _); [|exact H3].
  cbn [foundOccurrences]. destruct (_ && _); [|constructor].
  destruct (negb _); destruct (List.find _ _) as [occ|] eqn:Hfind; cbn [option_list];
    try constructor; try constructor; eapply find_elem, Hfind.
Qed.

Lemma removeAll_events paths h : removeAll paths h = (tt, h ++ map RemoveFile paths).
Proof.
  revert h. induction paths as [|path paths IH]; intros h; cbn [removeAll map].
  - unfold ret. rewrite app_nil_r. reflexivity.
  - unfold bind, osRemove. rewrite IH, <- app_assoc. reflexivity.
Qed.

Lemma removeChain_extends w outFile blank n images i current temps h :
  exists tail, snd (removeChain w outFile blank n images i current temps h) = h ++ tail.
Proof.
  revert i current temps h. induction images as [|img rest IH]; intros i current temps h.
  - cbn [removeChain]. unfold bind, ret. rewrite removeAll_events. cbn [snd]. eauto.
  - cbn [removeChain].
    set (tempFile := if i =? n - 1 then outFile else _).
    set (temps' := if i =? n - 1 then temps else _).
    assert (Hupdate : forall selector,
      exists tail,
        snd ((r <- execCommandWithTimeout w DefaultCLITimeout
                ["pdfcpu"; "images"; "update"; current; blank; tempFile; selector] ;;
              match snd r with
              | Some err => removeAll temps' ;;; ret (Some (updateFailure img err (fst r)))
              | None => removeChain w outFile blank n rest (i + 1)
                          (if i <? n - 1 then tempFile else current) temps'
              end) h) = h ++ tail).
    { intros selector. unfold bind at 1. unfold execCommandWithTimeout.
      destruct (run w h _ _) as [output [err|]]; cbn [fst snd].
      - unfold bind, ret. rewrite removeAll_events. cbn [snd].
        rewrite <- app_assoc. eauto.
      - destruct (IH (i + 1) (if i <? n - 1 then tempFile else current) temps'
                    (h ++ [Exec DefaultCLITimeout
                             ["pdfcpu"; "images"; "update"; current; blank; tempFile;
                              selector]])) as [tail Htail].
        rewrite Htail, <- app_assoc. eauto. }
    destruct (negb (String.eqb (objNr img) "")); [apply Hupdate|].
    destruct (_ && _); [apply Hupdate|].
    unfold bind, ret. rewrite removeAll_events. cbn [snd]. eauto.
Qed.

Lemma flat_map_map_compose {A B C} (f : A -> B) (g : B -> list C) (l : list A) :
  flat_map g (map f l) = flat_map (fun x => g (f x)) l.
Proof.
  induction l as [|x l IH]; [reflexivity|]. cbn [map flat_map]. rewrite IH. reflexivity.
Qed.

(** The first event of the chain for an image that has an object number:
    the command that replaces it, which reads the current file. *)
Lemma removeChain_first w outFile blank n img rest current temps h :
  objNr img <> "" ->
  exists tempFile tail,
    snd (removeChain w outFile blank n (img :: rest) 0 current temps h)
    = h ++ [Exec DefaultCLITimeout
              ["pdfcpu"; "images"; "update"; current; blank; tempFile; objNr img]]
        ++ tail.
Proof.
  intros Hobj. cbn [removeChain]. apply String.eqb_neq in Hobj. rewrite Hobj. cbn [negb].
  set (tempFile := if 0 =? n - 1 then outFile else _).
  set (temps' := if 0 =? n - 1 then temps else _).
  exists tempFile. unfold bind at 1. unfold execCommandWithTimeout.
  destruct (run w h _ _) as [output [err|]]; cbn [fst snd].
  - unfold bind, ret. rewrite removeAll_events. cbn [snd]. rewrite <- app_assoc. eauto.
  - destruct (removeChain_extends w outFile blank n rest (0 + 1)
                (if 0 <? n - 1 then tempFile else current) temps'
                (h ++ [Exec DefaultCLITimeout
                         ["pdfcpu"; "images"; "update"; current; blank; tempFile; objNr img]]))
      as [tail Htail].
    rewrite Htail, <- app_assoc. eauto.
Qed.

(** C5, as the code has it.  After a successful analysis and a
    successful listing, every selected candidate is resolved, in the
    order of the analysis: the images to remove are the occurrences found
    for all of them, and the messages of all of them are logged.  A
    candidate for which the four strategies find no occurrence adds no
    image, and its messages end with the warning; the candidates after
    it are resolved all the same.  [removeImagesByIDs] returns its "no
    matching images" error exactly when no image is to be removed, and
    then the events after the listing are the log messages: no blank
    image, no command, no file removed.  When there is an image to
    remove it creates the blank image; if that fails it reports that
    failure, and otherwise it runs the chain of replacements on these
    images, which starts with the command that replaces the first image
    in the input file, returns what the chain returns, and removes the
    blank image. *)
Theorem removeImagesByIDs_no_match (w : World) (sched : Scheduler) (inFile outFile : string)
    (elementIDs : list string) (analysis : UnwantedElementsAnalysis) (h : list event)
    (listing : string) :
  AnalyzeUnwantedElements w sched inFile [] = (Returns analysis, h) ->
  run w h DefaultCLITimeout ["pdfcpu"; "images"; "list"; inFile] = (listing, None) ->
  let resolve :=
    resolveCandidate (imageOccurrences (scanOccurrences listing))
      (allImageOccurrences (scanOccurrences listing)) in
  let selected :=
    filter (fun candidate => ID candidate ∈ selectedSet elementIDs)
      (ImageCandidates analysis) in
  let imagesToRemove :=
    flat_map (fun candidate => map toRemove (foundOccurrences (resolve candidate))) selected in
  let logged :=
    h ++ [Exec DefaultCLITimeout ["pdfcpu"; "images"; "list"; inFile]]
      ++ map Log (flat_map (fun candidate => messages (resolve candidate)) selected) in
  let out := removeImagesByIDs w sched inFile outFile elementIDs [] in
  (forall candidate, In candidate selected -> foundOccurrences (resolve candidate) = [] ->
     exists msgs warning,
       messages (resolve candidate) = msgs ++ [warning]
       /\ HasPrefix warning "Warning: Cannot find any occurrences for candidate " = true)
  /\ (fst out = Returns (Some noMatchError) <-> imagesToRemove = [])
  /\ (imagesToRemove = [] -> snd out = logged)
  /\ (imagesToRemove <> [] ->
      match blank_image w logged (filepath_Dir w outFile) with
      | inr err =>
          out = (Returns (Some ("failed to create blank image: " +:+ err)),
                 logged ++ [CreateBlankImage (filepath_Dir w outFile)])
      | inl blankImagePath =>
          let chain :=
            removeChain w outFile blankImagePath (Z.of_nat (length imagesToRemove))
              imagesToRemove 0 inFile []
              (logged ++ [CreateBlankImage (filepath_Dir w outFile)]) in
          out = (Returns (fst chain), snd chain ++ [RemoveFile blankImagePath])
          /\ exists img tempFile tail,
               head imagesToRemove = Some img
               /\ snd chain
                  = (logged ++ [CreateBlankImage (filepath_Dir w outFile)])
                    ++ [Exec DefaultCLITimeout
                          ["pdfcpu"; "images"; "update"; inFile; blankImagePath; tempFile;
                           objNr img]]
                    ++ tail
      end).
Proof.
  intros Hanalysis Hlisting resolve selected imagesToRemove logged out.
  assert (Himages : collectImages (resolveSelected analysis elementIDs (scanOccurrences listing))
                    = imagesToRemove).
  { unfold collectImages, resolveSelected.
    apply (flat_map_map_compose resolve (fun r => map toRemove (foundOccurrences r))). }
  assert (Hlogged : h ++ [Exec DefaultCLITimeout ["pdfcpu"; "images"; "list"; inFile]]
                      ++ map Log (flat_map messages
                                    (resolveSelected analysis elementIDs
                                       (scanOccurrences listing)))
                    = logged).
  { unfold logged, resolveSelected.
    rewrite (flat_map_map_compose resolve messages). reflexivity. }
  assert (Hobj : Forall (fun img => objNr img <> "") imagesToRemove).
  { apply Forall_forall. intros img Himg. apply list_elem_of_In in Himg.
    apply in_flat_map in Himg as (candidate & _ & Himg).
    apply in_map_iff in Himg as (occ & <- & Hocc).
    pose proof (resolveCandidate_within (imageOccurrences (scanOccurrences listing))
                  (allImageOccurrences (scanOccurrences listing)) candidate) as Hwithin.
    rewrite Forall_forall in Hwithin.
    assert (Hlisted : occ ∈ allImageOccurrences (scanOccurrences listing)).
    { apply Hwithin; [|apply list_elem_of_In, Hocc].
      intros id occs Hid.
      pose proof (scanOccurrences_agree listing id) as Hagree.
      unfold map_get in Hagree. rewrite Hid in Hagree. cbn in Hagree. subst occs.
      apply Forall_forall. intros occ' Hocc'.
      apply list_elem_of_filter in Hocc' as [_ Hocc']. exact Hocc'. }
    pose proof (scanOccurrences_records listing) as Hrecords.
    rewrite Forall_forall in Hrecords. apply Hrecords in Hlisted.
    cbn [toRemove objNr]. tauto. }
  split.
  { intros candidate _ Hnil. apply resolveCandidate_warning, Hnil. }
  assert (Hout : out =
    if isEmpty imagesToRemove
    then (Returns (Some noMatchError), logged)
    else
      (b <- createBlankImage w (filepath_Dir w outFile) ;;
       match b with
       | inr err => ret (Returns (Some ("failed to create blank image: " +:+ err)))
       | inl blankImagePath =>
           e <- removeChain w outFile blankImagePath (Z.of_nat (length imagesToRemove))
                  imagesToRemove 0 inFile [] ;;
           osRemove blankImagePath ;;; ret (Returns e)
       end) logged).
  { unfold out, removeImagesByIDs. unfold bind at 1. rewrite Hanalysis.
    unfold bind at 1. unfold execCommandWithTimeout at 1. rewrite Hlisting. cbn [fst snd].
    unfold bind at 1. rewrite logAll_events, <- app_assoc.
    rewrite Himages, Hlogged.
    destruct (isEmpty imagesToRemove); reflexivity. }
  rewrite Hout. clear Hout.
  destruct imagesToRemove as [|img imgs] eqn:E.
  - cbn [isEmpty length Z.of_nat Z.eqb fst snd].
    split; [tauto|]. split; [auto|]. intros Hne. congruence.
  - replace (isEmpty (img :: imgs)) with false by (symmetry; apply isEmpty_false; discriminate).
    unfold bind, createBlankImage, osRemove, ret. cbv beta iota.
    destruct (blank_image w logged (filepath_Dir w outFile)) as [blank|err]; cbn [fst snd].
    + pose proof (removeChain_error w outFile blank (Z.of_nat (length (img :: imgs)))
                    (img :: imgs) 0 inFile []
                    (logged ++ [CreateBlankImage (filepath_Dir w outFile)])) as Herr.
      destruct (removeChain_first w outFile blank (Z.of_nat (length (img :: imgs)))
                  img imgs inFile []
                  (logged ++ [CreateBlankImage (filepath_Dir w outFile)]))
        as (tempFile & tail & Hfirst).
      { inversion Hobj; assumption. }
      destruct (removeChain _ _ _ _ _ _ _ _ _) as [e h'] eqn:Echain.
      cbn [fst snd] in *.
      split; [split; [intros [= ->]; congruence|discriminate]|].
      split; [discriminate|]. intros _. split; [reflexivity|].
      exists img, tempFile, tail. split; [reflexivity|exact Hfirst].
    + cbn [fst snd].
      split; [split; [intros Heq; discriminate Heq|discriminate]|].
      split; [discriminate|]. intros _. reflexivity.
Qed.

Lemma removeImagesByIDs_no_match_witness :
  removeImagesByIDs (scripted "Pages: 2" resolved_and_unresolved_listing None) forward
    "in.pdf" "out.pdf"
    ["repeating_unwanted_element_50x50_De"; "repeating_unwanted_element_60x60_De"] []
  = (Returns None,
     [Exec DefaultCLITimeout ["pdfcpu"; "info"; "in.pdf"];
      Exec AnalysisTimeout ["pdfcpu"; "images"; "list"; "in.pdf"];
      Exec DefaultCLITimeout ["pdfcpu"; "images"; "list"; "in.pdf"];
      Log ("Attempting signature-based matching for candidate repeating_unwanted_element_50x50_De"
           +:+ " (signature: 50x50_DeviceRGB_10KB_prefix:unknown, prefix: unknown)");
      Log "Extracted prefix 'unknown' from signature for candidate repeating_unwanted_element_50x50_De";
      Log ("Warning: Cannot find any occurrences for candidate repeating_unwanted_element_50x50_De"
           +:+ " (image_id: , prefix: unknown)");
      Log ("Attempting signature-based matching for candidate repeating_unwanted_element_60x60_De"
           +:+ " (signature: 60x60_DeviceRGB_10KB_prefix:Im0, prefix: unknown)");
      Log "Extracted prefix 'Im0' from signature for candidate repeating_unwanted_element_60x60_De";
      Log ("Found 2 occurrences by signature-derived prefix 'Im0' (case-insensitive)"
           +:+ " for candidate repeating_unwanted_element_60x60_De");
      Log "Total occurrences to remove for candidate repeating_unwanted_element_60x60_De: 2";
      CreateBlankImage "/tmp";
      Exec DefaultCLITimeout
        ["pdfcpu"; "images"; "update"; "in.pdf"; "/tmp/blank_1x1.png"; "/tmp/temp_0_out.pdf";
         "21"];
      Exec DefaultCLITimeout
        ["pdfcpu"; "images"; "update"; "/tmp/temp_0_out.pdf"; "/tmp/blank_1x1.png"; "out.pdf";
         "22"];
      RemoveFile "/tmp/temp_0_out.pdf";
      RemoveFile "/tmp/blank_1x1.png"]).
Proof.
  pose proof (removeImagesByIDs_no_match
                (scripted "Pages: 2" resolved_and_unresolved_listing None) forward
                "in.pdf" "out.pdf"
                ["repeating_unwanted_element_50x50_De"; "repeating_unwanted_element_60x60_De"]
                (summarize 2 (imageCandidates forward 2 resolved_and_unresolved_listing) [])
                [Exec DefaultCLITimeout ["pdfcpu"; "info"; "in.pdf"];
                 Exec AnalysisTimeout ["pdfcpu"; "images"; "list"; "in.pdf"]]
                resolved_and_unresolved_listing) as Hrun.
  cbv zeta in Hrun.
  destruct Hrun as (_ & _ & _ & Hrun).
  - vm_compute. reflexivity.
  - vm_compute. reflexivity.
  - assert (Hsome : flat_map
                      (fun candidate =>
                         map toRemove
                           (foundOccurrences
                              (resolveCandidate
                                 (imageOccurrences
                                    (scanOccurrences resolved_and_unresolved_listing))
                                 (allImageOccurrences
                                    (scanOccurrences resolved_and_unresolved_listing))
                                 candidate)))
                      (filter
                         (fun candidate =>
                            ID candidate
                            ∈ selectedSet ["repeating_unwanted_element_50x50_De";
                                           "repeating_unwanted_element_60x60_De"])
                         (ImageCandidates
                            (summarize 2
                               (imageCandidates forward 2 resolved_and_unresolved_listing) [])))
                    <> []).
    { vm_compute. discriminate. }
    specialize (Hrun Hsome). vm_compute in Hrun. destruct Hrun as [Hout _].
    vm_compute. exact Hout.
Defined.

(** C5, as the specification words it, fails where an external removal
    call fails: the candidate resolves to two occurrences and the
    operation still returns an error. *)
Lemma removeImagesByIDs_error_with_occurrences :
  let w := scripted "Pages: 2" same_image_listing (Some "command failed: exit status 1") in
  let analysis := summarize 2 (imageCandidates forward 2 same_image_listing) [] in
  let ids := ["fullpage_watermark_Image_35KB"] in
  fst (AnalyzeUnwantedElements w forward "in.pdf" []) = Returns analysis
  /\ length (collectImages (resolveSelected analysis ids (scanOccurrences same_image_listing)))
     = 2%nat
  /\ fst (removeImagesByIDs w forward "in.pdf" "out.pdf" ids [])
     = Returns (Some "failed to remove image (obj:11, page:1, id:Image-1): command failed: exit status 1").
Proof. vm_compute. auto. Qed.

(** ** C8: the splitting of a row *)

Lemma splitRow_by_presence line : splitRow line = fields_by (present_style line) line.
Proof.
  unfold splitRow, fields_by, present_style.
  destruct (Contains line box); [reflexivity|].
  destruct (Contains line "|"); [reflexivity|].
  destruct (Contains line tab); reflexivity.
Qed.

Lemma scanLine_row st line :
  table_row_line st line -> scanLine st line = scanRow st (splitRow line).
Proof.
  intros (Hend & Hheader & Htable & Hblank & Hsummary & Hsep).
  unfold scanLine. rewrite Hend, Hheader, Htable, Hsummary, Hsep. cbn [negb andb orb].
  destruct (String.eqb_spec (TrimSpace line) ""); [contradiction|reflexivity].
Qed.

(** C8, as the code has it.  A row is split with one style only: the
    first, in the order box-drawing separator, pipe, tab, whose separator
    occurs in the row, and the runs of two or more spaces when none
    occurs.  When that style yields fewer than 3 non-empty fields the row
    is skipped: no image is recorded and no other style is tried.  When
    it yields at least 3, the row is read from these fields.  The style
    is chosen for each row from the text of the row alone, so the rows of
    one report may be of different styles. *)
Theorem row_split_by_presence (st : tableScan) (line : string) :
  table_row_line st line ->
  let parts := fields_by (present_style line) line in
  splitRow line = parts
  /\ (Z.of_nat (length parts) < 3 ->
      scanLine st line
      = mkTableScan (inTable st) (headerFound st) (atEnd st) (allImages st)
                    (imagesByPage st) (linesProcessed st) (linesSkipped st + 1))
  /\ (3 <= Z.of_nat (length parts) -> scanLine st line = scanRow st parts).
Proof.
  intros Hrow parts. split; [apply splitRow_by_presence|].
  rewrite (scanLine_row st line Hrow), splitRow_by_presence. fold parts.
  split; [|reflexivity].
  intros Hfew. unfold scanRow.
  destruct (Z.ltb_spec (Z.of_nat (length parts)) 3); [reflexivity|lia].
Qed.

Lemma row_split_by_presence_witness :
  present_style stray_pipe_row = PipeColumns
  /\ allImages (scanLine in_table stray_pipe_row) = []
  /\ linesSkipped (scanLine in_table stray_pipe_row) = 1.
Proof.
  split; [vm_compute; reflexivity|].
  destruct (row_split_by_presence in_table stray_pipe_row) as (_ & Hskipped & _).
  - vm_compute. repeat split; discriminate.
  - rewrite Hskipped; [split; reflexivity|]. vm_compute. reflexivity.
Defined.

(** C8, as the specification words it, fails on a row whose columns are
    separated by spaces and whose identifier holds a pipe: the first
    style that yields 3 fields is the runs of spaces, with 13 fields, but
    the parser splits at the pipe, finds 2 fields and skips the row. *)
Lemma stray_pipe_counterexample :
  first_yielding stray_pipe_row = Some SpaceRuns
  /\ length (fields_by SpaceRuns stray_pipe_row) = 13%nat
  /\ map raw_id (allImages (scanRow in_table (fields_by SpaceRuns stray_pipe_row))) = ["Im|1"]
  /\ length (splitRow stray_pipe_row) = 2%nat
  /\ allImages (scanTable (lines [spaced_header; stray_pipe_row])) = [].
Proof. vm_compute. auto 6. Qed.

(** ** The indexes of the analysis *)

Lemma foldl_project {A A' B} (proj : A -> A') (f : A -> B -> A) (f' : A' -> B -> A') l a :
  (forall a x, proj (f a x) = f' (proj a) x) -> proj (foldl f a l) = foldl f' (proj a) l.
Proof.
  intros Hf. revert a. induction l as [|x l IH]; intros a; simpl; [reflexivity|].
  rewrite IH, Hf. reflexivity.
Qed.

Section GroupBy.

Context `{Countable K} {X A : Type}.
Variable key : X -> option K.
Variable val : X -> A.

Let step (m : gmap K (list A)) (x : X) : gmap K (list A) :=
  match key x with
  | Some k => map_append k (val x) m
  | None => m
  end.

(** The entry of a key after a loop of [append]s: what it held before,
    followed by the values of the elements with that key, in the order
    of the loop. *)
Lemma group_fold_lookup l m k :
  foldl step m l !! k =
    match filter (fun x => key x = Some k) l with
    | [] => m !! k
    | ys => Some (map_get m k ++ map val ys)
    end.
Proof.
  revert m. induction l as [|x l IH]; intros m; [reflexivity|].
  cbn [foldl]. rewrite IH. unfold step.
  destruct (key x) as [k'|] eqn:Ekey.
  - destruct (decide (k' = k)) as [->|Hne].
    + rewrite filter_cons_True by exact Ekey.
      unfold map_get at 1. rewrite !map_append_lookup.
      destruct (decide (k = k)); [|congruence]. cbv [default from_option id].
      destruct (filter _ l) as [|y ys]; [reflexivity|].
      rewrite <- app_assoc. reflexivity.
    + rewrite filter_cons_False by congruence.
      unfold map_get at 1. rewrite !map_append_lookup.
      destruct (decide (k' = k)); [congruence|]. reflexivity.
  - rewrite filter_cons_False by congruence. reflexivity.
Qed.

Lemma group_fold_empty l k ys :
  foldl step ∅ l !! k = Some ys <->
  ys = map val (filter (fun x => key x = Some k) l) /\ ys <> [].
Proof.
  rewrite group_fold_lookup. unfold map_get. rewrite lookup_empty. cbv [default from_option id]. cbn [app].
  destruct (filter _ l) as [|y l']; cbn [map].
  - split; [discriminate|]. intros [-> Hne]. congruence.
  - split; [intros [= <-]; split; [reflexivity|discriminate]|intros [-> _]; reflexivity].
Qed.

End GroupBy.

Lemma foldl_ext_eq {A B} (f g : A -> B -> A) l a :
  (forall a x, f a x = g a x) -> foldl f a l = foldl g a l.
Proof.
  intros Hfg. revert a. induction l as [|x l IH]; intros a; simpl; [reflexivity|].
  rewrite Hfg. apply IH.
Qed.

(** The size group of a key: the images of the prefix with that key, in
    the order of the loop. *)
Lemma groupBySize_lookup images sizeKey sizeGroup :
  groupBySize images !! sizeKey = Some sizeGroup <->
  sizeGroup = filter (fun imgPage => size_key imgPage = Some sizeKey) images
  /\ sizeGroup <> [].
Proof.
  unfold groupBySize.
  rewrite (foldl_ext_eq _
             (fun m x => match size_key x with
                         | Some k => map_append k (id x) m
                         | None => m
                         end)).
  - rewrite (group_fold_empty size_key id). rewrite map_id. reflexivity.
  - intros m x. unfold size_key. destruct (F64.geb _ _); reflexivity.
Qed.

Lemma groupImages_scheduled sched byPage :
  groupImages sched byPage
  = foldl (fun g imgPage => groupImage (iwp_page imgPage) g (iwp_img imgPage))
          (mkGrouping ∅ ∅) (scheduled_images sched byPage).
Proof.
  unfold groupImages, scheduled_images.
  generalize (mkGrouping ∅ ∅). induction (order_pages sched (map_to_list byPage)) as [|entry l IH];
    intros g; [reflexivity|].
  cbn [foldl flat_map]. rewrite foldl_app, <- IH. f_equal.
  generalize g. induction (snd entry) as [|img imgs IHi]; intros g'; [reflexivity|].
  cbn [foldl map]. apply IHi.
Qed.

(** The entry of a prefix in the prefix index: the images with that
    prefix, in the order of the loop. *)
Lemma imagesByPrefix_lookup sched byPage prefix images :
  imagesByPrefix (groupImages sched byPage) !! prefix = Some images <->
  images = filter (fun imgPage => prefix_key imgPage = Some prefix)
                  (scheduled_images sched byPage)
  /\ images <> [].
Proof.
  rewrite groupImages_scheduled.
  rewrite (foldl_project imagesByPrefix _
             (fun m x => match prefix_key x with
                         | Some k => map_append k (id x) m
                         | None => m
                         end)).
  - cbn [imagesByPrefix]. rewrite (group_fold_empty prefix_key id). rewrite map_id. reflexivity.
  - intros g x. unfold groupImage, prefix_key. cbn [imagesByPrefix].
    destruct (String.eqb _ "unknown"); destruct x; reflexivity.
Qed.

Lemma scheduled_images_perm sched byPage :
  scheduled_images sched byPage
  ≡ₚ flat_map (fun entry => map (fun img => mkImageWithPage img (fst entry)) (snd entry))
              (map_to_list byPage).
Proof. unfold scheduled_images. apply Permutation_flat_map, order_pages_perm. Qed.

(** The images that the loop visits are the images of the pages. *)
Lemma elem_of_scheduled_images sched byPage imgPage :
  imgPage ∈ scheduled_images sched byPage <->
  iwp_img imgPage ∈ map_get byPage (iwp_page imgPage).
Proof.
  rewrite scheduled_images_perm. rewrite list_elem_of_In, in_flat_map. split.
  - intros ([page imgs] & Hentry & Hin). cbn [fst snd] in Hin.
    apply in_map_iff in Hin as (img & <- & Himg). cbn [iwp_img iwp_page].
    apply list_elem_of_In, elem_of_map_to_list in Hentry.
    unfold map_get. rewrite Hentry. apply list_elem_of_In, Himg.
  - intros Hin. unfold map_get in Hin.
    destruct (byPage !! iwp_page imgPage) as [imgs|] eqn:E; [|inversion Hin].
    exists (iwp_page imgPage, imgs). split.
    + apply list_elem_of_In, elem_of_map_to_list, E.
    + cbn [fst snd]. apply in_map_iff. exists (iwp_img imgPage).
      split; [destruct imgPage; reflexivity|apply list_elem_of_In, Hin].
Qed.

(** ** C1: a group at the coverage threshold *)

Lemma flat_map_nil {A B} (f : A -> list B) l :
  (forall x, In x l -> f x = []) -> flat_map f l = [].
Proof.
  induction l as [|x l IH]; intros Hf; [reflexivity|]. simpl.
  rewrite (Hf x) by (left; reflexivity). apply IH. intros y Hy. apply Hf. right. exact Hy.
Qed.

(** The first pass emits nothing for a size group with fewer images than
    the document has pages. *)
Lemma sizeGroupCandidates_short totalPages prefix sizeKey sizeGroup :
  Z.of_nat (length sizeGroup) < totalPages ->
  sizeGroupCandidates totalPages prefix sizeKey sizeGroup = [].
Proof.
  intros Hshort. unfold sizeGroupCandidates.
  destruct (Z.ltb_spec (Z.of_nat (length sizeGroup)) totalPages); [reflexivity|lia].
Qed.

Lemma detectFullPage_few_images sched byPage totalPages :
  Z.of_nat (length (scheduled_images sched byPage)) < totalPages ->
  detectFullPageUnwantedElements sched (imagesByPrefix (groupImages sched byPage)) totalPages
  = [].
Proof.
  intros Hfew. unfold detectFullPageUnwantedElements.
  apply flat_map_nil. intros [prefix images] Hentry. cbn [fst snd].
  apply In_scheduled in Hentry; [|apply order_prefixes_perm].
  apply elem_of_map_to_list, imagesByPrefix_lookup in Hentry as [-> _].
  unfold prefixCandidates.
  destruct (_ <? minPagesFor totalPages); [reflexivity|].
  destruct (_ =? 0); [reflexivity|].
  apply flat_map_nil. intros [sizeKey sizeGroup] Hgroup. cbn [fst snd].
  apply In_scheduled in Hgroup; [|apply order_sizes_perm].
  apply elem_of_map_to_list, groupBySize_lookup in Hgroup as [-> _].
  apply sizeGroupCandidates_short.
  pose proof (length_filter (fun imgPage => size_key imgPage = Some sizeKey)
                (filter (fun imgPage => prefix_key imgPage = Some prefix)
                        (scheduled_images sched byPage))).
  pose proof (length_filter (fun imgPage => prefix_key imgPage = Some prefix)
                (scheduled_images sched byPage)).
  lia.
Qed.

Lemma repeatingCandidates_type byPage totalPages signature pages c :
  In c (repeatingCandidates byPage totalPages signature pages) ->
  Metadata c !! "type" = Some "repeating_unwanted_element".
Proof.
  unfold repeatingCandidates.
  destruct (_ || _); [|intros []].
  destruct pages as [|firstPage pages]; [intros []|].
  intros [<-|[]]. reflexivity.
Qed.

Lemma detectRepeating_type sched byPage totalPages handled signatures c :
  In c (detectRepeating sched byPage totalPages handled signatures) ->
  Metadata c !! "type" = Some "repeating_unwanted_element".
Proof.
  unfold detectRepeating. intros Hin.
  apply in_flat_map in Hin as ([signature pages] & _ & Hin). cbn [fst snd] in Hin.
  destruct (decide _); [destruct Hin|].
  eapply repeatingCandidates_type, Hin.
Qed.

(** C1, on the document of five pages whose pages 1 to 4 carry one image
    each of prefix ["Image"] and size 35.2KB.  The group covers 4 of the
    5 pages, which meets the threshold; whatever the order of the loops,
    the first pass emits no candidate, and no candidate of the analysis
    has the type ["repeating_watermark"]. *)
Theorem threshold_group_not_detected (sched : Scheduler) :
  map (fun img => (raw_page img, raw_id img, raw_size img))
      (allImages (scanTable eighty_percent_listing))
  = [(1, "Image-1", "35.2KB"); (2, "Image-1", "35.2KB");
     (3, "Image-1", "35.2KB"); (4, "Image-1", "35.2KB")]
  /\ F64.geb (F64.div (F64.of_int 4) (F64.of_int 5)) (F64.Fin MinPageCoverageThreshold) = true
  /\ detectFullPageUnwantedElements sched
       (imagesByPrefix (groupImages sched (imagesByPage (scanTable eighty_percent_listing)))) 5
     = []
  /\ (forall c, In c (imageCandidates sched 5 eighty_percent_listing) ->
        Metadata c !! "type" <> Some "repeating_watermark").
Proof.
  assert (Hnone : detectFullPageUnwantedElements sched
            (imagesByPrefix (groupImages sched (imagesByPage (scanTable eighty_percent_listing)))) 5
          = []).
  { apply detectFullPage_few_images.
    rewrite (Permutation_length (scheduled_images_perm _ _)). vm_compute. reflexivity. }
  split; [vm_compute; reflexivity|]. split; [vm_compute; reflexivity|].
  split; [exact Hnone|].
  intros c Hc. unfold imageCandidates in Hc. rewrite Hnone in Hc. cbn [app] in Hc.
  apply detectRepeating_type in Hc. rewrite Hc. discriminate.
Qed.

(** ** C2: the representative of a candidate *)

Lemma order_single {A} (order : list A -> list A) (x : A) :
  order [x] ≡ₚ [x] -> order [x] = [x].
Proof. apply Permutation_singleton_r. Qed.

Lemma order_none {A} (order : list A -> list A) :
  order [] ≡ₚ [] -> order [] = [].
Proof. apply Permutation_nil_r. Qed.

Lemma order_pair {A} (order : list A -> list A) (x y : A) :
  order [x; y] ≡ₚ [x; y] -> order [x; y] = [x; y] \/ order [x; y] = [y; x].
Proof.
  intros Hp. destruct (order [x; y]) as [|a [|b [|c l]]] eqn:E.
  - apply Permutation_nil_l in Hp. discriminate.
  - apply Permutation_length in Hp. discriminate.
  - apply Permutation_length_2 in Hp as [[-> ->]|[-> ->]]; auto.
  - apply Permutation_length in Hp. discriminate.
Qed.

(** The loops over a map with a known content: the map is evaluated; a
    loop over at most one entry has one order, a loop over two entries
    has two. *)
Ltac resolve_order sched order perm l :=
  lazymatch l with
  | context [sched] => fail
  | _ =>
      let l' := eval vm_compute in l in
      change (order l) with (order l');
      lazymatch l' with
      | [] => rewrite (order_none order (perm []))
      | [?x] => rewrite (order_single order x (perm [x]))
      | [?x; ?y] => destruct (order_pair order x y (perm [x; y])) as [-> | ->]
      end
  end.

Ltac schedule_loops sched :=
  repeat match goal with
  | |- context [order_pages sched ?l] =>
      resolve_order sched (order_pages sched) (order_pages_perm sched) l
  | |- context [order_prefixes sched ?l] =>
      resolve_order sched (order_prefixes sched) (order_prefixes_perm sched) l
  | |- context [order_signatures sched ?l] =>
      resolve_order sched (order_signatures sched) (order_signatures_perm sched) l
  | |- context [order_sizes sched ?p ?l] =>
      resolve_order sched (order_sizes sched p) (order_sizes_perm sched p) l
  end.

(** C2, on the document of two pages that carry the same small image
    ["Im0"].  Whatever the order of the loops, the analysis emits one
    candidate, from the second pass, for the signature of the two
    images; its [image_id] and [object] are empty, while the two records
    of its group have the identifier ["Im0"] and the objects ["11"] and
    ["12"]. *)
Theorem repeating_candidate_without_representative (sched : Scheduler) :
  map (fun img => (raw_page img, raw_obj img, raw_id img))
      (allImages (scanTable small_image_listing))
  = [(1, "11", "Im0"); (2, "12", "Im0")]
  /\ exists c,
      imageCandidates sched 2 small_image_listing = [c]
      /\ ID c = "repeating_unwanted_element_100x100_"
      /\ Metadata c !! "signature" = Some "100x100_DeviceRGB_10KB_prefix:Im0"
      /\ Metadata c !! "page_count" = Some "2"
      /\ Metadata c !! "image_id" = Some ""
      /\ Metadata c !! "object" = Some "".
Proof.
  split; [vm_compute; reflexivity|].
  unfold imageCandidates, detectFullPageUnwantedElements, detectRepeating, groupImages.
  schedule_loops sched.
  - eexists. split; [vm_compute; reflexivity|]. vm_compute. auto 6.
  - eexists. split; [vm_compute; reflexivity|]. vm_compute. auto 6.
Qed.

(** ** C3: the order of the loops *)

(** C3, on the document of two pages whose images share their prefix and
    their size and differ in their dimensions.  Two orders of the loop
    over the pages, both allowed to [range], give candidates with
    different descriptions, different representatives and different
    sets of identifiers; and [hasContinuousRange] tells a run of three
    consecutive pages only when they come in ascending order. *)
Theorem analysis_depends_on_map_order :
  map (fun c => (ID c, Description c, Metadata c !! "image_id"))
      (imageCandidates forward 2 two_shapes_listing)
  = [("fullpage_watermark_Image_35KB",
      "Unwanted element (prefix 'Image'): size 200x200 (DeviceRGB), file size 35KB, appears on 2/2 pages (100%)",
      Some "Image-2");
     ("repeating_unwanted_element_100x100_",
      "Repeating unwanted element image: size 0x0 (), appears on 1/2 pages ()",
      Some "")]
  /\ map (fun c => (ID c, Description c, Metadata c !! "image_id"))
         (imageCandidates backward 2 two_shapes_listing)
     = [("fullpage_watermark_Image_35KB",
         "Unwanted element (prefix 'Image'): size 100x100 (DeviceRGB), file size 35KB, appears on 2/2 pages (100%)",
         Some "Image-1");
        ("repeating_unwanted_element_200x200_",
         "Repeating unwanted element image: size 0x0 (), appears on 1/2 pages ()",
         Some "")]
  /\ hasContinuousRange [1; 2; 3] 3 = true
  /\ hasContinuousRange [2; 1; 3] 3 = false.
Proof. vm_compute. auto. Qed.

(** ** C6: a group on every page *)

(** *** Underscores in the identifier of a candidate *)

Lemma mem_char_cons c d s : mem_char c (String d s) = Ascii.eqb c d || mem_char c s.
Proof. reflexivity. Qed.

Lemma mem_char_append c (a b : string) :
  mem_char c (a +:+ b) = mem_char c a || mem_char c b.
Proof.
  induction a as [|d a IH]; [reflexivity|].
  change (String d a +:+ b) with (String d (a +:+ b)).
  rewrite !mem_char_cons, IH, orb_assoc. reflexivity.
Qed.

Lemma digit_char_not_underscore d : 0 <= d < 10 -> Ascii.eqb "_" (digit_char d) = false.
Proof.
  intros Hd. assert (Hcases : d = 0 \/ d = 1 \/ d = 2 \/ d = 3 \/ d = 4 \/ d = 5
                              \/ d = 6 \/ d = 7 \/ d = 8 \/ d = 9) by lia.
  repeat (destruct Hcases as [->|Hcases]; [reflexivity|]). subst d. reflexivity.
Qed.

Lemma digits_of_no_underscore fuel n acc :
  mem_char "_" acc = false -> mem_char "_" (digits_of fuel n acc) = false.
Proof.
  revert n acc. induction fuel as [|fuel IH]; intros n acc Hacc; [exact Hacc|].
  cbn [digits_of].
  assert (Hacc' : mem_char "_" (String (digit_char (n mod 10)) acc) = false).
  { rewrite mem_char_cons, Hacc, digit_char_not_underscore; [reflexivity|].
    apply Z.mod_pos_bound. lia. }
  destruct (n <? 10); [exact Hacc'|]. apply IH, Hacc'.
Qed.

Lemma decimal_no_underscore n : mem_char "_" (decimal n) = false.
Proof. apply digits_of_no_underscore. reflexivity. Qed.

Lemma sizeKey_no_underscore v : mem_char "_" (sizeKey_of v) = false.
Proof.
  unfold sizeKey_of. rewrite mem_char_append.
  replace (mem_char "_" "KB") with false by reflexivity. rewrite orb_false_r.
  destruct v as [q| | |]; try reflexivity.
  unfold F64.format0. destruct (F64.sgn q).
  - apply decimal_no_underscore.
  - rewrite mem_char_cons, decimal_no_underscore. reflexivity.
  - apply decimal_no_underscore.
Qed.

(** A text that ends with an underscore and a part without underscore is
    cut in one way only. *)
Lemma cut_at_last_underscore (p p' sk sk' : string) :
  mem_char "_" sk = false -> mem_char "_" sk' = false ->
  p +:+ String "_" sk = p' +:+ String "_" sk' -> p = p' /\ sk = sk'.
Proof.
  intros Hsk Hsk'. revert p'. induction p as [|c p IH]; intros [|c' p'] Heq.
  - injection Heq as ->. auto.
  - change ("" +:+ String "_" sk) with (String "_" sk) in Heq.
    change (String c' p' +:+ String "_" sk') with (String c' (p' +:+ String "_" sk')) in Heq.
    injection Heq as <- ->.
    rewrite mem_char_append, mem_char_cons in Hsk. cbn in Hsk.
    rewrite orb_true_r in Hsk. discriminate.
  - change ("" +:+ String "_" sk') with (String "_" sk') in Heq.
    change (String c p +:+ String "_" sk) with (String c (p +:+ String "_" sk)) in Heq.
    injection Heq as -> <-.
    rewrite mem_char_append, mem_char_cons in Hsk'. cbn in Hsk'.
    rewrite orb_true_r in Hsk'. discriminate.
  - change (String c p +:+ String "_" sk) with (String c (p +:+ String "_" sk)) in Heq.
    change (String c' p' +:+ String "_" sk') with (String c' (p' +:+ String "_" sk')) in Heq.
    injection Heq as -> Heq. destruct (IH p' Heq) as [-> ->]. auto.
Qed.

(** The identifier that the first pass gives to a size group *)
Lemma sizeGroupCandidates_ID totalPages prefix sizeKey sizeGroup c :
  In c (sizeGroupCandidates totalPages prefix sizeKey sizeGroup) ->
  is_group_ID prefix sizeKey (ID c).
Proof.
  unfold sizeGroupCandidates, is_group_ID.
  destruct (_ <? totalPages); [intros []|].
  destruct (coverSizeGroup sizeGroup) as [pagesCovered representativeImg].
  destruct (F64.geb _ _); [|intros []].
  destruct (_ =? totalPages); intros [<-|[]]; auto.
Qed.

Lemma group_ID_inj prefix sizeKey prefix' sizeKey' id :
  mem_char "_" sizeKey = false -> mem_char "_" sizeKey' = false ->
  is_group_ID prefix sizeKey id -> is_group_ID prefix' sizeKey' id ->
  prefix = prefix' /\ sizeKey = sizeKey'.
Proof.
  intros Hsk Hsk' [-> | ->] [Heq | Heq]; try discriminate Heq.
  - apply (inj (String.append "fullpage_watermark_")) in Heq.
    apply cut_at_last_underscore in Heq as [-> ->]; auto.
  - apply (inj (String.append "repeating_watermark_")) in Heq.
    apply cut_at_last_underscore in Heq as [-> ->]; auto.
Qed.

(** *** The pages that a size group covers *)

Lemma coverSizeGroup_pages sizeGroup :
  fst (coverSizeGroup sizeGroup) = list_to_set (map iwp_page sizeGroup).
Proof.
  unfold coverSizeGroup.
  rewrite (foldl_project fst _ (fun (S : gset Z) imgPage => {[iwp_page imgPage]} ∪ S)).
  - cbn [fst].
    assert (Hgen : forall S : gset Z,
               foldl (fun (S : gset Z) imgPage => {[iwp_page imgPage]} ∪ S) S sizeGroup
               = list_to_set (map iwp_page sizeGroup) ∪ S).
    { induction sizeGroup as [|x l IH]; intros S; cbn [foldl map list_to_set].
      - rewrite (left_id_L ∅ (∪)). reflexivity.
      - rewrite IH, (assoc_L (∪)), (comm_L (∪) (list_to_set _) {[_]}). reflexivity. }
    rewrite Hgen. apply (right_id_L ∅ (∪)).
  - intros [S r] x. reflexivity.
Qed.

Lemma size_list_to_set_le (l : list Z) : (size (list_to_set l : gset Z) <= length l)%nat.
Proof.
  induction l as [|x l IH]; cbn [list_to_set length].
  - rewrite size_empty. lia.
  - rewrite size_union_alt, size_singleton.
    pose proof (subseteq_size (list_to_set l ∖ {[x]}) (list_to_set l : gset Z)) as Hsub.
    assert ((list_to_set l ∖ {[x]} : gset Z) ⊆ list_to_set l).
    { apply elem_of_subseteq. intros y Hy. apply elem_of_difference in Hy as [Hy _]. exact Hy. }
    specialize (Hsub ltac:(assumption)). lia.
Qed.

Lemma size_page_range (S : gset Z) (n : Z) :
  (forall x, x ∈ S <-> 1 <= x <= n) -> Z.of_nat (size S) = Z.max 0 n.
Proof.
  intros HS. assert (S = list_to_set (seqZ 1 n)) as ->.
  { apply set_eq. intros x. rewrite elem_of_list_to_set, elem_of_seqZ, HS. lia. }
  rewrite size_list_to_set by apply NoDup_seqZ. rewrite length_seqZ. lia.
Qed.

Lemma Qle_bool_self_ratio (n : Z) :
  0 < n -> Qle_bool MinPageCoverageThreshold (inject_Z n / inject_Z n) = true.
Proof.
  intros Hn. apply Qle_bool_iff.
  assert (Heq : (inject_Z n / inject_Z n == 1)%Q).
  { apply Qmult_inv_r. unfold Qeq. simpl. lia. }
  rewrite Heq. unfold MinPageCoverageThreshold, Qle. simpl. lia.
Qed.

(** A size group that has at least as many images as the document has
    pages and covers exactly its pages gives the full-page candidate. *)
Lemma sizeGroupCandidates_full totalPages prefix sizeKey sizeGroup :
  0 < totalPages ->
  (forall x, x ∈ (list_to_set (map iwp_page sizeGroup) : gset Z) <-> 1 <= x <= totalPages) ->
  exists c,
    sizeGroupCandidates totalPages prefix sizeKey sizeGroup = [c]
    /\ ID c = "fullpage_watermark" +:+ "_" +:+ prefix +:+ "_" +:+ sizeKey
    /\ Confidence c = F64.Fin (95 # 100)
    /\ Metadata c !! "type" = Some "fullpage_watermark".
Proof.
  intros Hpos Hpages. unfold sizeGroupCandidates.
  pose proof (size_page_range _ _ Hpages) as Hsize.
  pose proof (size_list_to_set_le (map iwp_page sizeGroup)) as Hle.
  rewrite length_map in Hle.
  destruct (Z.ltb_spec (Z.of_nat (length sizeGroup)) totalPages) as [Hshort|_]; [lia|].
  pose proof (coverSizeGroup_pages sizeGroup) as Hcover.
  destruct (coverSizeGroup sizeGroup) as [pagesCovered representativeImg].
  cbn [fst] in Hcover. subst pagesCovered.
  rewrite Hsize, Z.max_r by lia.
  assert (Hratio : F64.geb (F64.div (F64.of_int totalPages) (F64.of_int totalPages))
                     (F64.Fin MinPageCoverageThreshold) = true).
  { unfold F64.div, F64.of_int, F64.sgn. cbn [inject_Z Qnum].
    destruct (Z.compare_spec totalPages 0); try lia; cbn [F64.geb];
      apply Qle_bool_self_ratio; assumption. }
  rewrite Hratio, Z.eqb_refl.
  eexists. split; [reflexivity|]. cbn [ID Confidence Metadata]. auto.
Qed.

(** *** One candidate for an entry of a map *)

Lemma filter_none {B} (P : B -> Prop) `{!forall b, Decision (P b)} (l : list B) :
  (forall b, In b l -> ~ P b) -> filter P l = [].
Proof.
  induction l as [|b l IH]; intros Hl; [reflexivity|].
  rewrite filter_cons_False by (apply Hl; left; reflexivity).
  apply IH. intros b' Hb'. apply Hl. right. exact Hb'.
Qed.

(** In a loop over the entries of a map that collects what a body [F]
    emits for each entry, the emitted elements with a property [P] that
    only the entry of the key [k] can give are those that [F] emits for
    that entry, whatever the order of the loop. *)
Lemma filter_flat_map_entry `{Countable K} {A B} (m : gmap K A) (l : list (K * A))
    (F : K * A -> list B) (P : B -> Prop) `{!forall b, Decision (P b)} (k : K) (a : A) :
  l ≡ₚ map_to_list m ->
  m !! k = Some a ->
  (forall k' a' b, m !! k' = Some a' -> k' <> k -> In b (F (k', a')) -> ~ P b) ->
  filter P (flat_map F l) ≡ₚ filter P (F (k, a)).
Proof.
  intros Hl Hk Hother.
  rewrite (Permutation_flat_map F Hl).
  rewrite <- (Permutation_flat_map F (map_to_list_delete m k a Hk)).
  cbn [flat_map]. rewrite filter_app.
  rewrite (filter_none P (flat_map F (map_to_list (delete k m)))).
  - rewrite app_nil_r. reflexivity.
  - intros b Hb. apply in_flat_map in Hb as ([k' a'] & Hentry & Hb).
    apply list_elem_of_In, elem_of_map_to_list, lookup_delete_Some in Hentry as [Hne Hk'].
    eapply Hother; eauto.
Qed.

Lemma groupBySize_key_no_underscore images sizeKey sizeGroup :
  groupBySize images !! sizeKey = Some sizeGroup -> mem_char "_" sizeKey = false.
Proof.
  intros Hgroup. apply groupBySize_lookup in Hgroup as [-> Hne].
  destruct (filter _ images) as [|imgPage l] eqn:E; [congruence|].
  assert (Hin : imgPage ∈ filter (fun imgPage => size_key imgPage = Some sizeKey) images)
    by (rewrite E; left).
  apply list_elem_of_filter in Hin as [Hkey _].
  unfold size_key in Hkey. destruct (F64.geb _ _); [|discriminate].
  injection Hkey as <-. apply sizeKey_no_underscore.
Qed.

Lemma minPagesFor_le totalPages : 0 <= totalPages -> minPagesFor totalPages <= totalPages.
Proof.
  intros Hpos. unfold minPagesFor, F64.to_int, F64.mul, F64.of_int, MinPageCoverageThreshold.
  cbn [Qmult inject_Z Qnum Qden]. rewrite Z.mul_comm.
  change (Z.pos (1 * 10)) with 10.
  pose proof (Z.quot_le_mono (8 * totalPages) (10 * totalPages) 10 ltac:(lia) ltac:(lia)) as Hq.
  rewrite (Z.mul_comm 10), Z.quot_mul in Hq by lia. exact Hq.
Qed.

(** C6.  In a document of [totalPages] pages, take a prefix other than
    ["unknown"] and a size text that parses to at least 30KB, such that
    every page carries an image with that prefix and that size text
    (exactly one, or more), and such that the images of that prefix and
    size group lie on pages of the document.  Whatever the order of the
    loops, the first pass emits exactly one candidate with the group's
    identifier; its confidence is 0.95 and its type
    ["fullpage_watermark"]. *)
Theorem fullpage_group_detected (sched : Scheduler) (byPage : gmap Z (list imageInfo))
    (totalPages : Z) (prefix sizeStr : string) :
  let sizeKey := sizeKey_of (parseFileSizeKB sizeStr) in
  1 <= totalPages ->
  prefix <> "unknown" ->
  F64.geb (parseFileSizeKB sizeStr) (F64.Fin MinWatermarkFileSizeKB) = true ->
  (forall page, 1 <= page <= totalPages ->
     exists img, img ∈ map_get byPage page
                 /\ extractIdPrefix (img_id img) = prefix /\ img_size img = sizeStr) ->
  (forall page img, img ∈ map_get byPage page ->
     prefix_key (mkImageWithPage img page) = Some prefix ->
     size_key (mkImageWithPage img page) = Some sizeKey ->
     1 <= page <= totalPages) ->
  exists c,
    filter (fun c' => is_group_ID prefix sizeKey (ID c'))
           (detectFullPageUnwantedElements sched
              (imagesByPrefix (groupImages sched byPage)) totalPages)
    = [c]
    /\ ID c = "fullpage_watermark" +:+ "_" +:+ prefix +:+ "_" +:+ sizeKey
    /\ Confidence c = F64.Fin (95 # 100)
    /\ Metadata c !! "type" = Some "fullpage_watermark".
Proof.
  intros sizeKey Hpages Hprefix Hsize Hcover Hdoc.
  set (all := scheduled_images sched byPage).
  set (images := filter (fun imgPage => prefix_key imgPage = Some prefix) all).
  set (sizeGroup := filter (fun imgPage => size_key imgPage = Some sizeKey) images).
  (* every page of the document has an image of the size group *)
  assert (Hin : forall page, 1 <= page <= totalPages ->
            exists imgPage, imgPage ∈ sizeGroup /\ iwp_page imgPage = page).
  { intros page Hpage. destruct (Hcover page Hpage) as (img & Himg & Hp & Hs).
    exists (mkImageWithPage img page). split; [|reflexivity].
    apply list_elem_of_filter. split.
    - unfold size_key. cbn [iwp_img]. rewrite Hs, Hsize. reflexivity.
    - apply list_elem_of_filter. split.
      + unfold prefix_key. cbn [iwp_img]. rewrite Hp.
        destruct (String.eqb_spec prefix "unknown"); [contradiction|reflexivity].
      + apply elem_of_scheduled_images. exact Himg. }
  (* the pages of the size group are the pages of the document *)
  assert (Hset : forall x, x ∈ (list_to_set (map iwp_page sizeGroup) : gset Z)
                           <-> 1 <= x <= totalPages).
  { intros x. rewrite elem_of_list_to_set, list_elem_of_In, in_map_iff. split.
    - intros ([img page] & <- & Hmem). apply list_elem_of_In in Hmem.
      apply list_elem_of_filter in Hmem as [Hs Hmem].
      apply list_elem_of_filter in Hmem as [Hp Hmem].
      apply elem_of_scheduled_images in Hmem. eapply Hdoc; eauto.
    - intros Hx. destruct (Hin x Hx) as (imgPage & Hmem & <-).
      exists imgPage. split; [reflexivity|apply list_elem_of_In, Hmem]. }
  assert (Hgroup_ne : sizeGroup <> []).
  { destruct (Hin 1 ltac:(lia)) as (imgPage & Hmem & _).
    intros Hnil. rewrite Hnil in Hmem. inversion Hmem. }
  assert (Himages_ne : images <> []).
  { intros Hnil. apply Hgroup_ne. unfold sizeGroup. rewrite Hnil. reflexivity. }
  assert (HbyPrefix : imagesByPrefix (groupImages sched byPage) !! prefix = Some images)
    by (apply imagesByPrefix_lookup; auto).
  assert (HbySize : groupBySize images !! sizeKey = Some sizeGroup)
    by (apply groupBySize_lookup; auto).
  destruct (sizeGroupCandidates_full totalPages prefix sizeKey sizeGroup ltac:(lia) Hset)
    as (c & Hc & HID & Hconf & Htype).
  exists c. split; [|auto].
  apply Permutation_singleton_r.
  unfold detectFullPageUnwantedElements.
  rewrite (filter_flat_map_entry (imagesByPrefix (groupImages sched byPage)) _ _ _
             prefix images (order_prefixes_perm sched _) HbyPrefix).
  - (* the entry of the prefix *)
    cbn [fst snd]. unfold prefixCandidates.
    assert (Hlen : Z.of_nat (length sizeGroup) <= Z.of_nat (length images)).
    { unfold sizeGroup. pose proof (length_filter
        (fun imgPage => size_key imgPage = Some sizeKey) images). lia. }
    assert (Hcount : totalPages <= Z.of_nat (length sizeGroup)).
    { pose proof (size_page_range _ _ Hset).
      pose proof (size_list_to_set_le (map iwp_page sizeGroup)) as Hle.
      rewrite length_map in Hle. lia. }
    pose proof (minPagesFor_le totalPages ltac:(lia)).
    destruct (Z.ltb_spec (Z.of_nat (length images)) (minPagesFor totalPages)); [lia|].
    destruct (Z.eqb_spec (Z.of_nat (size (groupBySize images))) 0) as [Hzero|_].
    { assert (Hempty : groupBySize images = ∅) by (apply map_size_empty_inv; lia).
      rewrite Hempty, lookup_empty in HbySize. discriminate. }
    rewrite (filter_flat_map_entry (groupBySize images) _ _ _
               sizeKey sizeGroup (order_sizes_perm sched prefix _) HbySize).
    + cbn [fst snd]. rewrite Hc. rewrite filter_cons_True by (left; exact HID).
      reflexivity.
    + intros sizeKey' sizeGroup' c' Hgroup' Hne Hc' Hid. cbn [fst snd] in Hc'.
      apply sizeGroupCandidates_ID in Hc'.
      destruct (group_ID_inj prefix sizeKey prefix sizeKey' (ID c')) as [_ Heq]; auto.
      * apply sizeKey_no_underscore.
      * eapply groupBySize_key_no_underscore; eauto.
  - (* the entries of the other prefixes *)
    intros prefix' images' c' Hentry Hne Hc' Hid. cbn [fst snd] in Hc'.
    unfold prefixCandidates in Hc'.
    destruct (_ <? minPagesFor totalPages); [destruct Hc'|].
    destruct (_ =? 0); [destruct Hc'|].
    apply in_flat_map in Hc' as ([sizeKey' sizeGroup'] & Hgroup' & Hc').
    apply In_scheduled in Hgroup'; [|apply order_sizes_perm].
    apply elem_of_map_to_list in Hgroup'. cbn [fst snd] in Hc'.
    apply sizeGroupCandidates_ID in Hc'.
    destruct (group_ID_inj prefix sizeKey prefix' sizeKey' (ID c')) as [Heq _]; auto.
    + apply sizeKey_no_underscore.
    + eapply groupBySize_key_no_underscore; eauto.
Qed.

Lemma fullpage_group_detected_witness :
  exists c,
    filter (fun c' => is_group_ID "Image" "35KB" (ID c'))
           (detectFullPageUnwantedElements forward
              (imagesByPrefix (groupImages forward (imagesByPage (scanTable same_image_listing))))
              2)
    = [c]
    /\ ID c = "fullpage_watermark_Image_35KB"
    /\ Confidence c = F64.Fin (95 # 100)
    /\ Metadata c !! "type" = Some "fullpage_watermark".
Proof.
  assert (Hpages : map_to_list (imagesByPage (scanTable same_image_listing))
                   = [(2, [mkImageInfo "Image-1" "12" 100 100 "35.2KB" false false "DeviceRGB"]);
                      (1, [mkImageInfo "Image-1" "11" 100 100 "35.2KB" false false "DeviceRGB"])])
    by (vm_compute; reflexivity).
  apply (fullpage_group_detected forward (imagesByPage (scanTable same_image_listing))
           2 "Image" "35.2KB").
  - lia.
  - discriminate.
  - vm_compute. reflexivity.
  - intros page Hpage. assert (Hcases : page = 1 \/ page = 2) by lia.
    destruct Hcases as [-> | ->]; eexists; (split; [vm_compute; left|split; reflexivity]).
  - intros page img Himg _ _. unfold map_get in Himg.
    destruct (imagesByPage (scanTable same_image_listing) !! page) as [imgs|] eqn:E;
      [|inversion Himg].
    apply elem_of_map_to_list in E. rewrite Hpages in E.
    apply list_elem_of_In in E. destruct E as [E|[E|[]]]; injection E as <- _; lia.
Defined.

(** * Further properties of the package *)

(** ** The page numbers *)

Lemma ValidatePageNumbers_None (pages : list Z) (totalPages : Z) :
  ValidatePageNumbers pages totalPages = None
  <-> Forall (fun page => 1 <= page <= totalPages) pages.
Proof.
  induction pages as [|page rest IH]; cbn [ValidatePageNumbers].
  - split; auto.
  - destruct (Z.ltb_spec page 1) as [Hlow|Hlow].
    + split; [discriminate|]. intros Hall. inversion Hall; subst. lia.
    + destruct (Z.ltb_spec totalPages page) as [Hhigh|Hhigh].
      * split; [discriminate|]. intros Hall. inversion Hall; subst. lia.
      * rewrite IH. split.
        -- intros Hrest. constructor; [lia|exact Hrest].
        -- intros Hall. inversion Hall; subst. assumption.
Qed.

(** X1.  [ValidatePageNumbers] accepts a list exactly when every page is
    between 1 and the number of pages. *)
Theorem ValidatePageNumbers_accepts (pages : list Z) (totalPages : Z) :
  ValidatePageNumbers pages totalPages = None
  <-> Forall (fun page => 1 <= page <= totalPages) pages.
Proof. apply ValidatePageNumbers_None. Qed.

Lemma fold_digits_nonneg l acc :
  forallb is_digit l = true -> 0 <= acc ->
  0 <= fold_left (fun acc c => 10 * acc + digit_val c) l acc.
Proof.
  revert acc. induction l as [|c l IH]; intros acc Hl Hacc; [exact Hacc|].
  cbn [forallb] in Hl. apply andb_true_iff in Hl as [Hc Hl]. cbn [fold_left].
  apply IH; [exact Hl|].
  unfold is_digit in Hc. apply andb_true_iff in Hc as [Hlo _].
  apply Nat.leb_le in Hlo. unfold digit_val. lia.
Qed.

Lemma digits_value_nonneg s : all_digits s = true -> 0 <= digits_value s.
Proof. intros Hs. apply fold_digits_nonneg; [exact Hs|lia]. Qed.

(** A number that [Atoi] reads from a text without a leading minus sign
    is not negative. *)
Lemma Atoi_nonneg s v :
  Atoi s = (v, true) -> HasPrefix s "-" = false -> 0 <= v.
Proof.
  unfold Atoi. intros Hatoi Hminus.
  assert (Hplain : forall body, body <> "" ->
            (match body with
             | "" => (0, false)
             | String _ _ =>
                 if all_digits body
                 then (if digits_value body <=? MaxInt
                       then (digits_value body, true) else (MaxInt, false))
                 else (0, false)
             end) = (v, true) -> 0 <= v).
  { intros [|c body] Hne; [congruence|].
    destruct (all_digits (String c body)) eqn:Hd; [|discriminate].
    destruct (_ <=? MaxInt); [|discriminate].
    intros [= <-]. apply digits_value_nonneg, Hd. }
  destruct s as [|c s]; [discriminate|].
  destruct (Ascii.eqb_spec c "-") as [->|Hc].
  { cbn [HasPrefix] in Hminus. discriminate. }
  destruct (Ascii.eqb_spec c "+") as [->|Hc'].
  - destruct s as [|d s]; [discriminate|].
    apply (Hplain (String d s)); [discriminate|exact Hatoi].
  - apply (Hplain (String c s)); [discriminate|].
    destruct c as [[] [] [] [] [] [] [] []]; try exact Hatoi; congruence.
Qed.

Lemma split_from_nonempty sep s cur skip : split_from sep s cur skip <> [].
Proof.
  revert cur skip. induction s as [|c s IH]; intros cur skip; [discriminate|].
  cbn [split_from]. destruct skip; [|apply IH].
  destruct (HasPrefix _ sep); [discriminate|apply IH].
Qed.

(** The pieces of a text split at the dashes hold no dash. *)
Lemma split_from_dash_pieces s cur :
  mem_char "-" cur = false ->
  Forall (fun piece => mem_char "-" piece = false) (split_from "-" s cur 0).
Proof.
  revert cur. induction s as [|c s IH]; intros cur Hcur.
  - constructor; [exact Hcur|constructor].
  - rewrite split_from_dash_cons. destruct (Ascii.eqb_spec "-" c) as [<-|Hc].
    + constructor; [exact Hcur|]. apply IH. reflexivity.
    + apply IH. rewrite mem_char_append, Hcur, mem_char_cons.
      destruct (Ascii.eqb_spec "-" c); [contradiction|reflexivity].
Qed.

Lemma no_dash_no_minus piece : mem_char "-" piece = false -> HasPrefix piece "-" = false.
Proof.
  destruct piece as [|c piece]; [reflexivity|].
  rewrite mem_char_cons, HasPrefix_dash. intros Hm.
  apply orb_false_elim in Hm as [Hc _]. exact Hc.
Qed.

Lemma page_range_from start stop :
  Forall (fun page => start <= page) (page_range start stop).
Proof.
  unfold page_range. apply Forall_forall. intros page Hpage.
  apply list_elem_of_In, in_map_iff in Hpage as (k & <- & _). lia.
Qed.

Lemma page_range_nonempty start stop : start <= stop -> page_range start stop <> [].
Proof.
  intros Hle. unfold page_range.
  replace (Z.to_nat (stop - start + 1)) with (S (Z.to_nat (stop - start))) by lia.
  discriminate.
Qed.

Lemma parse_page_parts_pages parts pageList l :
  parse_page_parts parts pageList = Returns l ->
  Forall (fun page => 0 <= page) pageList ->
  Forall (fun page => 0 <= page) l
  /\ (parts <> [] \/ pageList <> [] -> l <> []).
Proof.
  revert pageList. induction parts as [|part rest IH]; intros pageList Hparse Hlist.
  - injection Hparse as <-. split; [exact Hlist|]. intros [Hp|Hp]; congruence.
  - cbn [parse_page_parts] in Hparse.
    assert (Hgrow : forall more, more <> [] -> Forall (fun page => 0 <= page) more ->
              parse_page_parts rest (pageList ++ more) = Returns l ->
              Forall (fun page => 0 <= page) l /\ l <> []).
    { intros more Hmore Hpos Hrest.
      destruct (IH (pageList ++ more) Hrest) as [Hall Hne].
      - apply Forall_app. auto.
      - split; [exact Hall|]. apply Hne. right.
        destruct pageList; destruct more; simpl; congruence. }
    assert (Hresult : Forall (fun page => 0 <= page) l /\ l <> []);
      [|destruct Hresult; auto].
    destruct (Contains part "-") eqn:Hdash.
    + destruct (negb _); [discriminate|].
      pose proof (split_from_dash_pieces part "" eq_refl) as Hpieces.
      fold (Split part "-") in Hpieces.
      destruct (Atoi (nth 0 (Split part "-") "")) as [start ok1] eqn:Hstart.
      destruct ok1; [|discriminate]. cbn [negb] in Hparse.
      destruct (Atoi (nth 1 (Split part "-") "")) as [stop ok2] eqn:Hstop.
      destruct ok2; [|discriminate]. cbn [negb] in Hparse.
      destruct (Z.ltb_spec stop start) as [|Hle]; [discriminate|].
      destruct (stop =? MaxInt); [discriminate|].
      assert (Hnonneg : 0 <= start).
      { apply (Atoi_nonneg _ _ Hstart), no_dash_no_minus.
        destruct (nth_in_or_default 0 (Split part "-") "") as [Hin | ->]; [|reflexivity].
        rewrite Forall_forall in Hpieces. apply Hpieces, list_elem_of_In, Hin. }
      apply (Hgrow (page_range start stop)); [apply page_range_nonempty, Hle| |exact Hparse].
      eapply Forall_impl; [apply page_range_from|]. cbn. intros page Hpage. lia.
    + destruct (Atoi part) as [pageNum ok] eqn:Hpage.
      destruct ok; [|discriminate]. cbn [negb] in Hparse.
      apply (Hgrow [pageNum]); [discriminate| |exact Hparse].
      constructor; [|constructor]. apply (Atoi_nonneg _ _ Hpage).
      destruct part as [|c part']; [reflexivity|].
      change (Contains (String c part') "-")
        with (HasPrefix (String c part') "-" || Contains part' "-") in Hdash.
      apply orb_false_elim in Hdash as [Hp _]. exact Hp.
Qed.

Lemma insert_sorted_nonempty x l : insert_sorted x l <> [].
Proof. destruct l as [|y l]; simpl; [discriminate|]. destruct (x <=? y); discriminate. Qed.

Lemma sort_ints_Forall (P : Z -> Prop) l : Forall P l -> Forall P (sort_ints l).
Proof.
  induction 1 as [|x l Hx Hl IH]; simpl; [constructor|].
  apply insert_sorted_Forall; assumption.
Qed.

Lemma dedup_after_Forall (P : Z -> Prop) prev l :
  Forall P l -> Forall P (dedup_after prev l).
Proof.
  intros Hl. revert prev. induction Hl as [|x l Hx Hl IH]; intros prev; simpl; [constructor|].
  destruct (x =? prev); [apply IH|constructor; [exact Hx|apply IH]].
Qed.

Lemma ParsePageSpecifier_Returns (pages : string) (l : list Z) :
  ParsePageSpecifier pages = Returns l ->
  l <> [] /\ Forall (fun page => 0 <= page) l.
Proof.
  unfold ParsePageSpecifier. destruct pages as [|c pages]; [discriminate|].
  destruct (parse_page_parts _ _) as [pageList| |] eqn:Hparts; try discriminate.
  intros [= <-].
  destruct (parse_page_parts_pages _ _ _ Hparts) as [Hpos Hne]; [constructor|].
  assert (HpageList : pageList <> []).
  { apply Hne. left. apply split_from_nonempty. }
  split.
  - destruct pageList as [|x pageList]; [congruence|]. simpl.
    pose proof (insert_sorted_nonempty x (sort_ints pageList)) as Hins.
    destruct (insert_sorted x (sort_ints pageList)); [congruence|discriminate].
  - apply sort_ints_Forall in Hpos.
    destruct (sort_ints pageList) as [|x l']; [constructor|]. simpl.
    inversion Hpos; subst. constructor; [assumption|].
    apply dedup_after_Forall. assumption.
Qed.

(** X2.  A list of pages that [ParsePageSpecifier] returns is never empty
    and holds no negative page. *)
Theorem ParsePageSpecifier_pages (pages : string) (l : list Z) :
  ParsePageSpecifier pages = Returns l ->
  l <> [] /\ Forall (fun page => 0 <= page) l.
Proof. apply ParsePageSpecifier_Returns. Qed.

Lemma ParsePageSpecifier_pages_witness :
  [0; 2; 3; 4] <> [] /\ Forall (fun page => 0 <= page) [0; 2; 3; 4].
Proof.
  apply (ParsePageSpecifier_pages "4, 2-3,0"). vm_compute. reflexivity.
Defined.

(** *** The numeral of a page and its value *)

Lemma digit_char_is_digit d : 0 <= d < 10 -> is_digit (digit_char d) = true.
Proof.
  intros Hd. assert (Hcases : d = 0 \/ d = 1 \/ d = 2 \/ d = 3 \/ d = 4 \/ d = 5
                              \/ d = 6 \/ d = 7 \/ d = 8 \/ d = 9) by lia.
  repeat (destruct Hcases as [->|Hcases]; [reflexivity|]). subst d. reflexivity.
Qed.

Lemma digit_char_val d : 0 <= d < 10 -> digit_val (digit_char d) = d.
Proof.
  intros Hd. assert (Hcases : d = 0 \/ d = 1 \/ d = 2 \/ d = 3 \/ d = 4 \/ d = 5
                              \/ d = 6 \/ d = 7 \/ d = 8 \/ d = 9) by lia.
  repeat (destruct Hcases as [->|Hcases]; [reflexivity|]). subst d. reflexivity.
Qed.

Lemma digits_of_all_digits fuel n acc :
  all_digits acc = true -> all_digits (digits_of fuel n acc) = true.
Proof.
  revert n acc. induction fuel as [|fuel IH]; intros n acc Hacc; [exact Hacc|].
  cbn [digits_of].
  assert (Hacc' : all_digits (String (digit_char (n mod 10)) acc) = true).
  { unfold all_digits in *. cbn [list_ascii_of_string forallb].
    rewrite Hacc, digit_char_is_digit; [reflexivity|].
    apply Z.mod_pos_bound. lia. }
  destruct (n <? 10); [exact Hacc'|]. apply IH, Hacc'.
Qed.

Lemma digits_of_value fuel n acc :
  0 <= n < 2 ^ Z.of_nat fuel ->
  fold_left (fun a c => 10 * a + digit_val c) (list_ascii_of_string (digits_of fuel n acc)) 0
  = fold_left (fun a c => 10 * a + digit_val c) (list_ascii_of_string acc) n.
Proof.
  revert n acc. induction fuel as [|fuel IH]; intros n acc Hn.
  - cbn [digits_of]. replace n with 0 by (simpl in Hn; lia). reflexivity.
  - cbn [digits_of].
    assert (Hpow : 2 ^ Z.of_nat (S fuel) = 2 * 2 ^ Z.of_nat fuel).
    { rewrite Nat2Z.inj_succ, Z.pow_succ_r; lia. }
    destruct (Z.ltb_spec n 10) as [Hsmall|Hbig].
    + cbn [list_ascii_of_string fold_left].
      rewrite Z.mod_small by lia.
      rewrite digit_char_val by lia. reflexivity.
    + rewrite IH.
      * cbn [list_ascii_of_string fold_left].
        rewrite digit_char_val by (apply Z.mod_pos_bound; lia).
        f_equal. pose proof (Z.div_mod n 10). lia.
      * split; [apply Z.div_pos; lia|].
        apply Z.div_lt_upper_bound; lia.
Qed.

Lemma digits_of_first fuel n c acc :
  exists c' rest, digits_of fuel n (String c acc) = String c' rest.
Proof.
  revert n c acc. induction fuel as [|fuel IH]; intros n c acc; cbn [digits_of]; [eauto|].
  destruct (n <? 10); [eauto|]. apply IH.
Qed.

Lemma decimal_first n : exists c rest, decimal n = String c rest.
Proof.
  unfold decimal. cbn [digits_of].
  destruct (n <? 10); [eauto|]. apply digits_of_first.
Qed.

Lemma decimal_all_digits n : all_digits (decimal n) = true.
Proof. apply digits_of_all_digits. reflexivity. Qed.

Lemma decimal_value n : 0 <= n -> digits_value (decimal n) = n.
Proof.
  intros Hn. unfold digits_value, decimal. rewrite digits_of_value; [reflexivity|].
  split; [exact Hn|].
  destruct (Z.eq_dec n 0) as [->|Hpos]; [reflexivity|].
  rewrite Nat2Z.inj_succ, Z2Nat.id by apply Z.log2_nonneg.
  apply Z.log2_spec. lia.
Qed.

(** [Atoi] reads back the numeral that [Itoa] writes for a number that is
    not negative. *)
Lemma Atoi_Itoa n : 0 <= n <= MaxInt -> Atoi (Itoa n) = (n, true).
Proof.
  intros Hn. unfold Itoa. destruct (Z.ltb_spec n 0) as [|_]; [lia|].
  pose proof (decimal_all_digits n) as Hdigits.
  pose proof (decimal_value n (proj1 Hn)) as Hvalue.
  destruct (decimal_first n) as (c & rest & Hdec). rewrite Hdec in *.
  assert (Hc : is_digit c = true).
  { unfold all_digits in Hdigits. cbn [list_ascii_of_string forallb] in Hdigits.
    apply andb_true_iff in Hdigits as [Hc _]. exact Hc. }
  unfold Atoi.
  assert (Hsign : (match String c rest with
                   | String "-"%char r => (true, r)
                   | String "+"%char r => (false, r)
                   | _ => (false, String c rest)
                   end) = (false, String c rest)).
  { destruct c as [[] [] [] [] [] [] [] []]; try reflexivity; discriminate Hc. }
  rewrite Hsign, Hdigits, Hvalue.
  destruct (Z.leb_spec n MaxInt); [reflexivity|lia].
Qed.

(** *** The argument of the command and the specifier *)

Lemma is_digit_plain c :
  is_digit c = true ->
  re_space c = false /\ Ascii.eqb "," c = false /\ Ascii.eqb "-" c = false.
Proof.
  destruct c as [[] [] [] [] [] [] [] []]; intros Hc; try discriminate Hc;
    repeat split; reflexivity.
Qed.

Lemma HasPrefix_comma c s : HasPrefix (String c s) "," = Ascii.eqb "," c.
Proof. cbn [HasPrefix]. apply andb_true_r. Qed.

Lemma split_from_comma_cons c s cur :
  split_from "," (String c s) cur 0 =
    if Ascii.eqb "," c then cur :: split_from "," s "" 0
    else split_from "," s (cur +:+ String c "") 0.
Proof.
  change (split_from "," (String c s) cur 0)
    with (if HasPrefix (String c s) ","
          then cur :: split_from "," s "" 0
          else split_from "," s (cur +:+ String c "") 0).
  rewrite HasPrefix_comma. reflexivity.
Qed.

Lemma split_from_comma_digits d s cur :
  all_digits d = true ->
  split_from "," (d +:+ s) cur 0 = split_from "," s (cur +:+ d) 0.
Proof.
  revert cur. induction d as [|c d IH]; intros cur Hd.
  - rewrite append_nil_l, append_empty_r. reflexivity.
  - unfold all_digits in Hd. cbn [list_ascii_of_string forallb] in Hd.
    apply andb_true_iff in Hd as [Hc Hd].
    rewrite append_cons, split_from_comma_cons.
    destruct (is_digit_plain c Hc) as (_ & -> & _).
    rewrite (IH _ Hd), append_assoc_char. reflexivity.
Qed.

Lemma remove_spaces_digits d s :
  all_digits d = true -> remove_spaces (d +:+ s) = d +:+ remove_spaces s.
Proof.
  induction d as [|c d IH]; intros Hd; [reflexivity|].
  unfold all_digits in Hd. cbn [list_ascii_of_string forallb] in Hd.
  apply andb_true_iff in Hd as [Hc Hd].
  rewrite !append_cons. cbn [remove_spaces].
  destruct (is_digit_plain c Hc) as (-> & _ & _).
  rewrite (IH Hd). reflexivity.
Qed.

Lemma Contains_dash_digits d : all_digits d = true -> Contains d "-" = false.
Proof.
  induction d as [|c d IH]; intros Hd; [reflexivity|].
  unfold all_digits in Hd. cbn [list_ascii_of_string forallb] in Hd.
  apply andb_true_iff in Hd as [Hc Hd].
  change (Contains (String c d) "-") with (HasPrefix (String c d) "-" || Contains d "-").
  rewrite HasPrefix_dash, (IH Hd).
  destruct (is_digit_plain c Hc) as (_ & _ & ->). reflexivity.
Qed.

Lemma Itoa_decimal n : 0 <= n -> Itoa n = decimal n.
Proof. intros Hn. unfold Itoa. destruct (Z.ltb_spec n 0); [lia|reflexivity]. Qed.

Lemma pagesArgument_cons page rest :
  pagesArgument (page :: rest) =
    Itoa page +:+ match rest with [] => "" | _ => "," +:+ pagesArgument rest end.
Proof.
  unfold pagesArgument. destruct rest as [|page' rest]; cbn [map String.concat].
  - rewrite append_empty_r. reflexivity.
  - reflexivity.
Qed.

Lemma Split_pagesArgument l cur :
  Forall (fun page => 0 <= page) l -> l <> [] ->
  exists first rest, map Itoa l = first :: rest
    /\ split_from "," (pagesArgument l) cur 0 = (cur +:+ first) :: rest.
Proof.
  intros Hl. revert cur. induction Hl as [|page l Hpage Hl IH]; intros cur Hne; [congruence|].
  exists (Itoa page), (map Itoa l). split; [reflexivity|].
  rewrite pagesArgument_cons, split_from_comma_digits
    by (rewrite Itoa_decimal by exact Hpage; apply decimal_all_digits).
  destruct l as [|page' l]; [reflexivity|].
  rewrite append_cons, split_from_comma_cons. cbn [Ascii.eqb Bool.eqb]. cbn [andb].
  change ("" +:+ pagesArgument (page' :: l)) with (pagesArgument (page' :: l)).
  destruct (IH "") as (first & rest & Hmap & Hsplit); [discriminate|].
  rewrite Hsplit, append_nil_l, <- Hmap. reflexivity.
Qed.

Lemma remove_spaces_pagesArgument l :
  Forall (fun page => 0 <= page) l -> remove_spaces (pagesArgument l) = pagesArgument l.
Proof.
  induction 1 as [|page l Hpage Hl IH]; [reflexivity|].
  rewrite pagesArgument_cons, remove_spaces_digits
    by (rewrite Itoa_decimal by exact Hpage; apply decimal_all_digits).
  destruct l as [|page' l]; [reflexivity|].
  rewrite append_cons. cbn [remove_spaces re_space]. 
  change (re_space ",") with false. cbv iota.
  change ("" +:+ pagesArgument (page' :: l)) with (pagesArgument (page' :: l)).
  rewrite IH. reflexivity.
Qed.

Lemma parse_page_numerals l pageList :
  Forall (fun page => 0 <= page <= MaxInt) l ->
  parse_page_parts (map Itoa l) pageList = Returns (pageList ++ l).
Proof.
  intros Hl. revert pageList. induction Hl as [|page l Hpage Hl IH]; intros pageList.
  - rewrite app_nil_r. reflexivity.
  - cbn [map parse_page_parts].
    rewrite Contains_dash_digits
      by (rewrite Itoa_decimal by lia; apply decimal_all_digits).
    rewrite Atoi_Itoa by exact Hpage. cbn [negb].
    rewrite IH, <- app_assoc. reflexivity.
Qed.

Lemma sort_ints_ascending l : StronglySorted Z.lt l -> sort_ints l = l.
Proof.
  induction 1 as [|x l Hs IH Hx]; [reflexivity|].
  cbn [sort_ints fold_right]. fold (sort_ints l). rewrite IH.
  destruct Hx as [|y l Hy _]; [reflexivity|]. cbn [insert_sorted].
  destruct (Z.leb_spec x y); [reflexivity|lia].
Qed.

Lemma dedup_after_ascending prev l :
  StronglySorted Z.lt (prev :: l) -> dedup_after prev l = l.
Proof.
  revert prev. induction l as [|x l IH]; intros prev Hs; [reflexivity|].
  inversion Hs as [|? ? Hl Hprev]; subst. inversion Hprev; subst.
  cbn [dedup_after]. destruct (Z.eqb_spec x prev); [lia|].
  rewrite IH by exact Hl. reflexivity.
Qed.

(** X3.  The argument that [RemovePagesFromPDF] writes for a list of pages
    is a specifier that [ParsePageSpecifier] reads back as that list:
    for a non-empty, strictly ascending list of pages of the range of
    [int] that are not negative. *)
Theorem ParsePageSpecifier_pagesArgument (l : list Z) :
  l <> [] -> StronglySorted Z.lt l -> Forall (fun page => 0 <= page <= MaxInt) l ->
  ParsePageSpecifier (pagesArgument l) = Returns l.
Proof.
  intros Hne Hsorted Hrange.
  assert (Hpos : Forall (fun page => 0 <= page) l).
  { eapply Forall_impl; [exact Hrange|]. cbn. intros page Hpage. lia. }
  unfold ParsePageSpecifier.
  destruct (pagesArgument l) as [|c text] eqn:Htext.
  { destruct l as [|page l]; [congruence|].
    rewrite pagesArgument_cons, Itoa_decimal in Htext by (inversion Hpos; assumption).
    destruct (decimal_first page) as (c & rest & Hdec).
    rewrite Hdec in Htext. discriminate Htext. }
  rewrite <- Htext, remove_spaces_pagesArgument by exact Hpos.
  destruct (Split_pagesArgument l "" Hpos Hne) as (first & rest & Hmap & Hsplit).
  unfold Split. rewrite Hsplit, append_nil_l, <- Hmap, parse_page_numerals by exact Hrange.
  cbn [app]. rewrite sort_ints_ascending by exact Hsorted.
  destruct l as [|page l]; [congruence|].
  cbn [dedup_adjacent]. rewrite dedup_after_ascending by exact Hsorted. reflexivity.
Qed.

Lemma ParsePageSpecifier_pagesArgument_witness :
  ParsePageSpecifier (pagesArgument [2; 10; 11; 305]) = Returns [2; 10; 11; 305].
Proof.
  apply ParsePageSpecifier_pagesArgument.
  - discriminate.
  - repeat (constructor; [|repeat (constructor; [lia|]); constructor]). constructor.
  - repeat (constructor; [unfold MaxInt; lia|]). constructor.
Defined.

(** ** The reading of the page count *)

Lemma match_here_digits items s digits :
  match_here items s = Some digits -> HasPrefix digits "-" = false.
Proof.
  revert s. induction items as [|item items IH]; intros s.
  - cbn [match_here]. destruct s as [|c s]; [discriminate|]. cbn [digit_run].
    destruct (is_digit c) eqn:Hc; [|discriminate].
    intros [= <-]. cbn [slice_to]. rewrite HasPrefix_dash.
    apply (is_digit_plain c Hc).
  - cbn [match_here]. destruct item as [text|atLeast].
    + destruct (HasPrefix s text); [apply IH|discriminate].
    + destruct (_ <=? _)%nat; [apply IH|discriminate].
Qed.

Lemma find_submatch_digits items s digits :
  find_submatch items s = Some digits -> HasPrefix digits "-" = false.
Proof.
  induction s as [|c s IH]; cbn [find_submatch].
  - destruct (match_here items "") eqn:Hhere; [|discriminate].
    intros [= <-]. eapply match_here_digits, Hhere.
  - destruct (match_here items (String c s)) eqn:Hhere; [|exact IH].
    intros [= <-]. eapply match_here_digits, Hhere.
Qed.

Lemma Atoi_range s v : Atoi s = (v, true) -> MinInt <= v <= MaxInt.
Proof.
  unfold Atoi.
  destruct (match s with
            | String "-"%char r => (true, r)
            | String "+"%char r => (false, r)
            | _ => (false, s)
            end) as [neg body].
  destruct body as [|c body]; [discriminate|].
  destruct (all_digits (String c body)) eqn:Hdigits; [|discriminate].
  pose proof (digits_value_nonneg _ Hdigits) as Hpos.
  destruct neg.
  - destruct (Z.leb_spec (digits_value (String c body)) (2 ^ 63)); [|discriminate].
    intros [= <-]. unfold MinInt, MaxInt. lia.
  - destruct (Z.leb_spec (digits_value (String c body)) MaxInt); [|discriminate].
    intros [= <-]. unfold MinInt, MaxInt in *. lia.
Qed.

Lemma firstPageCount_range patterns outputStr pageCount :
  firstPageCount patterns outputStr = Some pageCount -> 0 <= pageCount <= MaxInt.
Proof.
  induction patterns as [|pattern rest IH]; cbn [firstPageCount]; [discriminate|].
  destruct (find_submatch pattern outputStr) as [digits|] eqn:Hfind; [|exact IH].
  destruct (Atoi digits) as [v ok] eqn:Hatoi. destruct ok; [|exact IH].
  intros [= <-]. split.
  - eapply Atoi_nonneg; [exact Hatoi|]. eapply find_submatch_digits, Hfind.
  - eapply Atoi_range, Hatoi.
Qed.

Lemma getPageCount_run w filename h :
  snd (getPageCount w filename h) = h ++ [Exec DefaultCLITimeout ["pdfcpu"; "info"; filename]]
  /\ forall totalPages, fst (getPageCount w filename h) = Returns totalPages ->
       0 <= totalPages <= MaxInt.
Proof.
  unfold getPageCount, bind, execCommandWithTimeout, ret.
  destruct (snd (run w h _ _)); [split; [reflexivity|discriminate]|].
  destruct (firstPageCount _ _) as [pageCount|] eqn:Hcount;
    [|split; [reflexivity|discriminate]].
  split; [reflexivity|]. intros totalPages [= <-]. eapply firstPageCount_range, Hcount.
Qed.

(** ** The removal of pages *)

(** X4.  [RemovePagesFromPDF] case by case.  When the specifier is not
    read it returns the error of the specifier and runs no command.  When
    the specifier is read, its pages are not none and strictly ascending,
    and [pdfcpu info] is run: when the page count is not read, or when a
    page is not between 1 and the page count, it returns an error and
    runs nothing else; when every page is between 1 and the page count it
    runs [pdfcpu pages remove] once, on these pages, and succeeds exactly
    when that command succeeds. *)
Theorem RemovePagesFromPDF_commands (w : World) (inFile outFile pages : string)
    (h : list event) :
  (forall msg, ParsePageSpecifier pages = Fails msg ->
     RemovePagesFromPDF w inFile outFile pages h = (Returns (Some msg), h))
  /\ (ParsePageSpecifier pages = Diverges ->
      RemovePagesFromPDF w inFile outFile pages h = (Diverges, h))
  /\ (forall pageNumbers, ParsePageSpecifier pages = Returns pageNumbers ->
      pageNumbers <> [] /\ StronglySorted Z.lt pageNumbers
      /\ (forall msg, fst (getPageCount w inFile h) = Fails msg ->
          RemovePagesFromPDF w inFile outFile pages h
          = (Returns (Some ("failed to get page count: " +:+ msg)),
             h ++ [Exec DefaultCLITimeout ["pdfcpu"; "info"; inFile]]))
      /\ (forall totalPages, fst (getPageCount w inFile h) = Returns totalPages ->
          (~ Forall (fun page => 1 <= page <= totalPages) pageNumbers ->
           exists err,
             RemovePagesFromPDF w inFile outFile pages h
             = (Returns (Some err), h ++ [Exec DefaultCLITimeout ["pdfcpu"; "info"; inFile]]))
          /\ (Forall (fun page => 1 <= page <= totalPages) pageNumbers ->
              snd (RemovePagesFromPDF w inFile outFile pages h)
              = h ++ [Exec DefaultCLITimeout ["pdfcpu"; "info"; inFile];
                      Exec DefaultCLITimeout
                        ["pdfcpu"; "pages"; "remove"; "-p"; pagesArgument pageNumbers; "--";
                         inFile; outFile]]
              /\ (fst (RemovePagesFromPDF w inFile outFile pages h) = Returns None
                  <-> snd (run w (h ++ [Exec DefaultCLITimeout ["pdfcpu"; "info"; inFile]])
                             DefaultCLITimeout
                             ["pdfcpu"; "pages"; "remove"; "-p"; pagesArgument pageNumbers;
                              "--"; inFile; outFile]) = None)
              /\ (forall err,
                    snd (run w (h ++ [Exec DefaultCLITimeout ["pdfcpu"; "info"; inFile]])
                           DefaultCLITimeout
                           ["pdfcpu"; "pages"; "remove"; "-p"; pagesArgument pageNumbers;
                            "--"; inFile; outFile]) = Some err ->
                    fst (RemovePagesFromPDF w inFile outFile pages h)
                    = Returns (Some ("pdfcpu remove failed: " +:+ err)))))).
Proof.
  assert (Hout : forall pageNumbers, ParsePageSpecifier pages = Returns pageNumbers ->
            RemovePagesFromPDF w inFile outFile pages h
            = match fst (getPageCount w inFile h) with
              | Diverges => (Diverges, h ++ [Exec DefaultCLITimeout ["pdfcpu"; "info"; inFile]])
              | Fails msg =>
                  (Returns (Some ("failed to get page count: " +:+ msg)),
                   h ++ [Exec DefaultCLITimeout ["pdfcpu"; "info"; inFile]])
              | Returns totalPages =>
                  match ValidatePageNumbers pageNumbers totalPages with
                  | Some err =>
                      (Returns (Some err),
                       h ++ [Exec DefaultCLITimeout ["pdfcpu"; "info"; inFile]])
                  | None =>
                      (match snd (run w (h ++ [Exec DefaultCLITimeout
                                                 ["pdfcpu"; "info"; inFile]])
                                    DefaultCLITimeout
                                    ["pdfcpu"; "pages"; "remove"; "-p";
                                     pagesArgument pageNumbers; "--"; inFile; outFile]) with
                       | Some err => Returns (Some ("pdfcpu remove failed: " +:+ err))
                       | None => Returns None
                       end,
                       h ++ [Exec DefaultCLITimeout ["pdfcpu"; "info"; inFile];
                             Exec DefaultCLITimeout
                               ["pdfcpu"; "pages"; "remove"; "-p"; pagesArgument pageNumbers;
                                "--"; inFile; outFile]])
                  end
              end).
  { intros pageNumbers Hparse. unfold RemovePagesFromPDF. rewrite Hparse. unfold bind at 1.
    destruct (getPageCount_run w inFile h) as [Hevents _].
    destruct (getPageCount w inFile h) as [pc h1]. cbn [fst snd] in *. subst h1.
    destruct pc as [totalPages|msg|]; [|reflexivity..].
    destruct (ValidatePageNumbers pageNumbers totalPages); [reflexivity|].
    unfold bind, execCommandWithTimeout, ret.
    destruct (snd (run w _ _ _)); rewrite <- app_assoc; reflexivity. }
  split; [intros msg Hparse; unfold RemovePagesFromPDF; rewrite Hparse; reflexivity|].
  split; [intros Hparse; unfold RemovePagesFromPDF; rewrite Hparse; reflexivity|].
  intros pageNumbers Hparse. rewrite (Hout pageNumbers Hparse). clear Hout.
  split; [apply (ParsePageSpecifier_Returns pages), Hparse|].
  split; [apply (ParsePageSpecifier_ascending pages), Hparse|].
  split; [intros msg ->; reflexivity|].
  intros totalPages ->.
  pose proof (ValidatePageNumbers_None pageNumbers totalPages) as Hvalid.
  destruct (ValidatePageNumbers pageNumbers totalPages) as [err|].
  - split.
    + intros _. exists err. reflexivity.
    + intros Hall. apply Hvalid in Hall. discriminate Hall.
  - split.
    + intros Hnot. exfalso. apply Hnot, Hvalid. reflexivity.
    + intros _. cbn [fst snd]. split; [reflexivity|].
      destruct (snd (run w _ _ _)) as [err|].
      * split; [split; intros Heq; discriminate Heq|]. intros err' [= <-]. reflexivity.
      * split; [tauto|]. intros err' Heq. discriminate Heq.
Qed.

Lemma RemovePagesFromPDF_commands_witness :
  snd (RemovePagesFromPDF (scripted "Pages: 5" "" None) "in.pdf" "out.pdf" "4, 1-2" [])
  = [] ++ [Exec DefaultCLITimeout ["pdfcpu"; "info"; "in.pdf"];
           Exec DefaultCLITimeout
             ["pdfcpu"; "pages"; "remove"; "-p"; pagesArgument [1; 2; 4]; "--";
              "in.pdf"; "out.pdf"]].
Proof.
  destruct (RemovePagesFromPDF_commands (scripted "Pages: 5" "" None) "in.pdf" "out.pdf"
              "4, 1-2" []) as (_ & _ & Hreturns).
  destruct (Hreturns [1; 2; 4]) as (_ & _ & _ & Hcount); [vm_compute; reflexivity|].
  destruct (Hcount 5) as (_ & Hvalid); [vm_compute; reflexivity|].
  apply Hvalid. repeat (constructor; [lia|]). constructor.
Defined.

(** ** The table of the images *)

(** What one line does to the records: nothing, or one more record, of a
    page that is not 0 and an identifier that is not empty, written to
    the list and to the index of its page. *)
Lemma scanLine_records st line :
  (allImages (scanLine st line) = allImages st
   /\ imagesByPage (scanLine st line) = imagesByPage st)
  \/ exists raw,
       raw_page raw <> 0 /\ raw_id raw <> ""
       /\ allImages (scanLine st line) = allImages st ++ [raw]
       /\ imagesByPage (scanLine st line)
          = map_append (raw_page raw) (imageInfo_of raw) (imagesByPage st).
Proof.
  unfold scanLine.
  destruct (atEnd st); [left; auto|].
  destruct (_ && _); [left; auto|].
  destruct (_ || _); [left; auto|].
  destruct (summary_line _); [left; auto|].
  destruct (separator_line _); [left; auto|].
  generalize (splitRow line). intros parts. unfold scanRow.
  destruct (_ <? 3); [left; auto|]. cbv zeta.
  destruct (String.eqb (nth 0 parts "") "" || String.eqb (nth 2 parts "") "") eqn:Hempty;
    [left; auto|].
  apply orb_false_elim in Hempty as [_ Hid]. apply String.eqb_neq in Hid.
  destruct (Z.eqb_spec (fst (Atoi (nth 0 parts ""))) 0) as [|Hpage]; [left; auto|].
  right. eexists (mkRawImageData _ _ _ _ _ _ _ _ _ _ _ _ _).
  cbn [raw_page raw_id allImages imagesByPage].
  split; [exact Hpage|]. split; [exact Hid|]. split; reflexivity.
Qed.

Lemma scanTable_invariant (P : tableScan -> Prop) output :
  P tableScan_start ->
  (forall st line, P st -> P (scanLine st line)) ->
  P (scanTable output).
Proof. intros Hstart Hstep. unfold scanTable. apply foldl_invariant; assumption. Qed.

Lemma scanTable_agree output page :
  map_get (imagesByPage (scanTable output)) page
  = map imageInfo_of
        (filter (fun raw => raw_page raw = page) (allImages (scanTable output))).
Proof.
  apply (scanTable_invariant
           (fun st => map_get (imagesByPage st) page
                      = map imageInfo_of (filter (fun raw => raw_page raw = page) (allImages st)))).
  - reflexivity.
  - intros st line Hst.
    destruct (scanLine_records st line) as [[-> ->]|(raw & _ & _ & -> & ->)]; [exact Hst|].
    rewrite filter_app, map_app, <- Hst. unfold map_get at 1.
    rewrite map_append_lookup.
    destruct (decide (raw_page raw = page)) as [Heq|Hne].
    + rewrite filter_cons_True by exact Heq. rewrite Heq. reflexivity.
    + rewrite filter_cons_False by exact Hne. cbn [filter map].
      rewrite app_nil_r. reflexivity.
Qed.

Lemma scanTable_pages output :
  Forall (fun raw => raw_page raw <> 0 /\ raw_id raw <> "") (allImages (scanTable output)).
Proof.
  apply (scanTable_invariant
           (fun st => Forall (fun raw => raw_page raw <> 0 /\ raw_id raw <> "") (allImages st))).
  - constructor.
  - intros st line Hst.
    destruct (scanLine_records st line) as [[-> _]|(raw & Hpage & Hid & -> & _)]; [exact Hst|].
    apply Forall_app. split; [exact Hst|]. constructor; [split; assumption|constructor].
Qed.

(** X5.  The index of the pages that [analyzeImages] reads from a listing
    agrees with the list of its records: a page holds the images of the
    records of that page, in the order of the listing. *)
Theorem scanTable_index (output : string) (page : Z) :
  map_get (imagesByPage (scanTable output)) page
  = map imageInfo_of
        (filter (fun raw => raw_page raw = page) (allImages (scanTable output))).
Proof. apply scanTable_agree. Qed.

(** X6.  The index never has an entry for the page 0, an entry is never
    empty, and no image of it has an empty identifier. *)
Theorem scanTable_entries (output : string) (page : Z) (imgs : list imageInfo) :
  imagesByPage (scanTable output) !! page = Some imgs ->
  page <> 0 /\ imgs <> [] /\ Forall (fun img => img_id img <> "") imgs.
Proof.
  intros Hentry.
  assert (Hne : imgs <> []).
  { revert imgs Hentry.
    apply (scanTable_invariant
             (fun st => forall imgs, imagesByPage st !! page = Some imgs -> imgs <> [])).
    - intros imgs. cbn. rewrite lookup_empty. discriminate.
    - intros st line Hst imgs.
      destruct (scanLine_records st line) as [[_ ->]|(raw & _ & _ & _ & ->)]; [apply Hst|].
      rewrite map_append_lookup. destruct (decide _); [|apply Hst].
      intros [= <-]. destruct (map_get _ _); discriminate. }
  pose proof (scanTable_agree output page) as Hagree.
  unfold map_get in Hagree. rewrite Hentry in Hagree. cbn in Hagree.
  pose proof (scanTable_pages output) as Hpages.
  assert (Hin : Forall (fun raw => raw_page raw <> 0 /\ raw_id raw <> "")
                  (filter (fun raw => raw_page raw = page) (allImages (scanTable output)))).
  { apply Forall_forall. intros raw Hraw. apply list_elem_of_filter in Hraw as [_ Hraw].
    rewrite Forall_forall in Hpages. apply Hpages, Hraw. }
  subst imgs. split; [|split; [exact Hne|]].
  - destruct (filter _ _) as [|raw l] eqn:Hfilter; [cbn in Hne; congruence|].
    assert (Hraw : raw ∈ filter (fun raw => raw_page raw = page) (allImages (scanTable output))).
    { rewrite Hfilter. left. }
    apply list_elem_of_filter in Hraw as [<- _].
    inversion Hin; subst. tauto.
  - apply Forall_map. eapply Forall_impl; [exact Hin|]. cbn. tauto.
Qed.

Lemma scanTable_entries_witness :
  2 <> 0
  /\ [mkImageInfo "Image-1" "12" 100 100 "35.2KB" false false "DeviceRGB"] <> []
  /\ Forall (fun img => img_id img <> "")
       [mkImageInfo "Image-1" "12" 100 100 "35.2KB" false false "DeviceRGB"].
Proof.
  apply (scanTable_entries same_image_listing 2). vm_compute. reflexivity.
Defined.

Lemma foldl_invariant_on {A B} (P : A -> Prop) (Q : B -> Prop) (f : A -> B -> A) l a :
  P a -> (forall a x, P a -> Q x -> P (f a x)) -> Forall Q l -> P (foldl f a l).
Proof.
  intros Ha Hf Hl. revert a Ha. induction Hl as [|x l Hx Hl IH]; simpl; auto.
Qed.

Lemma order_nil {A} (order : list A -> list A) : order [] ≡ₚ [] -> order [] = [].
Proof. intros Hp. apply Permutation_nil_r in Hp. exact Hp. Qed.

Lemma imageCandidates_empty_index sched totalPages output :
  imagesByPage (scanTable output) = ∅ -> imageCandidates sched totalPages output = [].
Proof.
  intros Hempty. unfold imageCandidates. rewrite Hempty.
  unfold groupImages. rewrite map_to_list_empty, (order_nil _ (order_pages_perm sched [])).
  cbn [foldl imagesByPrefix imageSignatures].
  unfold detectFullPageUnwantedElements, detectRepeating.
  rewrite !map_to_list_empty, (order_nil _ (order_prefixes_perm sched [])),
    (order_nil _ (order_signatures_perm sched [])).
  reflexivity.
Qed.

(** X7.  A listing none of whose lines is a header of the table gives no
    record and no candidate, whatever its other lines hold. *)
Theorem no_header_no_candidate (sched : Scheduler) (totalPages : Z) (output : string) :
  Forall (fun line => header_line (TrimSpace line) = false) (Split output newline) ->
  allImages (scanTable output) = []
  /\ imagesByPage (scanTable output) = ∅
  /\ imageCandidates sched totalPages output = [].
Proof.
  intros Hlines.
  assert (Hscan : inTable (scanTable output) = false
                  /\ allImages (scanTable output) = []
                  /\ imagesByPage (scanTable output) = ∅).
  { unfold scanTable.
    apply (foldl_invariant_on
             (fun st => inTable st = false /\ allImages st = [] /\ imagesByPage st = ∅)
             (fun line => header_line (TrimSpace line) = false));
      [auto| |exact Hlines].
    intros st line (HinTable & Hall & Hindex) Hline. unfold scanLine.
    destruct (atEnd st); [auto|].
    rewrite Hline, andb_false_r, HinTable. cbn [negb orb]. auto. }
  destruct Hscan as (_ & Hall & Hindex).
  split; [exact Hall|]. split; [exact Hindex|].
  apply imageCandidates_empty_index, Hindex.
Qed.

Lemma no_header_no_candidate_witness :
  allImages (scanTable (lines ["1  11  Image-1  image"; "2  12  Image-1  image"])) = []
  /\ imagesByPage (scanTable (lines ["1  11  Image-1  image"; "2  12  Image-1  image"])) = ∅
  /\ imageCandidates backward 2 (lines ["1  11  Image-1  image"; "2  12  Image-1  image"]) = [].
Proof.
  apply no_header_no_candidate.
  replace (Split (lines ["1  11  Image-1  image"; "2  12  Image-1  image"]) newline)
    with ["1  11  Image-1  image"; "2  12  Image-1  image"] by (vm_compute; reflexivity).
  repeat (constructor; [vm_compute; reflexivity|]). constructor.
Defined.

(** ** The size of an image *)

Lemma ParseFloat_nonneg s v :
  F64.ParseFloat s = Some v -> exists q, v = F64.Fin q /\ (0 <= q)%Q.
Proof.
  unfold F64.ParseFloat.
  destruct (_ && _) eqn:Hok; [|discriminate].
  apply andb_true_iff in Hok as [Hok _]. apply andb_true_iff in Hok as [_ Hdigits].
  destruct (Qle_bool _ _); [discriminate|]. intros [= <-].
  eexists. split; [reflexivity|].
  apply Qle_shift_div_l.
  - unfold Qlt, inject_Z. simpl. pose proof (Z.pow_pos_nonneg 10 (Z.of_nat (String.length (nth 1 (Split s ".") "")))). lia.
  - rewrite Qmult_0_l. unfold Qle, inject_Z. simpl.
    pose proof (digits_value_nonneg _ Hdigits). lia.
Qed.

Lemma scale_nonneg q :
  (0 <= q)%Q ->
  F64.geb (F64.mul (F64.Fin q) (F64.of_int 1024)) (F64.Fin 0) = true
  /\ F64.geb (F64.mul (F64.mul (F64.Fin q) (F64.of_int 1024)) (F64.of_int 1024)) (F64.Fin 0) = true
  /\ F64.geb (F64.div (F64.Fin q) (F64.of_int 1024)) (F64.Fin 0) = true.
Proof.
  intros Hq.
  assert (H1024 : (0 <= inject_Z 1024)%Q) by (unfold Qle; simpl; lia).
  cbn [F64.mul F64.div F64.of_int F64.geb]. change (F64.sgn (inject_Z 1024)) with Gt. cbv iota.
  cbn [F64.geb]. rewrite !Qle_bool_iff.
  split; [|split].
  - apply Qmult_le_0_compat; assumption.
  - repeat apply Qmult_le_0_compat; assumption.
  - apply Qle_shift_div_l; [reflexivity|]. rewrite Qmult_0_l. exact Hq.
Qed.

(** X8.  [parseFileSizeKB] never returns a negative size, nor a value that
    is not a number: a text it cannot read counts as 0. *)
Theorem parseFileSizeKB_nonneg (sizeStr : string) :
  F64.geb (parseFileSizeKB sizeStr) (F64.Fin 0) = true.
Proof.
  unfold parseFileSizeKB.
  destruct (span_number _) as [numStr unit].
  destruct numStr as [|c numStr]; [reflexivity|].
  destruct (F64.ParseFloat _) as [num|] eqn:Hnum; [|reflexivity].
  apply ParseFloat_nonneg in Hnum as (q & -> & Hq).
  destruct (scale_nonneg q Hq) as (Hmega & Hgiga & Hbyte).
  destruct (_ || _); [cbn [F64.geb]; apply Qle_bool_iff, Hq|].
  destruct (_ || _); [exact Hmega|].
  destruct (_ || _); [exact Hgiga|].
  destruct (_ || _); exact Hbyte.
Qed.

(** ** The second pass *)

(** The test of the second pass.  [hasContinuousRange] answers [false]
    for a list shorter than the length asked, so it adds nothing to the
    comparison of the length that precedes it. *)
Lemma hasContinuousRange_length pages minLength :
  hasContinuousRange pages minLength = true -> minLength <= Z.of_nat (length pages).
Proof.
  unfold hasContinuousRange.
  destruct (Z.ltb_spec (Z.of_nat (length pages)) minLength); [discriminate|lia].
Qed.

(** X9.  The second pass makes a candidate of a signature exactly when
    the signature has been seen on at least [minPagesFor totalPages]
    pages, and then it makes one candidate: the search for a continuous
    range of pages never adds one. *)
Theorem repeatingCandidates_condition (byPage : gmap Z (list imageInfo)) (totalPages : Z)
    (signature : string) (pages : list Z) :
  pages <> [] ->
  (minPagesFor totalPages <= Z.of_nat (length pages)
   -> length (repeatingCandidates byPage totalPages signature pages) = 1%nat)
  /\ (Z.of_nat (length pages) < minPagesFor totalPages
      -> repeatingCandidates byPage totalPages signature pages = []).
Proof.
  intros Hne. unfold repeatingCandidates. split.
  - intros Hmany. destruct (Z.leb_spec (minPagesFor totalPages) (Z.of_nat (length pages)));
      [|lia]. cbn [orb]. destruct pages; [congruence|reflexivity].
  - intros Hfew. destruct (Z.leb_spec (minPagesFor totalPages) (Z.of_nat (length pages)));
      [lia|]. cbn [orb].
    destruct (hasContinuousRange pages (minPagesFor totalPages)) eqn:Hrange; [|reflexivity].
    apply hasContinuousRange_length in Hrange. lia.
Qed.

Lemma repeatingCandidates_condition_witness :
  (minPagesFor 10 <= Z.of_nat (length [1; 2; 3])
   -> length (repeatingCandidates ∅ 10 "sig" [1; 2; 3]) = 1%nat)
  /\ (Z.of_nat (length [1; 2; 3]) < minPagesFor 10
      -> repeatingCandidates ∅ 10 "sig" [1; 2; 3] = []).
Proof. apply repeatingCandidates_condition. discriminate. Defined.

Lemma continuousScan_run n prev maxContinuous currentContinuous :
  maxContinuous <= currentContinuous ->
  continuousScan prev (map (fun k => prev + 1 + Z.of_nat k) (seq 0 n))
    maxContinuous currentContinuous
  = match n with O => maxContinuous | _ => currentContinuous + Z.of_nat n end.
Proof.
  revert prev maxContinuous currentContinuous.
  induction n as [|n IH]; intros prev maxContinuous currentContinuous Hle; [reflexivity|].
  cbn [seq map continuousScan]. rewrite Z.add_0_r, Z.eqb_refl.
  rewrite <- seq_shift, map_map.
  rewrite (map_ext _ (fun k => (prev + 1) + 1 + Z.of_nat k)) by (intros k; lia).
  destruct (Z.ltb_spec maxContinuous (currentContinuous + 1)); [|lia].
  rewrite IH by lia. destruct n; lia.
Qed.

(** X10.  [hasContinuousRange] on the pages from [a] to [b], more than
    one: the range counts for its length.  A single page does not count
    as a range of length 1. *)
Theorem hasContinuousRange_range (a b minLength : Z) :
  a < b ->
  hasContinuousRange (page_range a b) minLength = (minLength <=? b - a + 1)
  /\ hasContinuousRange [a] 1 = false.
Proof.
  intros Hab. split; [|reflexivity].
  unfold hasContinuousRange, page_range.
  rewrite length_map, length_seq, Z2Nat.id by lia.
  destruct (Z.ltb_spec (b - a + 1) minLength) as [Hshort|Hlong].
  { symmetry. apply Z.leb_gt. exact Hshort. }
  replace (Z.to_nat (b - a + 1)) with (S (Z.to_nat (b - a))) by lia.
  cbn [seq map]. rewrite Z.add_0_r, <- seq_shift, map_map.
  rewrite (map_ext _ (fun k => a + 1 + Z.of_nat k)) by (intros k; lia).
  rewrite continuousScan_run by lia.
  destruct (Z.to_nat (b - a)) eqn:Hn; [lia|].
  f_equal. lia.
Qed.

Lemma hasContinuousRange_range_witness :
  hasContinuousRange (page_range 3 6) 4 = (4 <=? 6 - 3 + 1)
  /\ hasContinuousRange [3] 1 = false.
Proof. apply hasContinuousRange_range. lia. Defined.

(** ** The confidence of a candidate *)

Lemma gtb_cap q :
  exists r, (if F64.gtb (F64.Fin q) (F64.Fin 1) then F64.Fin 1 else F64.Fin q) = F64.Fin r
            /\ (r <= 1)%Q
            /\ forall low, (low <= 1)%Q -> (low <= q)%Q -> (low <= r)%Q.
Proof.
  cbn [F64.gtb]. destruct (Qle_bool q 1) eqn:Hle; cbn [negb].
  - apply Qle_bool_iff in Hle. exists q.
    split; [reflexivity|]. split; [exact Hle|]. intros low _ Hlow. exact Hlow.
  - exists 1%Q.
    split; [reflexivity|]. split; [apply Qle_refl|]. intros low Hlow _. exact Hlow.
Qed.

Lemma add_bonus (b : bool) (q bonus : Q) :
  (0 <= bonus)%Q ->
  exists r, (if b then F64.Fin (q + bonus) else F64.Fin q) = F64.Fin r
            /\ (q <= r)%Q.
Proof.
  intros Hbonus. destruct b; eexists; (split; [reflexivity|]).
  - rewrite <- (Qplus_0_r q) at 1. apply Qplus_le_r. exact Hbonus.
  - apply Qle_refl.
Qed.

(** X11.  The confidence of a candidate of the second pass is a number
    between 0.4 and 1, for a signature seen on at least one page of a
    document whose number of pages is not negative; also when that number
    is 0, where the ratio of the pages is infinite. *)
Theorem repeating_confidence_bounds (img : imageInfo) (pageCount totalPages : Z) :
  1 <= pageCount -> 0 <= totalPages ->
  exists q, calculateRepeatingUnwantedElementConfidence img pageCount totalPages = F64.Fin q
            /\ (4 # 10 <= q)%Q /\ (q <= 1)%Q.
Proof.
  intros Hcount Htotal. unfold calculateRepeatingUnwantedElementConfidence.
  destruct (Z.eq_dec totalPages 0) as [->|Hpos].
  - assert (Hratio : F64.div (F64.of_int pageCount) (F64.of_int 0) = F64.PosInf).
    { unfold F64.div, F64.of_int, F64.sgn. cbn [inject_Z Qnum].
      destruct (Z.compare_spec pageCount 0); [lia|lia|reflexivity]. }
    rewrite Hratio. cbn [F64.mul F64.add].
    exists 1%Q. split; [|split; [discriminate|apply Qle_refl]].
    destruct (_ || _), (_ || _), (img_softMask img); reflexivity.
  - assert (Hratio : exists ratio, F64.div (F64.of_int pageCount) (F64.of_int totalPages)
                                   = F64.Fin ratio /\ (0 <= ratio)%Q).
    { unfold F64.div, F64.of_int, F64.sgn. cbn [inject_Z Qnum].
      destruct (Z.compare_spec totalPages 0); [lia|lia|].
      eexists. split; [reflexivity|].
      apply Qle_shift_div_l; [unfold Qlt; simpl; lia|].
      rewrite Qmult_0_l. unfold Qle. simpl. lia. }
    destruct Hratio as (ratio & -> & Hratio). cbv zeta. cbn [F64.mul F64.add].
    destruct (add_bonus ((300 <? img_width img) || (400 <? img_height img))
                ((4 # 10) + ratio * (6 # 10))%Q (15 # 100)) as (q1 & -> & Hq1); [discriminate|].
    cbn [F64.add].
    destruct (add_bonus ((500 <? img_width img) || (700 <? img_height img))
                q1 (15 # 100)) as (q2 & -> & Hq2); [discriminate|].
    cbn [F64.add].
    destruct (add_bonus (img_softMask img) q2 (5 # 100)) as (q3 & -> & Hq3); [discriminate|].
    destruct (gtb_cap q3) as (r & -> & Hr & Hlow).
    exists r. split; [reflexivity|]. split; [|exact Hr].
    apply Hlow; [discriminate|].
    eapply Qle_trans; [|exact Hq3]. eapply Qle_trans; [|exact Hq2].
    eapply Qle_trans; [|exact Hq1].
    rewrite <- (Qplus_0_r (4 # 10)) at 1. apply Qplus_le_r.
    apply Qmult_le_0_compat; [exact Hratio|discriminate].
Qed.

Lemma repeating_confidence_bounds_witness :
  exists q, calculateRepeatingUnwantedElementConfidence
              (mkImageInfo "Im0" "11" 600 800 "10KB" true false "DeviceRGB") 9 10
            = F64.Fin q
            /\ (4 # 10 <= q)%Q /\ (q <= 1)%Q.
Proof. apply repeating_confidence_bounds; lia. Defined.

(** ** The signatures *)

Lemma len_append (a b : string) : len (a +:+ b) = len a + len b.
Proof.
  unfold len. induction a as [|c a IH]; [reflexivity|].
  rewrite append_cons. cbn [String.length]. lia.
Qed.

Lemma len_nonneg (s : string) : 0 <= len s.
Proof. unfold len. lia. Qed.

Lemma signature_of_len img prefix : 10 <= len (signature_of img prefix).
Proof.
  unfold signature_of. rewrite !len_append.
  change (len "x") with 1. change (len "_") with 1. change (len "_prefix:") with 8.
  pose proof (len_nonneg (Itoa (img_width img))).
  pose proof (len_nonneg (Itoa (img_height img))).
  pose proof (len_nonneg (img_colorSpace img)).
  pose proof (len_nonneg (img_size img)).
  pose proof (len_nonneg prefix). lia.
Qed.

(** X12.  What the second pass relies on when it takes [pages[0]] and
    [signature[:8]]: every signature of the grouping has at least one
    page and at least 8 bytes, and each of its pages is a page of the
    index. *)
Theorem imageSignatures_entries (sched : Scheduler) (byPage : gmap Z (list imageInfo))
    (signature : string) (pages : list Z) :
  imageSignatures (groupImages sched byPage) !! signature = Some pages ->
  pages <> [] /\ 8 <= len signature
  /\ Forall (fun page => is_Some (byPage !! page)) pages.
Proof.
  revert pages. unfold groupImages.
  apply (foldl_invariant_on
           (fun g => forall pages, imageSignatures g !! signature = Some pages ->
                       pages <> [] /\ 8 <= len signature
                       /\ Forall (fun page => is_Some (byPage !! page)) pages)
           (fun entry => is_Some (byPage !! fst entry))).
  - intros pages. cbn. rewrite lookup_empty. discriminate.
  - intros g [page imgs] Hg Hpage. cbn [fst snd] in *.
    apply (foldl_invariant
             (fun g => forall pages, imageSignatures g !! signature = Some pages ->
                         pages <> [] /\ 8 <= len signature
                         /\ Forall (fun page => is_Some (byPage !! page)) pages));
      [exact Hg|].
    clear g Hg. intros g img Hg pages. unfold groupImage. cbn [imageSignatures].
    rewrite map_append_lookup. destruct (decide _) as [<-|]; [|apply Hg].
    intros [= <-]. split; [destruct (map_get _ _); discriminate|].
    split; [pose proof (signature_of_len img (extractIdPrefix (img_id img))); lia|].
    apply Forall_app. split; [|constructor; [exact Hpage|constructor]].
    unfold map_get. destruct (imageSignatures g !! _) as [before|] eqn:Hbefore; [|constructor].
    apply (Hg before eq_refl).
  - apply Forall_forall. intros [page imgs] Hentry. cbn [fst].
    apply list_elem_of_In in Hentry.
    apply In_scheduled in Hentry; [|apply order_pages_perm].
    apply elem_of_map_to_list in Hentry. rewrite Hentry. eauto.
Qed.

Lemma imageSignatures_entries_witness :
  [2; 1] <> [] /\ 8 <= len "100x100_DeviceRGB_35.2KB_prefix:Image"
  /\ Forall (fun page =>
               is_Some (imagesByPage (scanTable same_image_listing) !! page)) [2; 1].
Proof.
  apply (imageSignatures_entries forward). vm_compute. reflexivity.
Defined.

(** ** The candidates *)

Lemma sizeGroupCandidates_shape totalPages prefix sizeKey sizeGroup c :
  In c (sizeGroupCandidates totalPages prefix sizeKey sizeGroup) ->
  image_candidate_shape c.
Proof.
  unfold sizeGroupCandidates, image_candidate_shape.
  destruct (_ <? totalPages); [intros []|].
  destruct (coverSizeGroup sizeGroup) as [pagesCovered representativeImg].
  destruct (F64.geb _ _); [|intros []].
  destruct (_ =? totalPages); intros [<-|[]]; cbn [Type_ Page Metadata];
    repeat (split; [first [reflexivity | eexists; reflexivity]|]); auto.
Qed.

Lemma repeatingCandidates_shape byPage totalPages signature pages c :
  In c (repeatingCandidates byPage totalPages signature pages) ->
  image_candidate_shape c.
Proof.
  unfold repeatingCandidates, image_candidate_shape.
  destruct (_ || _); [|intros []].
  destruct pages as [|firstPage pages]; [intros []|].
  intros [<-|[]]. cbn [Type_ Page Metadata].
  repeat (split; [first [reflexivity | eexists; reflexivity]|]); auto.
Qed.

Lemma imageCandidates_shape sched totalPages output c :
  In c (imageCandidates sched totalPages output) -> image_candidate_shape c.
Proof.
  unfold imageCandidates. intros Hin. apply in_app_or in Hin as [Hin|Hin].
  - unfold detectFullPageUnwantedElements in Hin.
    apply in_flat_map in Hin as ([prefix images] & _ & Hin).
    unfold prefixCandidates in Hin. cbn [fst snd] in Hin.
    destruct (_ <? minPagesFor totalPages); [destruct Hin|].
    destruct (_ =? 0); [destruct Hin|].
    apply in_flat_map in Hin as ([sizeKey sizeGroup] & _ & Hin).
    eapply sizeGroupCandidates_shape, Hin.
  - unfold detectRepeating in Hin.
    apply in_flat_map in Hin as ([signature pages] & _ & Hin). cbn [fst snd] in Hin.
    destruct (decide _); [destruct Hin|].
    eapply repeatingCandidates_shape, Hin.
Qed.

(** X13.  Every candidate that [analyzeImages] returns has the type
    ["image"] and the page 0, stores a signature, a prefix, an object and
    an image identifier, and is of one of the three kinds. *)
Theorem analyzeImages_candidates (w : World) (sched : Scheduler) (filename : string)
    (totalPages : Z) (h : list event) (candidates : list UnwantedElementCandidate) :
  fst (analyzeImages w sched filename totalPages h) = Returns candidates ->
  Forall image_candidate_shape candidates.
Proof.
  unfold analyzeImages, bind, execCommandWithTimeout, ret.
  destruct (snd (run w h _ _)); [discriminate|]. intros [= <-].
  apply Forall_forall. intros c Hc. apply list_elem_of_In in Hc.
  eapply imageCandidates_shape, Hc.
Qed.

Lemma analyzeImages_candidates_witness :
  Forall image_candidate_shape
    (imageCandidates forward 2 same_image_listing).
Proof.
  apply (analyzeImages_candidates (scripted "Pages: 2" same_image_listing None)
           forward "in.pdf" 2 []).
  reflexivity.
Defined.

(** X14.  The fourth strategy of the removal, which looks for the one
    occurrence of the stored object on the stored page, finds nothing for
    a candidate of the analysis, whose page is 0: the occurrences of such
    a candidate are those of the first three strategies. *)
Theorem singleOccurrence_idle (sched : Scheduler) (totalPages : Z) (output : string)
    (occurrences : gmap string (list imageOccurrence))
    (allOccurrences : list imageOccurrence) (candidate : UnwantedElementCandidate) :
  In candidate (imageCandidates sched totalPages output) ->
  foundOccurrences (resolveCandidate occurrences allOccurrences candidate)
  = foundOccurrences
      (fst (signatureMatch allOccurrences candidate
              (prefixMatch allOccurrences candidate (exactID occurrences candidate)))).
Proof.
  intros Hin. apply imageCandidates_shape in Hin as (_ & Hpage & _).
  unfold resolveCandidate, conclude. cbn [foundOccurrences].
  generalize (fst (signatureMatch allOccurrences candidate
                     (prefixMatch allOccurrences candidate (exactID occurrences candidate)))).
  intros r. unfold singleOccurrence. rewrite Hpage.
  destruct (isEmpty (foundOccurrences r)) eqn:Hempty; [|reflexivity].
  change (0 <? 0) with false. rewrite andb_false_r. cbn [foundOccurrences].
  unfold isEmpty in Hempty. destruct (foundOccurrences r); [reflexivity|].
  cbn [length] in Hempty. apply Z.eqb_eq in Hempty. lia.
Qed.

Lemma singleOccurrence_idle_witness :
  foundOccurrences
    (resolveCandidate (imageOccurrences (scanOccurrences same_image_listing))
       (allImageOccurrences (scanOccurrences same_image_listing))
       (hd no_candidate (imageCandidates forward 2 same_image_listing)))
  = foundOccurrences
      (fst (signatureMatch (allImageOccurrences (scanOccurrences same_image_listing))
              (hd no_candidate (imageCandidates forward 2 same_image_listing))
              (prefixMatch (allImageOccurrences (scanOccurrences same_image_listing))
                 (hd no_candidate (imageCandidates forward 2 same_image_listing))
                 (exactID (imageOccurrences (scanOccurrences same_image_listing))
                    (hd no_candidate (imageCandidates forward 2 same_image_listing)))))).
Proof.
  apply (singleOccurrence_idle forward 2 same_image_listing).
  vm_compute. left. reflexivity.
Defined.

Lemma handledSignatures_elem candidates c sig :
  In c candidates -> Metadata c !! "signature" = Some sig ->
  sig ∈ handledSignatures candidates.
Proof.
  unfold handledSignatures. generalize (∅ : gset string).
  induction candidates as [|c' candidates IH]; intros handled Hin Hsig; [destruct Hin|].
  cbn [foldl]. destruct Hin as [->|Hin].
  - rewrite Hsig.
    apply (foldl_invariant (fun handled => sig ∈ handled)).
    + apply elem_of_union_l, elem_of_singleton. reflexivity.
    + intros handled' c' Hin. destruct (Metadata c' !! "signature"); [|exact Hin].
      apply elem_of_union_r, Hin.
  - apply IH; assumption.
Qed.

Lemma repeatingCandidates_signature byPage totalPages signature pages c :
  In c (repeatingCandidates byPage totalPages signature pages) ->
  Metadata c !! "signature" = Some signature.
Proof.
  unfold repeatingCandidates.
  destruct (_ || _); [|intros []].
  destruct pages as [|firstPage pages]; [intros []|].
  intros [<-|[]]. reflexivity.
Qed.

(** X15.  The second pass leaves out the signatures of the first: no
    candidate of the second pass stores the signature of a candidate of
    the first pass. *)
Theorem passes_share_no_signature (sched : Scheduler) (totalPages : Z) (output : string)
    (first second : UnwantedElementCandidate) :
  In first (detectFullPageUnwantedElements sched
              (imagesByPrefix (groupImages sched (imagesByPage (scanTable output))))
              totalPages) ->
  In second (detectRepeating sched (imagesByPage (scanTable output)) totalPages
               (handledSignatures
                  (detectFullPageUnwantedElements sched
                     (imagesByPrefix (groupImages sched (imagesByPage (scanTable output))))
                     totalPages))
               (imageSignatures (groupImages sched (imagesByPage (scanTable output))))) ->
  Metadata first !! "signature" <> Metadata second !! "signature".
Proof.
  intros Hfirst Hsecond Heq.
  unfold detectRepeating in Hsecond.
  apply in_flat_map in Hsecond as ([signature pages] & _ & Hsecond).
  cbn [fst snd] in Hsecond.
  destruct (decide _) as [|Hfresh]; [destruct Hsecond|].
  apply repeatingCandidates_signature in Hsecond.
  apply Hfresh. eapply handledSignatures_elem; [exact Hfirst|].
  rewrite Heq. exact Hsecond.
Qed.

Lemma passes_share_no_signature_witness :
  Metadata
    (hd no_candidate
       (detectFullPageUnwantedElements forward
          (imagesByPrefix (groupImages forward (imagesByPage (scanTable two_kinds_listing))))
          2)) !! "signature"
  <> Metadata
       (hd no_candidate
          (detectRepeating forward (imagesByPage (scanTable two_kinds_listing)) 2
             (handledSignatures
                (detectFullPageUnwantedElements forward
                   (imagesByPrefix
                      (groupImages forward (imagesByPage (scanTable two_kinds_listing))))
                   2))
             (imageSignatures
                (groupImages forward (imagesByPage (scanTable two_kinds_listing))))))
     !! "signature".
Proof.
  apply (passes_share_no_signature forward 2 two_kinds_listing).
  - vm_compute. left. reflexivity.
  - vm_compute. left. reflexivity.
Defined.

(** ** The number of pages *)

(** X16.  [getPageCount] runs [pdfcpu info] once, and a number of pages
    that it returns is not negative and within the range of [int]; it
    can be 0. *)
Theorem getPageCount_pages (w : World) (filename : string) (h : list event) :
  snd (getPageCount w filename h) = h ++ [Exec DefaultCLITimeout ["pdfcpu"; "info"; filename]]
  /\ (forall totalPages, fst (getPageCount w filename h) = Returns totalPages ->
        0 <= totalPages <= MaxInt)
  /\ fst (getPageCount (scripted "Pages: 0" "" None) filename h) = Returns 0.
Proof.
  split; [apply getPageCount_run|]. split; [apply getPageCount_run|]. reflexivity.
Qed.

(** ** The analysis *)

Lemma AnalyzeUnwantedElements_Returns w sched filename h analysis :
  fst (AnalyzeUnwantedElements w sched filename h) = Returns analysis ->
  exists output,
    0 <= TotalPages analysis <= MaxInt
    /\ fst (getPageCount w filename h) = Returns (TotalPages analysis)
    /\ analysis = summarize (TotalPages analysis)
                    (imageCandidates sched (TotalPages analysis) output) []
    /\ snd (AnalyzeUnwantedElements w sched filename h)
       = h ++ [Exec DefaultCLITimeout ["pdfcpu"; "info"; filename];
               Exec AnalysisTimeout ["pdfcpu"; "images"; "list"; filename]].
Proof.
  destruct (AnalyzeUnwantedElements w sched filename h) as [r h'] eqn:Hrun.
  cbn [fst snd]. intros ->. revert Hrun.
  unfold AnalyzeUnwantedElements. unfold bind at 1.
  destruct (getPageCount_run w filename h) as [Hevents Hrange].
  destruct (getPageCount w filename h) as [pc h1]. cbn [fst snd] in *. subst h1.
  destruct pc as [pages|msg|]; [|discriminate..].
  specialize (Hrange pages eq_refl).
  unfold analyzeImages, bind, execCommandWithTimeout, ret.
  destruct (snd (run w _ AnalysisTimeout _)); [discriminate|].
  cbn [analyzeContent fst snd]. intros [= <- <-]. eexists.
  cbn [TotalPages summarize]. split; [exact Hrange|]. split; [reflexivity|].
  split; [reflexivity|]. rewrite <- app_assoc. reflexivity.
Qed.

(** X17.  An analysis that [AnalyzeUnwantedElements] returns has no text
    candidate and exactly one recommendation; its overall confidence is 0
    when there is no image candidate and 0.5 or 0.8 otherwise; its
    candidates have the shape of image candidates; and the commands that
    have been run are [pdfcpu info] and [pdfcpu images list], in that
    order. *)
Theorem AnalyzeUnwantedElements_analysis (w : World) (sched : Scheduler) (filename : string)
    (h : list event) (analysis : UnwantedElementsAnalysis) :
  fst (AnalyzeUnwantedElements w sched filename h) = Returns analysis ->
  TextCandidates analysis = []
  /\ length (Recommendations analysis) = 1%nat
  /\ (ImageCandidates analysis = [] -> OverallConfidence analysis = F64.Fin 0)
  /\ (ImageCandidates analysis <> [] ->
        OverallConfidence analysis = F64.Fin (5 # 10)
        \/ OverallConfidence analysis = F64.Fin (8 # 10))
  /\ Forall image_candidate_shape (ImageCandidates analysis)
  /\ filter is_exec (snd (AnalyzeUnwantedElements w sched filename h))
     = filter is_exec h
       ++ [Exec DefaultCLITimeout ["pdfcpu"; "info"; filename];
           Exec AnalysisTimeout ["pdfcpu"; "images"; "list"; filename]].
Proof.
  intros Hrun.
  apply AnalyzeUnwantedElements_Returns in Hrun as (output & _ & _ & Hsum & Hevents).
  split; [rewrite Hsum; reflexivity|].
  assert (Hcands : ImageCandidates analysis
                   = imageCandidates sched (TotalPages analysis) output).
  { rewrite Hsum at 1. reflexivity. }
  revert Hsum Hcands. generalize (imageCandidates_shape sched (TotalPages analysis) output).
  generalize (imageCandidates sched (TotalPages analysis) output). intros cands Hshape Hsum Hcands.
  rewrite Hcands. rewrite Hsum. cbn [Recommendations OverallConfidence summarize].
  split; [destruct cands; reflexivity|].
  split; [intros ->; reflexivity|].
  split.
  { intros Hne. destruct cands as [|c cands]; [congruence|].
    cbn [length]. rewrite Z.add_0_r.
    destruct (Z.ltb_spec 0 (Z.of_nat (S (length cands)))); [|lia].
    destruct (_ <? _); auto. }
  split; [|rewrite Hevents, filter_app; reflexivity].
  apply Forall_forall. intros c Hc. apply Hshape, list_elem_of_In, Hc.
Qed.

Lemma AnalyzeUnwantedElements_analysis_witness :
  TextCandidates (summarize 2 (imageCandidates forward 2 same_image_listing) []) = []
  /\ length (Recommendations (summarize 2 (imageCandidates forward 2 same_image_listing) []))
     = 1%nat
  /\ (ImageCandidates (summarize 2 (imageCandidates forward 2 same_image_listing) []) = []
      -> OverallConfidence (summarize 2 (imageCandidates forward 2 same_image_listing) [])
         = F64.Fin 0)
  /\ (ImageCandidates (summarize 2 (imageCandidates forward 2 same_image_listing) []) <> []
      -> OverallConfidence (summarize 2 (imageCandidates forward 2 same_image_listing) [])
         = F64.Fin (5 # 10)
         \/ OverallConfidence (summarize 2 (imageCandidates forward 2 same_image_listing) [])
            = F64.Fin (8 # 10))
  /\ Forall image_candidate_shape
       (ImageCandidates (summarize 2 (imageCandidates forward 2 same_image_listing) []))
  /\ filter is_exec
       (snd (AnalyzeUnwantedElements (scripted "Pages: 2" same_image_listing None) forward
               "in.pdf" []))
     = filter is_exec []
       ++ [Exec DefaultCLITimeout ["pdfcpu"; "info"; "in.pdf"];
           Exec AnalysisTimeout ["pdfcpu"; "images"; "list"; "in.pdf"]].
Proof.
  apply (AnalyzeUnwantedElements_analysis (scripted "Pages: 2" same_image_listing None)
           forward "in.pdf" []).
  vm_compute. reflexivity.
Defined.

(** ** The prefix of an identifier and the removal *)

Lemma HasPrefix_slice_to n s : HasPrefix s (slice_to n s) = true.
Proof.
  revert s. induction n as [|n IH]; intros s; [reflexivity|].
  destruct s as [|c s]; [reflexivity|].
  cbn [slice_to HasPrefix]. rewrite Ascii.eqb_refl, IH. reflexivity.
Qed.

Lemma HasPrefix_refl s : HasPrefix s s = true.
Proof.
  induction s as [|c s IH]; [reflexivity|].
  cbn [HasPrefix]. rewrite Ascii.eqb_refl, IH. reflexivity.
Qed.

Lemma HasPrefix_shorter s p q : HasPrefix s (p +:+ q) = true -> HasPrefix s p = true.
Proof.
  revert s. induction p as [|c p IH]; intros s; [reflexivity|].
  rewrite append_cons. destruct s as [|d s]; cbn [HasPrefix]; [discriminate|].
  intros Hpre. apply andb_true_iff in Hpre as [-> Hpre]. apply IH, Hpre.
Qed.

Lemma extractIdPrefix_prefix id :
  (HasPrefix id "WM-" = true /\ extractIdPrefix id = "Watermark")
  \/ extractIdPrefix id = "unknown"
  \/ HasPrefix id (extractIdPrefix id) = true.
Proof.
  unfold extractIdPrefix.
  destruct (HasPrefix id "Image-") eqn:Himage.
  { right. right. apply (HasPrefix_shorter id "Image" "-"), Himage. }
  destruct (HasPrefix id "Img") eqn:Himg; [auto|].
  destruct (HasPrefix id "WM-") eqn:Hwm; [auto|]. cbn [orb].
  destruct (HasPrefix id "Watermark") eqn:Hmark; [auto|].
  cbv zeta.
  assert (Hlen : (if 3 <=? len id
                  then slice_to (if 5 <? len id then 5%nat else 3%nat) id
                  else "unknown") = "unknown"
                 \/ HasPrefix id (if 3 <=? len id
                                  then slice_to (if 5 <? len id then 5%nat else 3%nat) id
                                  else "unknown") = true).
  { destruct (3 <=? len id); [right; apply HasPrefix_slice_to|left; reflexivity]. }
  destruct (Contains id "-"); [|destruct Hlen; auto].
  destruct (_ && _); [|destruct Hlen; auto].
  right. right. unfold Split.
  destruct (split_from_dash id "") as (-> & _ & _). rewrite append_nil_l.
  destruct (0 <=? Index id "-"); [apply HasPrefix_slice_to|apply HasPrefix_refl].
Qed.

(** X18.  The prefix that the analysis stores for an image finds that
    image again in the second strategy of the removal: an occurrence
    matches the prefix of its own identifier, unless that prefix is
    ["unknown"] or the identifier starts with ["WM-"], whose prefix
    ["Watermark"] is not a part of it. *)
Theorem own_prefix_matches (occ : imageOccurrence) :
  extractIdPrefix (occ_id occ) <> "unknown" ->
  HasPrefix (occ_id occ) "WM-" = false ->
  matchesPrefix (extractIdPrefix (occ_id occ)) occ = true
  /\ matchesPrefix (extractIdPrefix "WM-1") (mkOccurrence 1 "11" "WM-1") = false.
Proof.
  intros Hknown Hwm. split; [|reflexivity]. unfold matchesPrefix.
  destruct (extractIdPrefix_prefix (occ_id occ)) as [[Hwm' _]|[Hunknown|Hprefix]];
    [congruence|congruence|rewrite Hprefix; reflexivity].
Qed.

Lemma own_prefix_matches_witness :
  matchesPrefix (extractIdPrefix (occ_id (mkOccurrence 3 "14" "Logo-7")))
    (mkOccurrence 3 "14" "Logo-7") = true
  /\ matchesPrefix (extractIdPrefix "WM-1") (mkOccurrence 1 "11" "WM-1") = false.
Proof. apply own_prefix_matches; [discriminate|reflexivity]. Defined.

(** ** The occurrences of the images *)

(** X19.  The occurrences that [removeImagesByIDs] reads from the listing:
    each has a page that is not 0, an object number that is not empty and
    an identifier that is not empty; and the index of the identifiers
    holds, for an identifier, the occurrences of the list with that
    identifier, in the order of the listing. *)
Theorem scanOccurrences_index (output id : string) :
  Forall (fun occ => occ_page occ <> 0 /\ occ_obj occ <> "" /\ occ_id occ <> "")
    (allImageOccurrences (scanOccurrences output))
  /\ map_get (imageOccurrences (scanOccurrences output)) id
     = filter (fun occ => occ_id occ = id) (allImageOccurrences (scanOccurrences output)).
Proof. split; [apply scanOccurrences_records|apply scanOccurrences_agree]. Qed.

(** ** From the candidates to the images to remove *)

(** X20.  The images that [removeImagesByIDs] sets out to replace are
    occurrences of the listing, whatever the candidates and the selection:
    each has an object number, so that each is replaced by its object
    number and the error of an image that cannot be identified does not
    arise. *)
Theorem collectImages_listed (analysis : UnwantedElementsAnalysis) (elementIDs : list string)
    (output : string) :
  Forall (fun img => objNr img <> ""
                     /\ exists occ, occ ∈ allImageOccurrences (scanOccurrences output)
                                    /\ img = toRemove occ)
    (collectImages (resolveSelected analysis elementIDs (scanOccurrences output))).
Proof.
  apply Forall_forall. intros img Himg. apply list_elem_of_In in Himg.
  unfold collectImages, resolveSelected in Himg.
  apply in_flat_map in Himg as (r & Hr & Himg).
  apply in_map_iff in Hr as (candidate & <- & _).
  apply in_map_iff in Himg as (occ & <- & Hocc).
  assert (Hlisted : occ ∈ allImageOccurrences (scanOccurrences output)).
  { pose proof (resolveCandidate_within (imageOccurrences (scanOccurrences output))
                  (allImageOccurrences (scanOccurrences output)) candidate) as Hwithin.
    rewrite Forall_forall in Hwithin. apply Hwithin; [|apply list_elem_of_In, Hocc].
    intros id occs Hid.
    pose proof (scanOccurrences_agree output id) as Hagree.
    unfold map_get in Hagree. rewrite Hid in Hagree. cbn in Hagree. subst occs.
    apply Forall_forall. intros occ' Hocc'. apply list_elem_of_filter in Hocc' as [_ Hocc'].
    exact Hocc'. }
  split; [|eauto].
  pose proof (scanOccurrences_records output) as Hrecords.
  rewrite Forall_forall in Hrecords. apply Hrecords in Hlisted. cbn [toRemove objNr]. tauto.
Qed.

(** ** The chain of the replacements *)

(** The replacements from the image of index [i] on, in a world in which
    every command succeeds: the command of an image reads the file that
    the command before it wrote and writes a file of its own, the last
    one the output file; then the files in between are removed. *)
Lemma removeChain_obliging w outFile blankImagePath n :
  obliging w ->
  forall images i currentFile tempFiles h,
    Forall (fun img => objNr img <> "") images ->
    i + Z.of_nat (length images) = n ->
    exists files,
      length files = pred (length images)
      /\ removeChain w outFile blankImagePath n images i currentFile tempFiles h
         = (None,
            h ++ map (fun step =>
                        Exec DefaultCLITimeout
                          ["pdfcpu"; "images"; "update"; fst (snd step); blankImagePath;
                           snd (snd step); objNr (fst step)])
                     (zip images (zip (currentFile :: files) (files ++ [outFile])))
              ++ map RemoveFile (filter (fun tf => tf ≠ outFile) (tempFiles ++ files))).
Proof.
  intros Hw. induction images as [|img rest IH]; intros i currentFile tempFiles h Hobj Hlen.
  - exists []. split; [reflexivity|]. cbn [removeChain]. unfold bind, ret.
    rewrite removeAll_events, !app_nil_r. reflexivity.
  - apply Forall_cons in Hobj as [Himg Hrest]. cbn [removeChain].
    apply String.eqb_neq in Himg. rewrite Himg. cbn [negb].
    unfold bind at 1. unfold execCommandWithTimeout at 1.
    rewrite Hw. cbn [length] in Hlen.
    destruct rest as [|img' rest'].
    + exists []. split; [reflexivity|].
      replace (i =? n - 1) with true
        by (symmetry; apply Z.eqb_eq; cbn [length] in Hlen; lia).
      cbn [removeChain]. unfold bind, ret. rewrite removeAll_events.
      cbn [zip zip_with map app fst snd]. rewrite app_nil_r, <- app_assoc. reflexivity.
    + replace (i =? n - 1) with false
        by (symmetry; apply Z.eqb_neq; cbn [length] in Hlen; lia).
      replace (i <? n - 1) with true
        by (symmetry; apply Z.ltb_lt; cbn [length] in Hlen; lia).
      destruct (IH (i + 1)
                  (filepath_Join w (filepath_Dir w outFile)
                     ("temp_" +:+ Itoa i +:+ "_" +:+ filepath_Base w outFile))
                  (tempFiles ++ [filepath_Join w (filepath_Dir w outFile)
                                   ("temp_" +:+ Itoa i +:+ "_" +:+ filepath_Base w outFile)])
                  (h ++ [Exec DefaultCLITimeout
                           ["pdfcpu"; "images"; "update"; currentFile; blankImagePath;
                            filepath_Join w (filepath_Dir w outFile)
                              ("temp_" +:+ Itoa i +:+ "_" +:+ filepath_Base w outFile);
                            objNr img]])
                  Hrest) as (files & Hfiles & Hrun); [cbn [length] in *; lia|].
      exists (filepath_Join w (filepath_Dir w outFile)
                ("temp_" +:+ Itoa i +:+ "_" +:+ filepath_Base w outFile) :: files).
      split; [cbn [length] in *; lia|].
      rewrite Hrun. f_equal.
      cbn [zip zip_with map app fst snd]. rewrite <- !app_assoc. reflexivity.
Qed.

(** X21.  Where every command succeeds, the loop of [removeImagesByIDs]
    over the images to remove, each of which has an object number,
    replaces them one after the other: the first command reads the input file,
    each of the others reads the file that the command before it wrote,
    the last one writes the output file, every image is replaced by its
    object number, and the files in between are removed at the end. *)
Theorem removeChain_chain (w : World) (outFile blankImagePath inFile : string)
    (images : list imageToRemove) (h : list event) :
  obliging w -> Forall (fun img => objNr img <> "") images ->
  exists files,
    length files = pred (length images)
    /\ removeChain w outFile blankImagePath (Z.of_nat (length images)) images 0 inFile [] h
       = (None,
          h ++ map (fun step =>
                      Exec DefaultCLITimeout
                        ["pdfcpu"; "images"; "update"; fst (snd step); blankImagePath;
                         snd (snd step); objNr (fst step)])
                   (zip images (zip (inFile :: files) (files ++ [outFile])))
            ++ map RemoveFile (filter (fun tf => tf ≠ outFile) files)).
Proof.
  intros Hw Hobj.
  destruct (removeChain_obliging w outFile blankImagePath (Z.of_nat (length images)) Hw
              images 0 inFile [] h Hobj) as (files & Hfiles & Hrun); [lia|].
  exists files. split; [exact Hfiles|]. exact Hrun.
Qed.

Lemma removeChain_chain_witness :
  exists files,
    length files = pred (length [mkImageToRemove "11" 1 "Image-1";
                                 mkImageToRemove "12" 2 "Image-1"])
    /\ removeChain (scripted "Pages: 2" same_image_listing None) "out.pdf" "blank.png"
         (Z.of_nat (length [mkImageToRemove "11" 1 "Image-1";
                            mkImageToRemove "12" 2 "Image-1"]))
         [mkImageToRemove "11" 1 "Image-1"; mkImageToRemove "12" 2 "Image-1"] 0 "in.pdf" [] []
       = (None,
          [] ++ map (fun step =>
                       Exec DefaultCLITimeout
                         ["pdfcpu"; "images"; "update"; fst (snd step); "blank.png";
                          snd (snd step); objNr (fst step)])
                    (zip [mkImageToRemove "11" 1 "Image-1"; mkImageToRemove "12" 2 "Image-1"]
                       (zip ("in.pdf" :: files) (files ++ ["out.pdf"])))
            ++ map RemoveFile (filter (fun tf => tf ≠ "out.pdf") files)).
Proof.
  apply removeChain_chain.
  - intros h timeout command. cbn [scripted run].
    repeat destruct (command_is _ _); reflexivity.
  - repeat (constructor; [discriminate|]). constructor.
Defined.

(** ** The blank image *)

(** X22.  A run of [removeImagesByIDs] either does nothing but run
    commands and write to the log, or fails to create the blank image and
    reports it, or creates the blank image and, as the last thing it
    does, removes it, whether the replacements succeed or fail. *)
Theorem blank_image_removed (w : World) (sched : Scheduler) (inFile outFile : string)
    (elementIDs : list string) :
  Forall (fun e => is_exec e = true \/ is_log e = true)
    (events_of (removeImagesByIDs w sched inFile outFile elementIDs))
  \/ (exists err,
        result_of (removeImagesByIDs w sched inFile outFile elementIDs)
        = Returns (Some ("failed to create blank image: " +:+ err)))
  \/ (exists before path,
        blank_image w before (filepath_Dir w outFile) = inl path
        /\ In (CreateBlankImage (filepath_Dir w outFile))
             (events_of (removeImagesByIDs w sched inFile outFile elementIDs))
        /\ last (events_of (removeImagesByIDs w sched inFile outFile elementIDs))
           = Some (RemoveFile path)).
Proof.
  unfold events_of, result_of.
  destruct (removeImagesByIDs w sched inFile outFile elementIDs []) as [r h'] eqn:Hrun.
  cbn [fst snd]. revert Hrun. unfold removeImagesByIDs. unfold bind at 1.
  destruct (AnalyzeUnwantedElements w sched inFile []) as [a h1] eqn:Hanalysis.
  assert (Hh1 : Forall (fun e => is_exec e = true \/ is_log e = true) h1).
  { revert Hanalysis. unfold AnalyzeUnwantedElements. unfold bind at 1.
    pose proof (getPageCount_run w inFile []) as [Hevents _].
    destruct (getPageCount w inFile []) as [pc h0]. cbn [snd] in Hevents. subst h0.
    destruct pc as [pages|msg|]; unfold ret;
      [|intros [= _ <-]; repeat constructor..].
    unfold analyzeImages, bind, execCommandWithTimeout, ret.
    destruct (snd (run w _ AnalysisTimeout _)); cbn [analyzeContent];
      intros [= _ <-]; repeat constructor. }
  destruct a as [analysis|msg|]; unfold ret; [|intros [= _ <-]; left; exact Hh1..].
  unfold bind at 1. unfold execCommandWithTimeout at 1.
  destruct (run w h1 DefaultCLITimeout ["pdfcpu"; "images"; "list"; inFile])
    as [output [err|]]; cbn [fst snd].
  { intros [= _ <-]. left. apply Forall_app. split; [exact Hh1|]. repeat constructor. }
  unfold bind at 1. rewrite logAll_events.
  set (before := (h1 ++ _) ++ map Log _).
  assert (Hbefore : Forall (fun e => is_exec e = true \/ is_log e = true) before).
  { unfold before. apply Forall_app. split.
    - apply Forall_app. split; [exact Hh1|]. repeat constructor.
    - apply Forall_forall. intros e He. apply list_elem_of_In, in_map_iff in He as (m & <- & _).
      right. reflexivity. }
  destruct (isEmpty _); [intros [= _ <-]; left; exact Hbefore|].
  unfold bind at 1. unfold createBlankImage.
  destruct (blank_image w before (filepath_Dir w outFile)) as [path|err] eqn:Hblank.
  - unfold bind at 1.
    destruct (removeChain_extends w outFile path
                (Z.of_nat (length (collectImages
                   (resolveSelected analysis elementIDs (scanOccurrences output)))))
                (collectImages (resolveSelected analysis elementIDs (scanOccurrences output)))
                0 inFile [] (before ++ [CreateBlankImage (filepath_Dir w outFile)]))
      as [tail Htail].
    destruct (removeChain _ _ _ _ _ _ _ _ _) as [e h2]. cbn [snd] in Htail. subst h2.
    unfold bind, osRemove, ret. intros [= _ <-]. right. right.
    exists before, path. split; [exact Hblank|]. split; [|apply last_snoc].
    apply in_or_app. left. apply in_or_app. left. apply in_or_app. right. left. reflexivity.
  - intros [= <- <-]. right. left. eauto.
Qed.

(** ** The removal of the watermarks and the selected elements *)

Lemma removeWatermarks_result w inFile outFile h :
  fst (removeWatermarks w inFile outFile h) = None
  \/ fst (removeWatermarks w inFile outFile h) = Some embeddedContentError
  \/ (exists tail, fst (removeWatermarks w inFile outFile h)
                   = Some ("pdfcpu watermark remove failed: " +:+ tail))
  \/ (exists tail, fst (removeWatermarks w inFile outFile h)
                   = Some ("pdfcpu stamp remove also failed: " +:+ tail)).
Proof.
  destruct (removeWatermarks w inFile outFile h) as [e h'] eqn:Hrun. cbn [fst].
  revert Hrun. unfold removeWatermarks. unfold bind at 1. unfold execCommandWithTimeout at 1.
  destruct (run w h _ _) as [output [err|]]; cbn [fst snd].
  - destruct (_ || _).
    + unfold bind at 1. unfold logPrintf. unfold bind at 1. unfold execCommandWithTimeout.
      destruct (run w _ _ _) as [stampOutput [stampErr|]]; cbn [fst snd].
      * destruct (Contains stampOutput "no stamps found");
          [intros [= <- _]; right; left; reflexivity|].
        destruct (negb _); unfold ret; intros [= <- _]; right; right; right;
          rewrite ?append_assoc; eauto.
      * unfold bind, ret. destruct (negb _); intros [= <- _]; left; reflexivity.
    + destruct (negb _); unfold ret; intros [= <- _]; right; right; left;
        rewrite ?append_assoc; eauto.
  - unfold bind, ret. destruct (negb _); intros [= <- _]; left; reflexivity.
Qed.

Lemma filter_exec_logs (logs : list event) :
  Forall (fun ev => is_exec ev = false) logs -> filter is_exec logs = [].
Proof.
  induction 1 as [|ev logs Hev _ IH]; [reflexivity|].
  rewrite filter_cons_False by (rewrite Hev; cbn; tauto). exact IH.
Qed.

(** X23.  [RemoveElementsByIDs] for the watermarks runs
    [pdfcpu watermark remove].  When that command fails with an output
    that says that no watermarks or no stamps were found, it runs
    [pdfcpu stamp remove] after it, and succeeds exactly when the second
    command succeeds.  In every other case it runs no other command, and
    succeeds exactly when the first command succeeds. *)
Theorem removeWatermarks_commands (w : World) (inFile outFile : string) (h : list event) :
  (snd (run w h DefaultCLITimeout ["pdfcpu"; "watermark"; "remove"; "--"; inFile; outFile])
   <> None
   /\ (Contains (fst (run w h DefaultCLITimeout
                        ["pdfcpu"; "watermark"; "remove"; "--"; inFile; outFile]))
         "no watermarks found"
       || Contains (fst (run w h DefaultCLITimeout
                           ["pdfcpu"; "watermark"; "remove"; "--"; inFile; outFile]))
            "no stamps found") = true ->
   filter is_exec (snd (removeWatermarks w inFile outFile h))
   = filter is_exec h
     ++ [Exec DefaultCLITimeout ["pdfcpu"; "watermark"; "remove"; "--"; inFile; outFile];
         Exec DefaultCLITimeout ["pdfcpu"; "stamp"; "remove"; "--"; inFile; outFile]]
   /\ (fst (removeWatermarks w inFile outFile h) = None
       <-> snd (run w
                  (h ++ [Exec DefaultCLITimeout
                           ["pdfcpu"; "watermark"; "remove"; "--"; inFile; outFile];
                         Log "No pdfcpu watermarks found, trying stamp remove as alternative..."])
                  DefaultCLITimeout ["pdfcpu"; "stamp"; "remove"; "--"; inFile; outFile])
           = None))
  /\ (~ (snd (run w h DefaultCLITimeout
                ["pdfcpu"; "watermark"; "remove"; "--"; inFile; outFile]) <> None
         /\ (Contains (fst (run w h DefaultCLITimeout
                              ["pdfcpu"; "watermark"; "remove"; "--"; inFile; outFile]))
               "no watermarks found"
             || Contains (fst (run w h DefaultCLITimeout
                                 ["pdfcpu"; "watermark"; "remove"; "--"; inFile; outFile]))
                  "no stamps found") = true) ->
      filter is_exec (snd (removeWatermarks w inFile outFile h))
      = filter is_exec h
        ++ [Exec DefaultCLITimeout ["pdfcpu"; "watermark"; "remove"; "--"; inFile; outFile]]
      /\ (fst (removeWatermarks w inFile outFile h) = None
          <-> snd (run w h DefaultCLITimeout
                     ["pdfcpu"; "watermark"; "remove"; "--"; inFile; outFile]) = None)).
Proof.
  destruct (removeWatermarks w inFile outFile h) as [e h'] eqn:Hrun. cbn [fst snd].
  revert Hrun. unfold removeWatermarks. unfold bind at 1. unfold execCommandWithTimeout at 1.
  destruct (run w h _ _) as [output [err|]]; cbn [fst snd].
  - destruct (_ || _) eqn:Hphrase.
    + unfold bind at 1. unfold logPrintf. unfold bind at 1. unfold execCommandWithTimeout.
      rewrite <- app_assoc. cbn [app].
      intros Hrun. split; [intros _|intros Hnot; exfalso; apply Hnot; split; [discriminate|reflexivity]].
      revert Hrun.
      destruct (run w _ _ _) as [stampOutput [stampErr|]]; cbn [fst snd].
      * intros Hrun.
        assert (e <> None /\ h' = (h ++ [Exec DefaultCLITimeout
                                           ["pdfcpu"; "watermark"; "remove"; "--"; inFile; outFile];
                                         Log "No pdfcpu watermarks found, trying stamp remove as alternative..."])
                                  ++ [Exec DefaultCLITimeout
                                        ["pdfcpu"; "stamp"; "remove"; "--"; inFile; outFile]])
          as [He ->].
        { revert Hrun. destruct (Contains stampOutput "no stamps found");
            [|destruct (negb _)]; unfold ret; intros [= <- <-]; split;
            try discriminate; reflexivity. }
        split; [rewrite !filter_app, <- app_assoc; reflexivity|].
        split; [intros ->; congruence|discriminate].
      * unfold bind, ret. intros Hrun.
        assert (e = None /\ exists logs, Forall (fun ev => is_exec ev = false) logs /\
                 h' = ((h ++ [Exec DefaultCLITimeout
                                ["pdfcpu"; "watermark"; "remove"; "--"; inFile; outFile];
                              Log "No pdfcpu watermarks found, trying stamp remove as alternative..."])
                       ++ [Exec DefaultCLITimeout
                             ["pdfcpu"; "stamp"; "remove"; "--"; inFile; outFile]]) ++ logs)
          as [-> (logs & Hlogs & ->)].
        { revert Hrun. destruct (negb _); unfold logPrintf; cbv beta iota zeta;
            intros [= <- <-]; (split; [reflexivity|]); eexists; (split; [|try reflexivity]).
          - repeat constructor.
          - constructor.
          - rewrite app_nil_r. reflexivity. }
        split; [|tauto].
        rewrite !filter_app, <- !app_assoc, (filter_exec_logs logs Hlogs). reflexivity.
    + intros Hrun. split; [intros [_ Hyes]; discriminate Hyes|intros _].
      assert (e <> None /\ h' = h ++ [Exec DefaultCLITimeout
                                        ["pdfcpu"; "watermark"; "remove"; "--"; inFile; outFile]])
        as [He ->].
      { revert Hrun. destruct (negb _); unfold ret; intros [= <- <-]; split;
          try discriminate; reflexivity. }
      split; [rewrite filter_app; reflexivity|].
      split; [intros ->; congruence|discriminate].
  - unfold bind, ret. intros Hrun. split; [intros [Hfail _]; congruence|intros _].
    assert (e = None /\ exists logs, Forall (fun ev => is_exec ev = false) logs /\
             h' = (h ++ [Exec DefaultCLITimeout
                           ["pdfcpu"; "watermark"; "remove"; "--"; inFile; outFile]]) ++ logs)
      as [-> (logs & Hlogs & ->)].
    { revert Hrun. destruct (negb _); unfold logPrintf; cbv beta iota zeta;
        intros [= <- <-]; (split; [reflexivity|]); eexists; (split; [|try reflexivity]).
      - repeat constructor.
      - constructor.
      - rewrite app_nil_r. reflexivity. }
    split; [|tauto].
    rewrite !filter_app, <- !app_assoc, (filter_exec_logs logs Hlogs). reflexivity.
Qed.

Lemma removeWatermarks_commands_witness :
  filter is_exec (snd (removeWatermarks no_watermarks "in.pdf" "out.pdf" []))
  = filter is_exec []
    ++ [Exec DefaultCLITimeout ["pdfcpu"; "watermark"; "remove"; "--"; "in.pdf"; "out.pdf"];
        Exec DefaultCLITimeout ["pdfcpu"; "stamp"; "remove"; "--"; "in.pdf"; "out.pdf"]]
  /\ (fst (removeWatermarks no_watermarks "in.pdf" "out.pdf" []) = None
      <-> snd (run no_watermarks
                 ([] ++ [Exec DefaultCLITimeout
                           ["pdfcpu"; "watermark"; "remove"; "--"; "in.pdf"; "out.pdf"];
                         Log "No pdfcpu watermarks found, trying stamp remove as alternative..."])
                 DefaultCLITimeout ["pdfcpu"; "stamp"; "remove"; "--"; "in.pdf"; "out.pdf"])
          = None).
Proof.
  apply (removeWatermarks_commands no_watermarks "in.pdf" "out.pdf" []).
  split; [vm_compute; discriminate|vm_compute; reflexivity].
Defined.

(** ** api/handlers.go: the selected elements *)

Lemma AnalyzeUnwantedElements_ends w sched filename h :
  fst (AnalyzeUnwantedElements w sched filename h) <> Diverges.
Proof.
  unfold AnalyzeUnwantedElements. unfold bind at 1.
  destruct (getPageCount w filename h) as [pc h1] eqn:Hcount.
  assert (Hpc : pc <> Diverges).
  { revert Hcount. unfold getPageCount, bind, execCommandWithTimeout, ret.
    destruct (snd (run w h _ _)); [intros [= <- _]; discriminate|].
    destruct (firstPageCount _ _); intros [= <- _]; discriminate. }
  destruct pc as [pages|msg|]; [|discriminate|congruence].
  unfold analyzeImages, bind, execCommandWithTimeout, ret.
  destruct (snd (run w h1 _ _)); discriminate.
Qed.

Lemma removeImagesByIDs_returns w sched inFile outFile elementIDs h :
  exists e, fst (removeImagesByIDs w sched inFile outFile elementIDs h) = Returns e.
Proof.
  unfold removeImagesByIDs. unfold bind at 1.
  pose proof (AnalyzeUnwantedElements_ends w sched inFile h) as Hends.
  destruct (AnalyzeUnwantedElements w sched inFile h) as [a h1]. cbn [fst] in Hends.
  destruct a as [analysis|msg|]; [|unfold ret; eauto|congruence].
  unfold bind at 1. unfold execCommandWithTimeout at 1.
  destruct (run w h1 _ _) as [output [err|]]; cbn [fst snd]; [unfold ret; eauto|].
  unfold bind at 1. rewrite logAll_events.
  destruct (isEmpty _); [unfold ret; eauto|].
  unfold bind at 1. unfold createBlankImage.
  destruct (blank_image w _ _) as [path|err]; [|unfold ret; eauto].
  unfold bind at 1. destruct (removeChain _ _ _ _ _ _ _ _ _) as [e h2].
  unfold bind, osRemove, ret. eauto.
Qed.

(** X24.  The operation of [HandleRemoveSelectedElements] never reports a
    failure of the removal of the images: it ends, and it ends with
    success or with an error of the removal of the watermarks, which it
    runs when the removal of the images fails. *)
Theorem removeSelectedOperation_result (w : World) (sched : Scheduler)
    (inFile outFile : string) (elementIDs : list string) (h : list event) :
  exists e,
    fst (removeSelectedOperation w sched inFile outFile elementIDs h) = Returns e
    /\ (e = None
        \/ e = Some embeddedContentError
        \/ (exists tail, e = Some ("pdfcpu watermark remove failed: " +:+ tail))
        \/ (exists tail, e = Some ("pdfcpu stamp remove also failed: " +:+ tail))).
Proof.
  unfold removeSelectedOperation. unfold bind at 1.
  assert (Himage : exists e,
            fst (RemoveElementsByIDs w sched inFile outFile "image" (Some elementIDs) h)
            = Returns e).
  { unfold RemoveElementsByIDs. cbn [String.eqb Ascii.eqb Bool.eqb negb andb].
    destruct elementIDs as [|id ids]; [unfold ret; eauto|].
    apply removeImagesByIDs_returns. }
  destruct (RemoveElementsByIDs w sched inFile outFile "image" (Some elementIDs) h)
    as [r h1]. cbn [fst] in Himage. destruct Himage as [e ->].
  destruct e as [err|]; [|unfold ret; cbn [fst]; eauto].
  unfold bind, logPrintf, RemoveElementFromPDF, RemoveElementsByIDs.
  cbn [String.eqb Ascii.eqb Bool.eqb negb andb]. unfold bind, ret.
  pose proof (removeWatermarks_result w inFile outFile
                (h1 ++ [Log ("Image removal failed: " +:+ err
                             +:+ ", trying watermark removal...")])) as Hresult.
  destruct (removeWatermarks w inFile outFile _) as [e h2]. cbn [fst] in *. eauto.
Qed.

(** X25.  The identifiers that [HandleRemoveSelectedElements] reads from
    the form are never an empty list, so that its operation never gets
    the error of a removal of images without identifiers: it starts the
    analysis of the file. *)
Theorem selectedElementIDs_nonempty (w : World) (sched : Scheduler) (inFile outFile : string)
    (elementsParam : string) :
  selectedElementIDs elementsParam <> []
  /\ RemoveElementsByIDs w sched inFile outFile "image"
       (Some (selectedElementIDs elementsParam))
     = removeImagesByIDs w sched inFile outFile (selectedElementIDs elementsParam).
Proof.
  assert (Hne : selectedElementIDs elementsParam <> []).
  { unfold selectedElementIDs, Split.
    pose proof (split_from_nonempty "," elementsParam "" 0) as Hsplit.
    destruct (split_from "," elementsParam "" 0); [congruence|discriminate]. }
  split; [exact Hne|].
  unfold RemoveElementsByIDs. cbn [String.eqb Ascii.eqb Bool.eqb negb andb].
  destruct (selectedElementIDs elementsParam); [congruence|reflexivity].
Qed.

(** ** The names of the preview files *)

Lemma replace_char_len old new s : len (replace_char old new s) = len s.
Proof.
  unfold len. induction s as [|c s IH]; [reflexivity|].
  cbn [replace_char String.length]. lia.
Qed.

Lemma replace_char_removes old new s :
  old <> new -> mem_char old (replace_char old new s) = false.
Proof.
  intros Hne. induction s as [|c s IH]; [reflexivity|].
  cbn [replace_char]. rewrite mem_char_cons, IH, orb_false_r.
  destruct (Ascii.eqb_spec c old) as [->|Hc].
  - apply Ascii.eqb_neq, Hne.
  - apply Ascii.eqb_neq. congruence.
Qed.

Lemma replace_char_keeps c old new s :
  c <> new -> mem_char c s = false -> mem_char c (replace_char old new s) = false.
Proof.
  intros Hne. induction s as [|d s IH]; [reflexivity|].
  cbn [replace_char]. rewrite !mem_char_cons. intros Hmem.
  apply orb_false_elim in Hmem as [Hd Hs]. rewrite (IH Hs), orb_false_r.
  destruct (Ascii.eqb d old); [apply Ascii.eqb_neq, Hne|exact Hd].
Qed.

Lemma slice_to_keeps c n s : mem_char c s = false -> mem_char c (slice_to n s) = false.
Proof.
  revert s. induction n as [|n IH]; intros s; [reflexivity|].
  destruct s as [|d s]; [reflexivity|]. cbn [slice_to]. rewrite !mem_char_cons.
  intros Hmem. apply orb_false_elim in Hmem as [-> Hs]. rewrite (IH s Hs). reflexivity.
Qed.

(** X26.  [sanitizeID] returns at most 50 bytes: the first bytes of the
    identifier, as many as it has up to 50, without any space, slash,
    backslash or colon. *)
Theorem sanitizeID_safe (id : string) :
  len (sanitizeID id) = Z.min 50 (len id)
  /\ mem_char " " (sanitizeID id) = false
  /\ mem_char "/" (sanitizeID id) = false
  /\ mem_char "\" (sanitizeID id) = false
  /\ mem_char ":" (sanitizeID id) = false.
Proof.
  unfold sanitizeID. cbv zeta.
  set (s1 := replace_char " " "_" id).
  set (s2 := replace_char "/" "_" s1).
  set (s3 := replace_char "\" "_" s2).
  set (s4 := replace_char ":" "_" s3).
  assert (Hlen : len s4 = len id).
  { unfold s4, s3, s2, s1. rewrite !replace_char_len. reflexivity. }
  assert (Hspace : mem_char " " s4 = false).
  { unfold s4, s3, s2. do 3 (apply replace_char_keeps; [discriminate|]).
    apply replace_char_removes. discriminate. }
  assert (Hslash : mem_char "/" s4 = false).
  { unfold s4, s3. do 2 (apply replace_char_keeps; [discriminate|]).
    apply replace_char_removes. discriminate. }
  assert (Hback : mem_char "\" s4 = false).
  { unfold s4. apply replace_char_keeps; [discriminate|].
    apply replace_char_removes. discriminate. }
  assert (Hcolon : mem_char ":" s4 = false).
  { apply replace_char_removes. discriminate. }
  destruct (Z.ltb_spec 50 (len s4)) as [Hlong|Hshort].
  - split; [rewrite len_take by (unfold len in Hlong; lia); lia|].
    auto using slice_to_keeps.
  - split; [lia|]. auto.
Qed.

(** ** The pages of a signature *)

(** X27.  The pages that the grouping loop files under a signature: one
    entry for each image with that signature, in the order of the loop.
    An image that a page holds twice is counted twice. *)
Theorem imageSignatures_lookup (sched : Scheduler) (byPage : gmap Z (list imageInfo))
    (signature : string) (pages : list Z) :
  imageSignatures (groupImages sched byPage) !! signature = Some pages <->
  pages = map iwp_page
            (filter (fun imgPage =>
                       signature_of (iwp_img imgPage)
                         (extractIdPrefix (img_id (iwp_img imgPage))) = signature)
                    (scheduled_images sched byPage))
  /\ pages <> [].
Proof.
  rewrite groupImages_scheduled.
  rewrite (foldl_project imageSignatures _
             (fun m x => match Some (signature_of (iwp_img x)
                                       (extractIdPrefix (img_id (iwp_img x)))) with
                         | Some k => map_append k (iwp_page x) m
                         | None => m
                         end)).
  - cbn [imageSignatures].
    rewrite (group_fold_empty
               (fun x => Some (signature_of (iwp_img x) (extractIdPrefix (img_id (iwp_img x)))))
               iwp_page).
    assert (Hfilter : forall l : list imageWithPage,
              filter (fun x => Some (signature_of (iwp_img x)
                                       (extractIdPrefix (img_id (iwp_img x))))
                               = Some signature) l
              = filter (fun x => signature_of (iwp_img x)
                                   (extractIdPrefix (img_id (iwp_img x))) = signature) l).
    { induction l as [|x l IH]; [reflexivity|].
      destruct (decide (signature_of (iwp_img x) (extractIdPrefix (img_id (iwp_img x)))
                        = signature)) as [Heq|Hne].
      - rewrite !filter_cons_True by congruence. rewrite IH. reflexivity.
      - rewrite !filter_cons_False by congruence. exact IH. }
    rewrite Hfilter. reflexivity.
  - intros g x. reflexivity.
Qed.

(** ** The first strategy *)

(** X28.  A candidate whose stored image identifier is the identifier of
    an occurrence of the listing is resolved by the first strategy alone:
    its occurrences are the occurrences of the listing with that
    identifier, in the order of the listing, and no other strategy is
    run. *)
Theorem exactID_resolves (output : string) (candidate : UnwantedElementCandidate) :
  metadata_text candidate "image_id" <> "" ->
  filter (fun occ => occ_id occ = metadata_text candidate "image_id")
    (allImageOccurrences (scanOccurrences output)) <> [] ->
  foundOccurrences
    (resolveCandidate (imageOccurrences (scanOccurrences output))
       (allImageOccurrences (scanOccurrences output)) candidate)
  = filter (fun occ => occ_id occ = metadata_text candidate "image_id")
      (allImageOccurrences (scanOccurrences output))
  /\ applied
       (resolveCandidate (imageOccurrences (scanOccurrences output))
          (allImageOccurrences (scanOccurrences output)) candidate)
     = [ExactID].
Proof.
  intros Hid Hlisted.
  pose proof (scanOccurrences_agree output (metadata_text candidate "image_id")) as Hagree.
  assert (Hlookup : imageOccurrences (scanOccurrences output)
                      !! metadata_text candidate "image_id"
                    = Some (filter (fun occ => occ_id occ = metadata_text candidate "image_id")
                              (allImageOccurrences (scanOccurrences output)))).
  { unfold map_get in Hagree.
    destruct (imageOccurrences (scanOccurrences output) !! _) as [occs|];
      cbn in Hagree; [rewrite Hagree; reflexivity|]. congruence. }
  assert (Hfull : isEmpty (filter (fun occ => occ_id occ = metadata_text candidate "image_id")
                             (allImageOccurrences (scanOccurrences output))) = false).
  { unfold isEmpty. destruct (filter _ _); [congruence|]. cbn [length]. apply Z.eqb_neq. lia. }
  unfold resolveCandidate, conclude. cbn [foundOccurrences applied].
  unfold exactID. apply String.eqb_neq in Hid. rewrite Hid. cbn [negb]. rewrite Hlookup.
  unfold prefixMatch. cbn [foundOccurrences]. rewrite Hfull. cbn [andb].
  unfold signatureMatch. cbn [foundOccurrences]. rewrite Hfull. cbn [fst].
  unfold singleOccurrence. cbn [foundOccurrences]. rewrite Hfull.
  cbn [foundOccurrences applied]. split; reflexivity.
Qed.

Lemma exactID_resolves_witness :
  foundOccurrences
    (resolveCandidate (imageOccurrences (scanOccurrences same_image_listing))
       (allImageOccurrences (scanOccurrences same_image_listing))
       (hd no_candidate (imageCandidates forward 2 same_image_listing)))
  = filter (fun occ => occ_id occ
                       = metadata_text
                           (hd no_candidate (imageCandidates forward 2 same_image_listing))
                           "image_id")
      (allImageOccurrences (scanOccurrences same_image_listing))
  /\ applied
       (resolveCandidate (imageOccurrences (scanOccurrences same_image_listing))
          (allImageOccurrences (scanOccurrences same_image_listing))
          (hd no_candidate (imageCandidates forward 2 same_image_listing)))
     = [ExactID].
Proof.
  apply exactID_resolves; vm_compute; discriminate.
Defined.

(** ** The kind of a candidate of the first pass *)

Lemma size_pages_within (pages : list Z) (totalPages : Z) :
  0 <= totalPages -> NoDup pages -> Forall (fun page => 1 <= page <= totalPages) pages ->
  Z.of_nat (size (list_to_set pages : gset Z)) = Z.of_nat (length pages)
  /\ Z.of_nat (length pages) <= totalPages.
Proof.
  intros Htotal Hnodup Hrange.
  rewrite size_list_to_set by exact Hnodup. split; [reflexivity|].
  assert (Hsub : (list_to_set pages : gset Z) ⊆ list_to_set (seqZ 1 totalPages)).
  { apply elem_of_subseteq. intros page Hpage.
    apply elem_of_list_to_set in Hpage. apply elem_of_list_to_set, elem_of_seqZ.
    rewrite Forall_forall in Hrange. specialize (Hrange page Hpage). lia. }
  apply subseteq_size in Hsub.
  rewrite !size_list_to_set in Hsub by (exact Hnodup || apply NoDup_seqZ).
  rewrite length_seqZ in Hsub. lia.
Qed.

(** X29.  The first pass gives a size group the kind
    ["repeating_watermark"], the one of a coverage below all the pages,
    only when the group has two images on one page or an image on a page
    that is not one of the document: a group with at most one image on
    each page of the document never gets this kind, the threshold of 80%
    notwithstanding. *)
Theorem repeating_watermark_needs_repetition (totalPages : Z) (prefix sizeKey : string)
    (sizeGroup : list imageWithPage) (c : UnwantedElementCandidate) :
  0 <= totalPages ->
  In c (sizeGroupCandidates totalPages prefix sizeKey sizeGroup) ->
  Metadata c !! "type" = Some "repeating_watermark" ->
  ~ (NoDup (map iwp_page sizeGroup)
     /\ Forall (fun page => 1 <= page <= totalPages) (map iwp_page sizeGroup)).
Proof.
  intros Htotal Hin Htype [Hnodup Hrange].
  destruct (size_pages_within _ _ Htotal Hnodup Hrange) as [Hsize Hle].
  rewrite length_map in Hsize, Hle.
  revert Hin. unfold sizeGroupCandidates.
  destruct (Z.ltb_spec (Z.of_nat (length sizeGroup)) totalPages) as [|Hmany]; [intros []|].
  pose proof (coverSizeGroup_pages sizeGroup) as Hcover.
  destruct (coverSizeGroup sizeGroup) as [pagesCovered representativeImg].
  cbn [fst] in Hcover. subst pagesCovered. rewrite Hsize.
  destruct (F64.geb _ _); [|intros []].
  replace (Z.of_nat (length sizeGroup) =? totalPages) with true
    by (symmetry; apply Z.eqb_eq; lia).
  intros [<-|[]]. cbn [Metadata] in Htype. discriminate Htype.
Qed.

Lemma repeating_watermark_needs_repetition_witness :
  ~ (NoDup (map iwp_page
              (map (mkImageWithPage
                      (mkImageInfo "Image-1" "11" 100 100 "35.2KB" false false "DeviceRGB"))
                 [1; 1; 2; 3; 4]))
     /\ Forall (fun page => 1 <= page <= 5)
          (map iwp_page
             (map (mkImageWithPage
                     (mkImageInfo "Image-1" "11" 100 100 "35.2KB" false false "DeviceRGB"))
                [1; 1; 2; 3; 4]))).
Proof.
  apply (repeating_watermark_needs_repetition 5 "Image" "35KB"
           (map (mkImageWithPage
                   (mkImageInfo "Image-1" "11" 100 100 "35.2KB" false false "DeviceRGB"))
              [1; 1; 2; 3; 4])
           (hd no_candidate
              (sizeGroupCandidates 5 "Image" "35KB"
                 (map (mkImageWithPage
                         (mkImageInfo "Image-1" "11" 100 100 "35.2KB" false false "DeviceRGB"))
                    [1; 1; 2; 3; 4])))).
  - lia.
  - vm_compute. left. reflexivity.
  - vm_compute. reflexivity.
Defined.

(** ** The prefix in a signature *)

Lemma LastIndex_cons c s sub :
  LastIndex (String c s) sub
  = if 0 <=? LastIndex s sub then LastIndex s sub + 1
    else if HasPrefix (String c s) sub then 0 else -1.
Proof. reflexivity. Qed.

Lemma LastIndex_absent s c sub :
  Contains s (String c sub) = false -> LastIndex s (String c sub) = -1.
Proof.
  induction s as [|d s IH]; [reflexivity|].
  change (Contains (String d s) (String c sub))
    with (HasPrefix (String d s) (String c sub) || Contains s (String c sub)).
  intros Hno. apply orb_false_elim in Hno as [Hhere Hlater].
  rewrite LastIndex_cons, (IH Hlater), Hhere. reflexivity.
Qed.

Lemma LastIndex_append a t sub :
  0 <= LastIndex t sub -> LastIndex (a +:+ t) sub = len a + LastIndex t sub.
Proof.
  intros Hfound. induction a as [|c a IH]; [unfold len; simpl; rewrite append_nil_l; lia|].
  rewrite append_cons, LastIndex_cons, IH.
  pose proof (len_nonneg a).
  destruct (Z.leb_spec 0 (len a + LastIndex t sub)); [|lia].
  unfold len. cbn [String.length]. unfold len in *. lia.
Qed.

Lemma slice_from_append a t : slice_from (String.length a) (a +:+ t) = t.
Proof. induction a as [|c a IH]; [reflexivity|]. rewrite append_cons. exact IH. Qed.

(** The text after the last ["prefix:"] of a text that ends with
    ["prefix:"] and a text without it *)
Lemma after_last_prefix a p :
  Contains p "prefix:" = false ->
  LastIndex (a +:+ "prefix:" +:+ p) "prefix:" = len a
  /\ slice_from (Z.to_nat (len a + 7)) (a +:+ "prefix:" +:+ p) = p.
Proof.
  intros Hno.
  assert (Hhere : LastIndex ("prefix:" +:+ p) "prefix:" = 0).
  { pose proof (LastIndex_absent p _ _ Hno) as Hp.
    change ("prefix:" +:+ p)
      with (String "p" (String "r" (String "e" (String "f" (String "i" (String "x"
              (String ":" p))))))).
    rewrite !LastIndex_cons, Hp. reflexivity. }
  split.
  - rewrite LastIndex_append by lia. lia.
  - replace (Z.to_nat (len a + 7)) with (String.length (a +:+ "prefix:")).
    + rewrite <- append_assoc. apply slice_from_append.
    + pose proof (len_append a "prefix:") as Hlen. unfold len in *.
      change (String.length "prefix:") with 7%nat in Hlen. lia.
Qed.

Lemma signature_of_parts img prefix :
  signature_of img prefix = (testSig_of img +:+ "_") +:+ "prefix:" +:+ prefix.
Proof. unfold signature_of, testSig_of. rewrite !append_assoc. reflexivity. Qed.

(** X30.  The third strategy of the removal reads back, from the
    signature that the analysis stores, the prefix that the analysis has
    written into it: for a prefix without white space that does not hold
    the text ["prefix:"]. *)
Theorem signaturePrefix_signature_of (img : imageInfo) (prefix : string) :
  Contains prefix "prefix:" = false ->
  TrimSpace prefix = prefix ->
  IndexAny prefix (" " +:+ tab +:+ newline) <= 0 ->
  signaturePrefix (signature_of img prefix) = prefix.
Proof.
  intros Hno Htrim Hspace. unfold signaturePrefix.
  rewrite signature_of_parts.
  destruct (after_last_prefix (testSig_of img +:+ "_") prefix Hno) as [-> ->].
  pose proof (len_nonneg (testSig_of img +:+ "_")).
  destruct (Z.leb_spec 0 (len (testSig_of img +:+ "_"))); [|lia].
  rewrite Htrim. destruct (Z.ltb_spec 0 (IndexAny prefix (" " +:+ tab +:+ newline))); [lia|].
  reflexivity.
Qed.

Lemma signaturePrefix_signature_of_witness :
  signaturePrefix
    (signature_of (mkImageInfo "Image-1" "11" 100 100 "35.2KB" false false "DeviceRGB")
       "Image")
  = "Image".
Proof.
  apply signaturePrefix_signature_of; [reflexivity|reflexivity|vm_compute; discriminate].
Defined.
